(** * ChipFlow design.py generator

    A shallow embedding of [scripts/generate-design-py.js] and the properties
    of the text it emits.

    The generator is one JavaScript function, [generateDesignPy].  It filters
    the block descriptors of a configuration document by substring tests on
    their [id] and concatenates fixed Python templates around the results.
    JavaScript strings are [string], arrays are [list], the insertion-ordered
    [Set] of import lines is a duplicate-free [list], and a property that may
    be missing from the parsed JSON is an [option].  Numbers read from the
    document are natural numbers, as the data model has them. *)

From Stdlib Require Import String Ascii List ZArith Bool Arith Lia DecimalString.
Import ListNotations.
Local Open Scope string_scope.

(** * The generator *)

(** ** JavaScript strings and arrays *)

(** The double quote and the line feed, which the templates contain. *)
Definition dq : string := String (ascii_of_nat 34) EmptyString.
Definition nl : string := String (ascii_of_nat 10) EmptyString.

(** [s.startsWith(p)]. *)
Fixpoint startsWith (s p : string) {struct p} : bool :=
  match p with
  | EmptyString => true
  | String a p' =>
      match s with
      | EmptyString => false
      | String b s' => Ascii.eqb a b && startsWith s' p'
      end
  end.

(** [s.includes(kw)]: [kw] occurs somewhere in [s]. *)
Fixpoint includes (s kw : string) : bool :=
  startsWith s kw ||
  match s with
  | EmptyString => false
  | String _ s' => includes s' kw
  end.

(** [arr.join(sep)] on an array of strings. *)
Definition join (sep : string) (arr : list string) : string := String.concat sep arr.

(** A template literal that spans several source lines is written as the join
    of its lines. *)
Definition unlines (ls : list string) : string := join nl ls.

(** A template literal that opens with a line break, as those appended to
    [memoryCode] and [ioCode] do. *)
Definition fragment (body : list string) : string := unlines (EmptyString :: body).

(** [String(n)] for an array index or a loop counter. *)
Definition str_nat (n : nat) : string := NilZero.string_of_uint (Nat.to_uint n).

(** [String(n)] for a number read from the document: the decimal digits of
    [n], which is what JavaScript prints of the integers that a number holds
    exactly, those below 2^53. *)
Definition str_N (n : N) : string := NilZero.string_of_uint (N.to_uint n).

(** [v || d] where [v] is a number or [undefined]: [0] and [undefined] are
    falsy. *)
Definition num_or (v : option N) (d : N) : N :=
  match v with
  | Some n => if (n =? 0)%N then d else n
  | None => d
  end.

(** [v || w] where [w] may itself be [undefined]. *)
Definition opt_or (v w : option N) : option N :=
  match v with
  | Some n => if (n =? 0)%N then w else v
  | None => w
  end.

(** The values [0, 1, ..., count-1] of [for (let i = 0; i < count; i++)]. *)
Definition for_range (count : N) : list nat := seq 0 (N.to_nat count).

(** [arr.push(x)]. *)
Definition push (arr : list string) (x : string) : list string := (arr ++ [x])%list.

(** [new Set(...)] and [Set.prototype.add]: insertion order, no duplicates. *)
Definition Set_add (s : list string) (x : string) : list string :=
  if existsb (String.eqb x) s then s else (s ++ [x])%list.

Definition new_Set (init : list string) : list string := fold_left Set_add init [].

(** [arr.forEach((x, index) => ...)] threading the variables the callback
    assigns to. *)
Fixpoint forEach_from {A St : Type} (f : St -> A -> nat -> St) (arr : list A)
    (index : nat) (st : St) : St :=
  match arr with
  | [] => st
  | x :: arr' => forEach_from f arr' (S index) (f st x index)
  end.

Definition forEach {A St : Type} (f : St -> A -> nat -> St) (arr : list A) (st : St) : St :=
  forEach_from f arr 0 st.

(** ** Data model *)

(** A block descriptor.  [id] is the classification key; the other properties
    are optional in the JSON document.  [count] and [bitSize], when given, are
    whole numbers that are not negative. *)
Record Block : Type := mkBlock {
  id : string;
  type : option string;
  enabled : option bool;
  count : option N;
  bitSize : option N
}.

(** The configuration document.  The source destructures
    [{ enabledBlocks, digitalBlocks: directDigitalBlocks, config }];
    [directDigitalBlocks] is the document's [digitalBlocks] property.  [None] is
    a property that is missing (or holds [null]). *)
Record DesignData : Type := mkDesignData {
  enabledBlocks : option (list Block);
  directDigitalBlocks : option (list Block);
  config : option string
}.

(** [block.type === 'digital'] and the truthiness of [block.enabled]. *)
Definition type_is_digital (block : Block) : bool :=
  match type block with
  | Some t => String.eqb t "digital"
  | None => false
  end.

Definition enabled_truthy (block : Block) : bool :=
  match enabled block with
  | Some b => b
  | None => false
  end.

(** ** Block selection and classification *)

Definition allBlocks (designData : DesignData) : list Block :=
  match enabledBlocks designData with
  | Some l => l
  | None =>
      match directDigitalBlocks designData with
      | Some l => l
      | None => []
      end
  end.

Definition digitalBlocks (designData : DesignData) : list Block :=
  match enabledBlocks designData with
  | Some _ => filter type_is_digital (allBlocks designData)
  | None => filter enabled_truthy (allBlocks designData)
  end.

Definition is_processor (block : Block) : bool :=
  includes (id block) "cv32e40p" || includes (id block) "minerva".

Definition is_memory (block : Block) : bool :=
  includes (id block) "sram" || includes (id block) "qspi" || includes (id block) "hyperram".

Definition is_io (block : Block) : bool :=
  includes (id block) "gpio" || includes (id block) "uart" ||
  includes (id block) "spi" || includes (id block) "i2c".

Definition processors (designData : DesignData) : list Block :=
  filter is_processor (digitalBlocks designData).

(** [processors[0]], [undefined] when there is no processor. *)
Definition cpu (designData : DesignData) : option Block := hd_error (processors designData).

Definition memory (designData : DesignData) : list Block :=
  filter is_memory (digitalBlocks designData).

Definition io (designData : DesignData) : list Block :=
  filter is_io (digitalBlocks designData).

(** [arr.includes(block)].  The arrays tested are filters of the array [block]
    is drawn from, so comparing the descriptors' contents finds exactly the
    blocks that comparing object identity finds. *)
Definition Block_eqb (a b : Block) : bool :=
  String.eqb (id a) (id b) &&
  match type a, type b with
  | Some x, Some y => String.eqb x y
  | None, None => true
  | _, _ => false
  end &&
  match enabled a, enabled b with
  | Some x, Some y => Bool.eqb x y
  | None, None => true
  | _, _ => false
  end &&
  match count a, count b with
  | Some x, Some y => (x =? y)%N
  | None, None => true
  | _, _ => false
  end &&
  match bitSize a, bitSize b with
  | Some x, Some y => (x =? y)%N
  | None, None => true
  | _, _ => false
  end.

Definition arr_includes (arr : list Block) (block : Block) : bool :=
  existsb (Block_eqb block) arr.

Definition other (designData : DesignData) : list Block :=
  filter (fun block =>
            negb (arr_includes (processors designData) block) &&
            negb (arr_includes (memory designData) block) &&
            negb (arr_includes (io designData) block))
         (digitalBlocks designData).

(** [arr.some(b => b.id.includes(kw))]. *)
Definition some_id (arr : list Block) (kw : string) : bool :=
  existsb (fun b => includes (id b) kw) arr.

(** [cpu?.id.includes(kw)]: [undefined], hence falsy, without a CPU. *)
Definition cpu_id_includes (cpu : option Block) (kw : string) : bool :=
  match cpu with
  | Some c => includes (id c) kw
  | None => false
  end.

(** ** Import set *)

Definition imports_of (memory io : list Block) (cpu : option Block) : list string :=
  let imports := new_Set [
    "from pathlib import Path";
    EmptyString;
    "from amaranth import Module";
    "from amaranth.lib import wiring";
    "from amaranth.lib.wiring import Out, flipped, connect";
    EmptyString;
    "from amaranth_soc import csr, wishbone";
    "from amaranth_soc.csr.wishbone import WishboneCSRBridge";
    EmptyString;
    "from chipflow_digital_ip.base import SoCID"
  ] in
  (* Add memory imports *)
  let imports :=
    if some_id memory "qspi"
    then Set_add imports "from chipflow_digital_ip.memory import QSPIFlash"
    else imports in
  let imports :=
    if some_id memory "hyperram"
    then Set_add imports "from chipflow_digital_ip.memory import HyperRAM"
    else imports in
  let imports :=
    if some_id memory "sram" || Nat.eqb (List.length memory) 0
    then Set_add imports "from amaranth_soc.wishbone.sram import WishboneSRAM"
    else imports in
  (* Add IO imports *)
  let ioImports := [] in
  let ioImports := if some_id io "gpio" then push ioImports "GPIOPeripheral" else ioImports in
  let ioImports := if some_id io "uart" then push ioImports "UARTPeripheral" else ioImports in
  let ioImports := if some_id io "spi" then push ioImports "SPIPeripheral" else ioImports in
  let ioImports := if some_id io "i2c" then push ioImports "I2CPeripheral" else ioImports in
  let imports :=
    if Nat.ltb 0 (List.length ioImports)
    then Set_add imports ("from chipflow_digital_ip.io import " ++ join ", " ioImports)
    else imports in
  (* Add processor imports *)
  let imports :=
    if cpu_id_includes cpu "cv32e40p"
    then Set_add imports "from chipflow_digital_ip.processors import CV32E40P, OBIDebugModule"
    else if cpu_id_includes cpu "minerva"
    then Set_add imports "from minerva.core import Minerva"
    else imports in
  (* Add platform imports *)
  let platformImports := ["attach_data"; "SoftwareBuild"] in
  let platformImports :=
    if some_id io "gpio" then push platformImports "GPIOSignature" else platformImports in
  let platformImports :=
    if some_id io "uart" then push platformImports "UARTSignature" else platformImports in
  let platformImports :=
    if some_id io "spi" then push platformImports "SPISignature" else platformImports in
  let platformImports :=
    if some_id io "i2c" then push platformImports "I2CSignature" else platformImports in
  let platformImports :=
    if some_id memory "qspi" then push platformImports "QSPIFlashSignature" else platformImports in
  let platformImports :=
    if cpu_id_includes cpu "cv32e40p" then push platformImports "JTAGSignature" else platformImports in
  Set_add imports ("from chipflow_lib.platforms import " ++ join ", " platformImports).

(** ** Interface declarations *)

Definition flash_interface : string := dq ++ "flash" ++ dq ++ ": Out(QSPIFlashSignature())".

Definition cpu_jtag_interface : string := dq ++ "cpu_jtag" ++ dq ++ ": Out(JTAGSignature())".

Definition gpio_interface (i : nat) (bitSize : option N) : string :=
  dq ++ "gpio_" ++ str_nat i ++ dq ++ ": Out(GPIOSignature(pin_count=" ++
  str_N (num_or bitSize 8) ++ "))".

Definition uart_interface (i : nat) : string :=
  dq ++ "uart_" ++ str_nat i ++ dq ++ ": Out(UARTSignature())".

Definition spi_interface (i : nat) : string :=
  dq ++ "spi_" ++ str_nat i ++ dq ++ ": Out(SPISignature())".

Definition i2c_interface (i : nat) : string :=
  dq ++ "i2c_" ++ str_nat i ++ dq ++ ": Out(I2CSignature())".

(** The body of [io.forEach(block => ...)] at lines 101-123: at most one branch
    of the [if / else if] chain runs for a block. *)
Definition add_io_interfaces (interfaces : list string) (block : Block) : list string :=
  let count := num_or (count block) 1 in
  let bitSize :=
    opt_or (bitSize block) (if includes (id block) "gpio" then Some 8%N else None) in
  if includes (id block) "gpio" then
    fold_left (fun interfaces i => push interfaces (gpio_interface i bitSize))
              (for_range count) interfaces
  else if includes (id block) "uart" then
    fold_left (fun interfaces i => push interfaces (uart_interface i))
              (for_range count) interfaces
  else if includes (id block) "spi" then
    let startIndex := List.length (filter (fun iface => includes iface "spi_") interfaces) in
    fold_left (fun interfaces i => push interfaces (spi_interface (startIndex + i)))
              (for_range count) interfaces
  else if includes (id block) "i2c" then
    fold_left (fun interfaces i => push interfaces (i2c_interface i))
              (for_range count) interfaces
  else interfaces.

Definition interfaces_of (memory io : list Block) (cpu : option Block) : list string :=
  let interfaces := [] in
  (* Add flash interface if QSPI present *)
  let interfaces :=
    if some_id memory "qspi"
    then push interfaces flash_interface
    else interfaces in
  (* Add CPU debug interface *)
  let interfaces :=
    if cpu_id_includes cpu "cv32e40p"
    then push interfaces cpu_jtag_interface
    else interfaces in
  (* Add IO interfaces *)
  fold_left add_io_interfaces io interfaces.

(** ** Memory map *)

Definition memoryMap_regions : list string := [
    "        # Memory regions:";
    "        self.mem_spiflash_base = 0x00000000";
    "        self.mem_sram_base     = 0x10000000";
    EmptyString;
    "        # Debug region";
    "        self.debug_base        = 0xa0000000";
    EmptyString;
    "        # CSR regions:";
    "        self.csr_base          = 0xb0000000"
  ].

Definition csr_spiflash_base : string := "        self.csr_spiflash_base = 0xb0000000".

Definition memoryMap_csr : list string := [
    "        self.csr_gpio_base     = 0xb1000000";
    "        self.csr_uart_base     = 0xb2000000";
    "        self.csr_soc_id_base   = 0xb4000000"
  ].

Definition csr_spi_base : string := "        self.csr_spi_base      = 0xb5000000".

Definition csr_i2c_base : string := "        self.csr_i2c_base      = 0xb6000000".

Definition memoryMap_sizes : list string := [
    "        ";
    "        self.periph_offset     = 0x00100000";
    "        self.sram_size  = 0x800 # 2KiB";
    "        self.bios_start = 0x100000 # 1MiB into spiflash to make room for a bitstream"
  ].

Definition memoryMap_of (memory io : list Block) : string :=
  let memoryMap := unlines memoryMap_regions in
  let memoryMap :=
    if some_id memory "qspi" then memoryMap ++ nl ++ csr_spiflash_base else memoryMap in
  let memoryMap := memoryMap ++ fragment memoryMap_csr in
  let memoryMap :=
    if some_id io "spi" then memoryMap ++ nl ++ csr_spi_base else memoryMap in
  let memoryMap :=
    if some_id io "i2c" then memoryMap ++ nl ++ csr_i2c_base else memoryMap in
  memoryMap ++ fragment memoryMap_sizes.

(** ** CPU instantiation *)

Definition cpuCode_cv32e40p_lines : list string := [
    "        # CPU";
    "        cpu = CV32E40P(config=" ++ dq ++ "default" ++ dq ++ ", reset_vector=self.bios_start, dm_haltaddress=self.debug_base+0x800)";
    "        wb_arbiter.add(cpu.ibus)";
    "        wb_arbiter.add(cpu.dbus)";
    "        m.submodules.cpu = cpu";
    EmptyString;
    "        # Debug";
    "        debug = OBIDebugModule()";
    "        wb_arbiter.add(debug.initiator)";
    "        wb_decoder.add(debug.target, name=" ++ dq ++ "debug" ++ dq ++ ", addr=self.debug_base)";
    "        m.d.comb += cpu.debug_req.eq(debug.debug_req)";
    EmptyString;
    "        m.d.comb += [";
    "            debug.jtag_tck.eq(self.cpu_jtag.tck.i),";
    "            debug.jtag_tms.eq(self.cpu_jtag.tms.i),";
    "            debug.jtag_tdi.eq(self.cpu_jtag.tdi.i),";
    "            debug.jtag_trst.eq(self.cpu_jtag.trst.i),";
    "            self.cpu_jtag.tdo.o.eq(debug.jtag_tdo),";
    "        ]";
    "        m.submodules.debug = debug"
  ].

Definition cpuCode_cv32e40p : string := unlines cpuCode_cv32e40p_lines.

Definition cpuCode_minerva_lines : list string := [
    "        # CPU";
    "        cpu = Minerva(reset_address=self.bios_start, with_muldiv=True)";
    "        wb_arbiter.add(cpu.ibus)";
    "        wb_arbiter.add(cpu.dbus)";
    "        m.submodules.cpu = cpu"
  ].

Definition cpuCode_minerva : string := unlines cpuCode_minerva_lines.

Definition cpuCode_of (cpu : option Block) : string :=
  let cpuCode := EmptyString in
  if cpu_id_includes cpu "cv32e40p" then cpuCode_cv32e40p
  else if cpu_id_includes cpu "minerva" then cpuCode_minerva
  else cpuCode.

(** ** Memory components *)

Definition memoryCode_qspi_lines : list string := [
    "        # QSPI Flash";
    "        spiflash = QSPIFlash(addr_width=24, data_width=32)";
    "        wb_decoder.add(spiflash.wb_bus, name=" ++ dq ++ "spiflash" ++ dq ++ ", addr=self.mem_spiflash_base)";
    "        csr_decoder.add(spiflash.csr_bus, name=" ++ dq ++ "spiflash" ++ dq ++ ", addr=self.csr_spiflash_base - self.csr_base)";
    "        m.submodules.spiflash = spiflash";
    "        connect(m, flipped(self.flash), spiflash.pins)"
  ].

Definition memoryCode_qspi : string := fragment memoryCode_qspi_lines.

Definition memoryCode_sram_lines : list string := [
    "        # SRAM";
    "        from amaranth_soc.wishbone.sram import WishboneSRAM";
    "        sram = WishboneSRAM(size=self.sram_size, data_width=32, granularity=8)";
    "        wb_decoder.add(sram.wb_bus, name=" ++ dq ++ "sram" ++ dq ++ ", addr=self.mem_sram_base)";
    "        m.submodules.sram = sram"
  ].

Definition memoryCode_sram : string := fragment memoryCode_sram_lines.

Definition memoryCode_of (memory : list Block) : string :=
  let memoryCode := EmptyString in
  (* QSPI Flash *)
  let memoryCode :=
    if some_id memory "qspi" then memoryCode ++ memoryCode_qspi else memoryCode in
  (* SRAM (always include basic SRAM) *)
  memoryCode ++ memoryCode_sram.

(** ** IO components *)

Definition gpio_lines (index : nat) (bitSize : N) : list string := [
    "        # GPIO " ++ str_nat index;
    "        m.submodules.gpio_" ++ str_nat index ++ " = gpio_" ++ str_nat index ++ " = GPIOPeripheral(pin_count=" ++ str_N bitSize ++ ", addr_width=5)";
    "        csr_decoder.add(gpio_" ++ str_nat index ++ ".bus, name=" ++ dq ++ "gpio_" ++ str_nat index ++ dq ++ ", addr=self.csr_gpio_base + " ++ str_nat index ++ " * self.periph_offset - self.csr_base)";
    "        connect(m, flipped(self.gpio_" ++ str_nat index ++ "), gpio_" ++ str_nat index ++ ".pins)"
  ].

Definition gpio_fragment (index : nat) (bitSize : N) : string := fragment (gpio_lines index bitSize).

Definition uart_lines (index : nat) : list string := [
    "        # UART " ++ str_nat index;
    "        m.submodules.uart_" ++ str_nat index ++ " = uart_" ++ str_nat index ++ " = UARTPeripheral(init_divisor=int(25e6//115200), addr_width=5)";
    "        csr_decoder.add(uart_" ++ str_nat index ++ ".bus, name=" ++ dq ++ "uart_" ++ str_nat index ++ dq ++ ", addr=self.csr_uart_base + " ++ str_nat index ++ " * self.periph_offset - self.csr_base)";
    "        connect(m, flipped(self.uart_" ++ str_nat index ++ "), uart_" ++ str_nat index ++ ".pins)"
  ].

Definition uart_fragment (index : nat) : string := fragment (uart_lines index).

Definition spi_lines (spiIndex : nat) : list string := [
    "        # SPI " ++ str_nat spiIndex;
    "        m.submodules.spi_" ++ str_nat spiIndex ++ " = spi_" ++ str_nat spiIndex ++ " = SPIPeripheral()";
    "        csr_decoder.add(spi_" ++ str_nat spiIndex ++ ".bus, name=" ++ dq ++ "spi_" ++ str_nat spiIndex ++ dq ++ ", addr=self.csr_spi_base + " ++ str_nat spiIndex ++ " * self.periph_offset - self.csr_base)";
    "        connect(m, flipped(self.spi_" ++ str_nat spiIndex ++ "), spi_" ++ str_nat spiIndex ++ ".spi_pins)"
  ].

Definition spi_fragment (spiIndex : nat) : string := fragment (spi_lines spiIndex).

Definition i2c_lines (index : nat) : list string := [
    "        # I2C " ++ str_nat index;
    "        m.submodules.i2c_" ++ str_nat index ++ " = i2c_" ++ str_nat index ++ " = I2CPeripheral()";
    "        csr_decoder.add(i2c_" ++ str_nat index ++ ".bus, name=" ++ dq ++ "i2c_" ++ str_nat index ++ dq ++ ", addr=self.csr_i2c_base + " ++ str_nat index ++ " * self.periph_offset - self.csr_base)";
    "        connect(m, flipped(self.i2c_" ++ str_nat index ++ "), i2c_" ++ str_nat index ++ ".i2c_pins)"
  ].

Definition i2c_fragment (index : nat) : string := fragment (i2c_lines index).

(** The callback of [spiBlocks.forEach]: it assigns to both [ioCode] and
    [spiIndex], which outlive the loop over one block. *)
Definition add_spi_block (st : string * nat) (block : Block) (_ : nat) : string * nat :=
  let count := num_or (count block) 1 in
  fold_left (fun (st : string * nat) (_ : nat) =>
               let (ioCode, spiIndex) := st in
               (ioCode ++ spi_fragment spiIndex, S spiIndex))
            (for_range count) st.

Definition ioCode_of (io : list Block) : string :=
  let ioCode := EmptyString in
  (* GPIO *)
  let gpioBlocks := filter (fun b => includes (id b) "gpio") io in
  let ioCode :=
    forEach (fun ioCode block index =>
               let bitSize := num_or (bitSize block) 8 in
               ioCode ++ gpio_fragment index bitSize)
            gpioBlocks ioCode in
  (* UART *)
  let uartBlocks := filter (fun b => includes (id b) "uart") io in
  let ioCode :=
    forEach (fun ioCode (_ : Block) index => ioCode ++ uart_fragment index)
            uartBlocks ioCode in
  (* SPI *)
  let spiBlocks := filter (fun b => includes (id b) "spi") io in
  let spiIndex := 0 in
  let (ioCode, _) := forEach add_spi_block spiBlocks (ioCode, spiIndex) in
  (* I2C *)
  let i2cBlocks := filter (fun b => includes (id b) "i2c") io in
  forEach (fun ioCode (_ : Block) index => ioCode ++ i2c_fragment index)
          i2cBlocks ioCode.

(** ** Assembly
    The final template literal, lines 261-313.  Its fixed stretches are named;
    the interpolated sections stand where the source has them. *)

Definition class_opening : list string := [
    EmptyString;
    "__all__ = [" ++ dq ++ "MySoC" ++ dq ++ "]";
    EmptyString;
    "class MySoC(wiring.Component):";
    "    def __init__(self):";
    "        # Top level interfaces";
    "        super().__init__({"
  ].

Definition class_closing : list string := [
    "        })";
    EmptyString
  ].

Definition elaborate_opening : list string := [
    EmptyString;
    "    def elaborate(self, platform):";
    "        m = Module()";
    EmptyString;
    "        wb_arbiter  = wishbone.Arbiter(addr_width=30, data_width=32, granularity=8)";
    "        wb_decoder  = wishbone.Decoder(addr_width=30, data_width=32, granularity=8)";
    "        csr_decoder = csr.Decoder(addr_width=28, data_width=8)";
    EmptyString;
    "        m.submodules.wb_arbiter  = wb_arbiter";
    "        m.submodules.wb_decoder  = wb_decoder";
    "        m.submodules.csr_decoder = csr_decoder";
    EmptyString;
    "        connect(m, wb_arbiter.bus, wb_decoder.bus)";
    EmptyString
  ].

Definition soc_id_and_bridge : list string := [
    EmptyString;
    "        # SoC ID";
    "        soc_id = SoCID(type_id=0xCA7F100F)";
    "        csr_decoder.add(soc_id.bus, name=" ++ dq ++ "soc_id" ++ dq ++ ", addr=self.csr_soc_id_base - self.csr_base)";
    "        m.submodules.soc_id = soc_id";
    EmptyString;
    "        # Wishbone-CSR bridge";
    "        wb_to_csr = WishboneCSRBridge(csr_decoder.bus, data_width=32)";
    "        wb_decoder.add(wb_to_csr.wb_bus, name=" ++ dq ++ "csr" ++ dq ++ ", addr=self.csr_base, sparse=False)";
    "        m.submodules.wb_to_csr = wb_to_csr";
    EmptyString;
    "        sw = SoftwareBuild(sources=Path('design/software').glob('*.c'),";
    "                           offset=self.bios_start)";
    EmptyString
  ].

Definition attach_comment : string :=
  "        # you need to attach data to both the internal and external interfaces".

Definition attach_flash : string :=
  "        attach_data(self.flash, m.submodules.spiflash, sw)".

Definition entry_point : list string := [
    "        return m";
    EmptyString;
    EmptyString;
    "if __name__ == " ++ dq ++ "__main__" ++ dq ++ ":";
    "    from amaranth.back import verilog";
    "    soc_top = MySoC()";
    "    with open(" ++ dq ++ "build/soc_top.v" ++ dq ++ ", " ++ dq ++ "w" ++ dq ++ ") as f:";
    "        f.write(verilog.convert(soc_top, name=" ++ dq ++ "soc_top" ++ dq ++ "))";
    EmptyString
  ].

Definition designPy_of (imports interfaces : list string)
    (memoryMap cpuCode memoryCode ioCode : string) (memory : list Block) : string :=
  unlines (
    [ join nl imports ] ++
    class_opening ++
    [ join ("," ++ nl)%string
           (map (fun iface => "            " ++ iface)%string interfaces) ] ++
    class_closing ++
    [ memoryMap ] ++
    elaborate_opening ++
    [ cpuCode;
      memoryCode;
      ioCode ] ++
    soc_id_and_bridge ++
    [ (attach_comment ++
        (if some_id memory "qspi" then nl ++ attach_flash else EmptyString))%string ] ++
    entry_point
  )%list.

(** The sections of the artifact for a document. *)
Definition imports (designData : DesignData) : list string :=
  imports_of (memory designData) (io designData) (cpu designData).

Definition interfaces (designData : DesignData) : list string :=
  interfaces_of (memory designData) (io designData) (cpu designData).

Definition memoryMap (designData : DesignData) : string :=
  memoryMap_of (memory designData) (io designData).

Definition cpuCode (designData : DesignData) : string := cpuCode_of (cpu designData).

Definition memoryCode (designData : DesignData) : string := memoryCode_of (memory designData).

Definition ioCode (designData : DesignData) : string := ioCode_of (io designData).

Definition generateDesignPy (designData : DesignData) : string :=
  designPy_of (imports designData) (interfaces designData) (memoryMap designData)
              (cpuCode designData) (memoryCode designData) (ioCode designData)
              (memory designData).

(** * Reading the artifact
    The claims speak of what the artifact contains.  The artifact is Python
    source, so it is observed line by line. *)

(** ** Lines and characters *)

Definition LF : ascii := ascii_of_nat 10.

(** [text.split('\n')]. *)
Fixpoint lines (text : string) : list string :=
  match text with
  | EmptyString => [EmptyString]
  | String c text' =>
      if Ascii.eqb c LF then EmptyString :: lines text'
      else
        match lines text' with
        | l :: ls => String c l :: ls
        | [] => [String c EmptyString]
        end
  end.

Fixpoint has_char (c : ascii) (s : string) : bool :=
  match s with
  | EmptyString => false
  | String a s' => Ascii.eqb a c || has_char c s'
  end.

(** The characters of a decimal numeral. *)
Definition is_digit (c : ascii) : bool := has_char c "0123456789".

(** A line without a line feed in it. *)
Definition one_line (l : string) : Prop := has_char LF l = false.

(** A line without its indentation. *)
Fixpoint lstrip (l : string) : string :=
  match l with
  | String c l' => if Ascii.eqb c " " then lstrip l' else l
  | EmptyString => l
  end.

(** The line begins with [p] once its indentation is removed. *)
Definition starts (p l : string) : bool := startsWith (lstrip l) p.

Fixpoint drop (n : nat) (s : string) : string :=
  match n, s with
  | S n', String _ s' => drop n' s'
  | _, _ => s
  end.

(** No element of [xs] occurs twice, for the equality test [eqb]. *)
Fixpoint all_distinct {A : Type} (eqb : A -> A -> bool) (xs : list A) : bool :=
  match xs with
  | [] => true
  | x :: xs' => negb (existsb (eqb x) xs') && all_distinct eqb xs'
  end.

(** Some line of [ls] mentions [kw]. *)
Definition mentions (ls : list string) (kw : string) : bool :=
  existsb (fun l => includes l kw) ls.

(** ** The sections as lists
    The same sections, described by what they hold rather than by how the loops
    build them. *)

(** The text with every fragment of [frags] appended in order. *)
Definition concat_all (frags : list string) : string := fold_right append EmptyString frags.

Fixpoint indexed_from {A : Type} (index : nat) (arr : list A) : list (nat * A) :=
  match arr with
  | [] => []
  | x :: arr' => (index, x) :: indexed_from (S index) arr'
  end.

(** The number of SPI instances: every SPI-classified block contributes its
    [count]. *)
Definition spi_instances (blocks : list Block) : nat :=
  list_sum (map (fun b => N.to_nat (num_or (count b) 1)) blocks).

(** The bodies of the IO fragments: four lines for each instance. *)
Definition io_bodies (io : list Block) : list (list string) :=
  (map (fun ib : nat * Block => gpio_lines (fst ib) (num_or (bitSize (snd ib)) 8))
       (indexed_from 0 (filter (fun b => includes (id b) "gpio") io)) ++
   map (fun ib : nat * Block => uart_lines (fst ib))
       (indexed_from 0 (filter (fun b => includes (id b) "uart") io)) ++
   map spi_lines (seq 0 (spi_instances (filter (fun b => includes (id b) "spi") io))) ++
   map (fun ib : nat * Block => i2c_lines (fst ib))
       (indexed_from 0 (filter (fun b => includes (id b) "i2c") io)))%list.

Definition io_fragments (io : list Block) : list string := map fragment (io_bodies io).

(** The lines of the IO section below the blank line that opens it. *)
Definition io_lines (io : list Block) : list string := concat (io_bodies io).

(** The declarations one IO block adds to [interfaces]; [startIndex] is the
    number of SPI declarations made before it. *)
Definition block_interfaces (startIndex : nat) (block : Block) : list string :=
  let count := num_or (count block) 1 in
  let bitSize :=
    opt_or (bitSize block) (if includes (id block) "gpio" then Some 8%N else None) in
  if includes (id block) "gpio" then map (fun i => gpio_interface i bitSize) (for_range count)
  else if includes (id block) "uart" then map uart_interface (for_range count)
  else if includes (id block) "spi" then
    map (fun i => spi_interface (startIndex + i)) (for_range count)
  else if includes (id block) "i2c" then map i2c_interface (for_range count)
  else [].

(** The lines of the interface section: every declaration but the last is
    followed by a comma, and an empty section is one empty line. *)
Fixpoint interface_lines (interfaces : list string) : list string :=
  match interfaces with
  | [] => [EmptyString]
  | iface :: rest =>
      match rest with
      | [] => ["            " ++ iface]
      | _ :: _ => ("            " ++ iface ++ ",") :: interface_lines rest
      end
  end.

(** Every interface declaration opens with a double quote. *)
Definition quoted (l : string) : Prop := exists r, l = dq ++ r.

(** The lines of the memory map, of the CPU section and of the memory section. *)
Definition memoryMap_lines (memory io : list Block) : list string :=
  (memoryMap_regions ++
   (if some_id memory "qspi" then [csr_spiflash_base] else []) ++
   memoryMap_csr ++
   (if some_id io "spi" then [csr_spi_base] else []) ++
   (if some_id io "i2c" then [csr_i2c_base] else []) ++
   memoryMap_sizes)%list.

Definition cpu_lines (cpu : option Block) : list string :=
  if cpu_id_includes cpu "cv32e40p" then cpuCode_cv32e40p_lines
  else if cpu_id_includes cpu "minerva" then cpuCode_minerva_lines
  else [EmptyString].

Definition memory_lines (memory : list Block) : list string :=
  (EmptyString ::
   (if some_id memory "qspi" then memoryCode_qspi_lines else []) ++
   memoryCode_sram_lines)%list.

(** The last lines of [elaborate]: the flash data is attached only when a QSPI
    flash is present. *)
Definition attach_lines (memory : list Block) : list string :=
  attach_comment :: (if some_id memory "qspi" then [attach_flash] else []).

(** The artifact, line by line. *)
Definition artifact_lines (designData : DesignData) : list string :=
  (imports designData ++
   class_opening ++
   interface_lines (interfaces designData) ++
   class_closing ++
   memoryMap_lines (memory designData) (io designData) ++
   elaborate_opening ++
   cpu_lines (cpu designData) ++
   memory_lines (memory designData) ++
   (EmptyString :: io_lines (io designData)) ++
   soc_id_and_bridge ++
   attach_lines (memory designData) ++
   entry_point)%list.

(** The artifact for no block at all, line by line: the fixed imports with the
    SRAM and platform imports, an empty interface dictionary, the fixed memory
    map, an empty CPU section, the baseline SRAM, an empty IO section and the
    closing boilerplate. *)
Definition minimal_lines : list string :=
  ([ "from pathlib import Path";
     EmptyString;
     "from amaranth import Module";
     "from amaranth.lib import wiring";
     "from amaranth.lib.wiring import Out, flipped, connect";
     "from amaranth_soc import csr, wishbone";
     "from amaranth_soc.csr.wishbone import WishboneCSRBridge";
     "from chipflow_digital_ip.base import SoCID";
     "from amaranth_soc.wishbone.sram import WishboneSRAM";
     "from chipflow_lib.platforms import attach_data, SoftwareBuild" ] ++
   class_opening ++
   [ EmptyString ] ++
   class_closing ++
   memoryMap_regions ++ memoryMap_csr ++ memoryMap_sizes ++
   elaborate_opening ++
   [ EmptyString ] ++
   [ EmptyString ] ++ memoryCode_sram_lines ++
   [ EmptyString ] ++
   soc_id_and_bridge ++
   [ attach_comment ] ++
   entry_point)%list.

(** ** Declarations and instantiations *)

(** The kinds of IO peripheral. *)
Definition io_kinds : list string := ["gpio"; "uart"; "spi"; "i2c"].

(** An interface declaration of a kind: [gpio_<i>: Out(...)] in double quotes,
    inside the dictionary passed to [super().__init__]. *)
Definition declares (kind l : string) : bool := starts (dq ++ kind ++ "_") l.

(** The first statement of an instantiation fragment of a kind:
    [m.submodules.<kind>_<i> = ...]. *)
Definition instantiates (kind l : string) : bool := starts ("m.submodules." ++ kind ++ "_") l.

(** Every statement that adds a submodule, whatever it is. *)
Definition adds_submodule (l : string) : bool := starts "m.submodules." l.

(** The statement that adds the CPU. *)
Definition adds_cpu (l : string) : bool := String.eqb (lstrip l) "m.submodules.cpu = cpu".

Definition interface_declarations (kind text : string) : list string :=
  filter (declares kind) (lines text).

Definition instantiations (kind text : string) : list string :=
  filter (instantiates kind) (lines text).

Definition gpio_instantiation (index : nat) (bitSize : N) : string :=
  nth 1 (gpio_lines index bitSize) EmptyString.

Definition uart_instantiation (index : nat) : string :=
  nth 1 (uart_lines index) EmptyString.

Definition spi_instantiation (spiIndex : nat) : string :=
  nth 1 (spi_lines spiIndex) EmptyString.

Definition i2c_instantiation (index : nat) : string :=
  nth 1 (i2c_lines index) EmptyString.

(** An SPI interface declaration, as the interface stage recognises one when
    it counts those already made. *)
Definition is_spi_interface (iface : string) : bool := includes iface "spi_".

(** The block reaches the SPI branch of the interface stage: [gpio] and [uart]
    are tested first. *)
Definition spi_first (block : Block) : bool :=
  negb (includes (id block) "gpio") && negb (includes (id block) "uart") &&
  includes (id block) "spi".

(** ** Import statements and the names they bring *)

(** A line that is an import statement, once its indentation is removed. *)
Definition is_import (l : string) : bool := starts "from " l.

(** The import statements of a text, in order, without their indentation. *)
Definition import_statements (text : string) : list string :=
  map lstrip (filter is_import (lines text)).

(** The text that follows the first occurrence of [marker] in [s]. *)
Fixpoint after (s marker : string) : option string :=
  if startsWith s marker then Some (drop (String.length marker) s)
  else
    match s with
    | String _ s' => after s' marker
    | EmptyString => None
    end.

(** [s.split(sep)] for a separator of one character. *)
Fixpoint split_on (sep : ascii) (s : string) : list string :=
  match s with
  | EmptyString => [EmptyString]
  | String c s' =>
      if Ascii.eqb c sep then EmptyString :: split_on sep s'
      else
        match split_on sep s' with
        | w :: ws => String c w :: ws
        | [] => [String c EmptyString]
        end
  end.

(** The names of [from module import a, b, c]. *)
Definition imported_names (stmt : string) : list string :=
  match after stmt " import " with
  | Some names => map lstrip (split_on "," names)
  | None => []
  end.

(** Some statement of [stmts] imports the name [X]. *)
Definition imports_name (stmts : list string) (X : string) : bool :=
  existsb (fun stmt => existsb (String.eqb X) (imported_names stmt)) stmts.

(** The number of times [x] occurs in [xs]. *)
Definition occurrences (xs : list string) (x : string) : nat :=
  List.length (filter (String.eqb x) xs).

Definition no_duplicate (xs : list string) : bool := all_distinct String.eqb xs.

Definition sram_import : string := "from amaranth_soc.wishbone.sram import WishboneSRAM".

Definition verilog_import : string := "from amaranth.back import verilog".

(** The lines of the instantiation sections: CPU, memory and IO. *)
Definition instantiation_lines (designData : DesignData) : list string :=
  (lines (cpuCode designData) ++ lines (memoryCode designData) ++
   lines (ioCode designData))%list.

(** The instantiation sections mention the name [X]. *)
Definition references (designData : DesignData) (X : string) : bool :=
  mentions (instantiation_lines designData) X.

(** Every name that an import statement of the generator can bring. *)
Definition importable : list string := [
    "Path"; "Module"; "wiring"; "Out"; "flipped"; "connect"; "csr"; "wishbone";
    "WishboneCSRBridge"; "SoCID";
    "QSPIFlash"; "HyperRAM"; "WishboneSRAM";
    "GPIOPeripheral"; "UARTPeripheral"; "SPIPeripheral"; "I2CPeripheral";
    "CV32E40P"; "OBIDebugModule"; "Minerva";
    "attach_data"; "SoftwareBuild";
    "GPIOSignature"; "UARTSignature"; "SPISignature"; "I2CSignature";
    "QSPIFlashSignature"; "JTAGSignature";
    "verilog"
  ].

(** Some character of [X] that is not a digit does not occur in [l0]. *)
Definition absent_char (X l0 : string) : bool :=
  existsb (fun c => negb (is_digit c) && negb (has_char c l0)) (list_ascii_of_string X).


(** ** Reading the memory map *)

Definition hex_value (c : ascii) : option N :=
  if has_char c "0123456789" then Some (N_of_ascii c - 48)%N
  else if has_char c "abcdef" then Some (N_of_ascii c - 87)%N
  else if has_char c "ABCDEF" then Some (N_of_ascii c - 55)%N
  else None.

(** The value of the hexadecimal digits [s] begins with, after [acc]. *)
Fixpoint parse_hex (s : string) (acc : N) : N :=
  match s with
  | String c s' =>
      match hex_value c with
      | Some v => parse_hex s' (16 * acc + v)%N
      | None => acc
      end
  | EmptyString => acc
  end.

(** The text up to the first space, and the text from that space on. *)
Fixpoint until_space (s : string) : string * string :=
  match s with
  | String c s' =>
      if Ascii.eqb c " " then (EmptyString, s)
      else let (w, rest) := until_space s' in (String c w, rest)
  | EmptyString => (EmptyString, EmptyString)
  end.

(** [self.<name> = 0x<hex>], as the memory map writes its constants. *)
Definition assignment (l : string) : option (string * N) :=
  let s := lstrip l in
  if startsWith s "self." then
    let (name, rest) := until_space (drop 5 s) in
    let rest := lstrip rest in
    if startsWith rest "= 0x" then Some (name, parse_hex (drop 4 rest) 0%N) else None
  else None.

Fixpoint ends_with (suffix s : string) : bool :=
  String.eqb s suffix ||
  match s with
  | String _ s' => ends_with suffix s'
  | EmptyString => false
  end.

Fixpoint assignments (ls : list string) : list (string * N) :=
  match ls with
  | [] => []
  | l :: ls' =>
      match assignment l with
      | Some a => a :: assignments ls'
      | None => assignments ls'
      end
  end.

(** The region base addresses a memory map assigns: its constants named
    [..._base]. *)
Definition base_addresses (memoryMap : string) : list (string * N) :=
  filter (fun a => ends_with "_base" (fst a)) (assignments (lines memoryMap)).

Definition is_csr_spiflash_base (a : string * N) : bool :=
  String.eqb (fst a) "csr_spiflash_base".

Definition distinct (xs : list N) : bool := all_distinct N.eqb xs.

(** ** Running through the conditions *)

(** A test holds of both Booleans. *)
Definition for_both (f : bool -> bool) : bool := f true && f false.

(** ** Sample documents *)

Definition digital (id : string) (count bitSize : option N) : Block :=
  mkBlock id (Some "digital") None count bitSize.

(** [{}]: neither list is present. *)
Definition empty_document : DesignData := mkDesignData None None None.

(** [{ enabledBlocks: [], digitalBlocks: [{ id: "uart0", enabled: true }] }]. *)
Definition empty_list_document : DesignData :=
  mkDesignData (Some []) (Some [mkBlock "uart0" None (Some true) None None]) None.

(** [{ enabledBlocks: [{ id: "uart0", type: "digital" }] }]. *)
Definition uart_document : DesignData :=
  mkDesignData (Some [digital "uart0" None None]) None None.

(** [{ digitalBlocks: [{ id: "uart0", enabled: true }] }]. *)
Definition enabled_uart_document : DesignData :=
  mkDesignData None (Some [mkBlock "uart0" None (Some true) None None]) None.

(** [{ enabledBlocks: [{ id: "qspi", type: "digital" }] }]. *)
Definition qspi_document : DesignData :=
  mkDesignData (Some [digital "qspi" None None]) None None.

(** [{ enabledBlocks: [{ id: "qspi_gpio", type: "digital" }] }]: one block
    whose identifier holds the keywords [qspi] (hence [spi]) and [gpio]. *)
Definition qspi_gpio_document : DesignData :=
  mkDesignData (Some [digital "qspi_gpio" None None]) None None.

(** [{ enabledBlocks: [{ id: "gpio", type: "digital", count: 2 }] }]. *)
Definition gpio_count_two_document : DesignData :=
  mkDesignData (Some [digital "gpio" (Some 2%N) None]) None None.

(** [{ enabledBlocks: [{ id: "spi", type: "digital", count: 2 }] }]. *)
Definition spi_count_two_document : DesignData :=
  mkDesignData (Some [digital "spi" (Some 2%N) None]) None None.

(** [{ enabledBlocks: [{ id: "spi_a", type: "digital", count: 1 },
                       { id: "uart0", type: "digital" },
                       { id: "spi_b", type: "digital", count: 1 }] }]. *)
Definition two_spi_document : DesignData :=
  mkDesignData (Some [digital "spi_a" (Some 1%N) None;
                      digital "uart0" None None;
                      digital "spi_b" (Some 1%N) None]) None None.

(** [{ enabledBlocks: [{ id: "minerva", type: "digital" },
                       { id: "cv32e40p", type: "digital" }] }]. *)
Definition two_cpu_document : DesignData :=
  mkDesignData (Some [digital "minerva" None None; digital "cv32e40p" None None]) None None.

(** [{ enabledBlocks: [{ id: "cv32e40p_core", type: "digital" },
                       { id: "gpio_block", type: "digital", count: 2, bitSize: 4 }] }]. *)
Definition cv32e40p_gpio_document : DesignData :=
  mkDesignData (Some [digital "cv32e40p_core" None None;
                      digital "gpio_block" (Some 2%N) (Some 4%N)]) None None.


(** [{ enabledBlocks: [{ id: "gpio_a", type: "digital" },
                       { id: "gpio_b", type: "digital" }] }]. *)
Definition two_gpio_document : DesignData :=
  mkDesignData (Some [digital "gpio_a" None None; digital "gpio_b" None None]) None None.

(** * Beyond the sections: what the generator reads *)

From Stdlib Require DecimalNat DecimalN.

(** ** What a block contributes *)

(** The identifier holds a keyword of one of the three categories. *)
Definition classified (block : Block) : bool :=
  is_processor block || is_memory block || is_io block.

(** What the generator reads of a selected block: its identifier, [count || 1]
    and [bitSize || 8]. *)
Definition reading (block : Block) : string * N * N :=
  (id block, num_or (count block) 1, num_or (bitSize block) 8).

(** A block with the same reading and nothing else: enabled, with [count] and
    [bitSize] written out. *)
Definition normal (block : Block) : Block :=
  mkBlock (id block) None (Some true)
          (Some (num_or (count block) 1)) (Some (num_or (bitSize block) 8)).

(** The document of the second shape that lists the selected blocks of
    [designData], each in its normal form. *)
Definition normal_document (designData : DesignData) : DesignData :=
  mkDesignData None (Some (map normal (digitalBlocks designData))) None.

(** ** More sample documents *)

(** [{ enabledBlocks: [{ id: "uart0", type: "digital" },
                       { id: "gpio0", type: "digital" }] }] and the same blocks
    in the other order. *)
Definition uart_gpio_document : DesignData :=
  mkDesignData (Some [digital "uart0" None None; digital "gpio0" None None]) None None.

Definition gpio_uart_document : DesignData :=
  mkDesignData (Some [digital "gpio0" None None; digital "uart0" None None]) None None.

(** ** Reading a declaration *)

(** The text before the first occurrence of the character [c]. *)
Fixpoint until_char (c : ascii) (s : string) : string :=
  match s with
  | String a s' => if Ascii.eqb a c then EmptyString else String a (until_char c s')
  | EmptyString => EmptyString
  end.

(** The signature class of an interface declaration [<name>: Out(<class>(...))]:
    the text between [Out(] and the parenthesis that follows. *)
Definition signature_of (iface : string) : option string :=
  match after iface "Out(" with
  | Some rest => Some (until_char "(" rest)
  | None => None
  end.

(** The name an interface declaration gives, between its double quotes. *)
Definition declared_name (iface : string) : string :=
  until_char (ascii_of_nat 34) (drop 1 iface).

(** ** Reading an instantiation *)

(** The name that a statement [m.submodules.<name> = ...] binds. *)
Definition submodule_name (l : string) : string :=
  until_char " " (drop (String.length "m.submodules.") (lstrip l)).

(** The submodules an artifact adds, in order. *)
Definition submodules (text : string) : list string :=
  map submodule_name (filter adds_submodule (lines text)).

(** The name of the instance of a kind at an index: [gpio_0], [spi_1], ... *)
Definition instance_name (kind : string) (index : nat) : string :=
  kind ++ "_" ++ str_nat index.

(** ** The branches of the interface stage
    The interface stage tests [gpio], [uart], [spi] and [i2c] in this order
    and takes the first that the identifier holds (lines 105-122); [spi_first]
    is the third branch. *)

Definition uart_first (block : Block) : bool :=
  negb (includes (id block) "gpio") && includes (id block) "uart".

Definition i2c_first (block : Block) : bool :=
  negb (includes (id block) "gpio") && negb (includes (id block) "uart") &&
  negb (includes (id block) "spi") && includes (id block) "i2c".

(** The names that the interface dictionary gives, in order. *)
Definition interface_names (designData : DesignData) : list string :=
  map declared_name (interfaces designData).

(** A name of the kind: it begins with [<kind>_]. *)
Definition of_kind (kind name : string) : bool := startsWith name (kind ++ "_").

(** The names of the blocks that take one branch: every block starts again
    at index 0. *)
Definition restarting (kind : string) (branch : Block -> bool) (blocks : list Block) :
    list string :=
  concat (map (fun b => if branch b
                        then map (instance_name kind) (for_range (num_or (count b) 1))
                        else [])
              blocks).

(** ** Reading a pin count *)

(** The decimal numeral that a text begins with. *)
Fixpoint numeral (s : string) : string :=
  match s with
  | String c s' => if is_digit c then String c (numeral s') else EmptyString
  | EmptyString => EmptyString
  end.

(** The pin count that a declaration or an instantiation gives: the number
    after [pin_count=]. *)
Definition pin_count (l : string) : option N :=
  match after l "pin_count=" with
  | Some r => option_map N.of_uint (NilZero.uint_of_string (numeral r))
  | None => None
  end.

(** The declarations of a kind, by the name they give. *)
Definition declarations_of (kind : string) (designData : DesignData) : list string :=
  filter (fun iface => of_kind kind (declared_name iface)) (interfaces designData).

(** ** The interface stage with a running index
    The declarations of the IO blocks when the SPI index is carried from block
    to block instead of being counted anew in [interfaces]: a block that takes
    the SPI branch moves it on by its [count || 1]. *)
Fixpoint declarations_from (spiIndex : nat) (blocks : list Block) : list string :=
  match blocks with
  | [] => []
  | block :: rest =>
      (block_interfaces spiIndex block ++
       declarations_from
         (if spi_first block
          then spiIndex + N.to_nat (num_or (count block) 1)
          else spiIndex)
         rest)%list
  end.

(** [{ enabledBlocks: [{ id: "minerva", type: "digital" },
                       { id: "cv32e40p", type: "digital" },
                       { id: "uart0", type: "digital" }] }] and the same
    document without its second processor. *)
Definition two_cpu_uart_document : DesignData :=
  mkDesignData (Some [digital "minerva" None None; digital "cv32e40p" None None;
                      digital "uart0" None None]) None None.

Definition minerva_uart_document : DesignData :=
  mkDesignData (Some [digital "minerva" None None; digital "uart0" None None]) None None.

(** * The generator in a store
    The document that [generateDesignPy] receives is an object that its caller
    holds, with arrays of block objects that the caller holds as well.  Here
    the function runs in a store of objects: what it reads of the document it
    reads from the store, and the set and the arrays that it fills, [imports],
    [ioImports], [platformImports] and [interfaces], are objects that it
    creates there and writes to.  The arrays that [filter] returns are never
    written to, neither are the strings that [+=] builds: they are values. *)

(** ** Objects and the store *)

Definition loc : Type := nat.

Inductive Obj : Type :=
  | Document (enabledBlocks directDigitalBlocks : option loc) (config : option string)
  | BlockArray (elements : list loc)
  | BlockObject (block : Block)
  | StringArray (elements : list string)
  | StringSet (elements : list string).

Definition Store : Type := list Obj.

(** A computation reads and writes the store and returns, or throws. *)
Definition JS (A : Type) : Type := Store -> option (A * Store).

Definition ret {A : Type} (x : A) : JS A := fun s => Some (x, s).

Definition throw {A : Type} : JS A := fun _ => None.

Definition bind {A B : Type} (m : JS A) (k : A -> JS B) : JS B :=
  fun s =>
    match m s with
    | Some (x, s') => k x s'
    | None => None
    end.

Declare Scope js_scope.
Delimit Scope js_scope with js.
Notation "x <- m ;; k" := (bind m (fun x => k))
  (at level 61, m at next level, right associativity) : js_scope.
Notation "m ;; k" := (bind m (fun _ => k))
  (at level 61, right associativity) : js_scope.

Local Open Scope js_scope.

(** A new object takes the next free location. *)
Definition alloc (o : Obj) : JS loc := fun s => Some (List.length s, (s ++ [o])%list).

Definition read (l : loc) : JS Obj :=
  fun s =>
    match nth_error s l with
    | Some o => Some (o, s)
    | None => None
    end.

Fixpoint update (l : loc) (o : Obj) (s : Store) : Store :=
  match s with
  | [] => []
  | x :: s' =>
      match l with
      | 0 => o :: s'
      | S l' => x :: update l' o s'
      end
  end.

Definition write (l : loc) (o : Obj) : JS unit :=
  fun s => if Nat.ltb l (List.length s) then Some (tt, update l o s) else None.

(** Reading an object as what the code uses it for; anything else is a
    [TypeError]. *)
Definition read_document (l : loc) : JS (option loc * option loc * option string) :=
  o <- read l ;;
  match o with
  | Document enabledBlocks directDigitalBlocks config =>
      ret (enabledBlocks, directDigitalBlocks, config)
  | _ => throw
  end.

Definition read_elements (l : loc) : JS (list loc) :=
  o <- read l ;;
  match o with
  | BlockArray elements => ret elements
  | _ => throw
  end.

Definition read_block (l : loc) : JS Block :=
  o <- read l ;;
  match o with
  | BlockObject block => ret block
  | _ => throw
  end.

Definition read_strings (l : loc) : JS (list string) :=
  o <- read l ;;
  match o with
  | StringArray elements => ret elements
  | _ => throw
  end.

Definition read_set (l : loc) : JS (list string) :=
  o <- read l ;;
  match o with
  | StringSet elements => ret elements
  | _ => throw
  end.

(** [arr.push(x)] and [set.add(x)] on an object of the store. *)
Definition push_to (arr : loc) (x : string) : JS unit :=
  elements <- read_strings arr ;;
  write arr (StringArray (push elements x)).

Definition add_to (set : loc) (x : string) : JS unit :=
  elements <- read_set set ;;
  write set (StringSet (Set_add elements x)).

(** [if (c) statement]. *)
Definition when (c : bool) (statement : JS unit) : JS unit :=
  if c then statement else ret tt.

(** [arr.filter(block => P(block))], [arr.some(b => b.id.includes(kw))] and
    [cpu?.id.includes(kw)] on block references: the callback reads the block
    from the store.  [some] stops at the first block that passes. *)
Fixpoint filter_blocks (P : Block -> bool) (arr : list loc) : JS (list loc) :=
  match arr with
  | [] => ret []
  | l :: arr' =>
      block <- read_block l ;;
      rest <- filter_blocks P arr' ;;
      ret (if P block then l :: rest else rest)
  end.

Fixpoint some_block (arr : list loc) (kw : string) : JS bool :=
  match arr with
  | [] => ret false
  | l :: arr' =>
      b <- read_block l ;;
      if includes (id b) kw then ret true else some_block arr' kw
  end.

Definition cpu_includes (cpu : option loc) (kw : string) : JS bool :=
  match cpu with
  | Some l => c <- read_block l ;; ret (includes (id c) kw)
  | None => ret false
  end.

(** [for (let i = 0; i < count; i++) statement]. *)
Fixpoint for_each (statement : nat -> JS unit) (range : list nat) : JS unit :=
  match range with
  | [] => ret tt
  | i :: range' => statement i ;; for_each statement range'
  end.

(** [arr.forEach(block => statement)]. *)
Fixpoint forEach_block (statement : loc -> JS unit) (arr : list loc) : JS unit :=
  match arr with
  | [] => ret tt
  | block :: arr' => statement block ;; forEach_block statement arr'
  end.

(** [arr.forEach((block, index) => ...)] where the callback assigns to
    variables of the function, threaded as [st]. *)
Fixpoint forEach_assigning {St : Type} (callback : St -> loc -> nat -> JS St)
    (arr : list loc) (index : nat) (st : St) : JS St :=
  match arr with
  | [] => ret st
  | block :: arr' =>
      st' <- callback st block index ;;
      forEach_assigning callback arr' (S index) st'
  end.

(** ** The function, statement by statement *)

(** Lines 34-85. *)
Definition run_imports (memory io : list loc) (cpu : option loc) : JS loc :=
  imports <- alloc (StringSet (new_Set [
    "from pathlib import Path";
    EmptyString;
    "from amaranth import Module";
    "from amaranth.lib import wiring";
    "from amaranth.lib.wiring import Out, flipped, connect";
    EmptyString;
    "from amaranth_soc import csr, wishbone";
    "from amaranth_soc.csr.wishbone import WishboneCSRBridge";
    EmptyString;
    "from chipflow_digital_ip.base import SoCID"
  ])) ;;
  (* Add memory imports *)
  c <- some_block memory "qspi" ;;
  when c (add_to imports "from chipflow_digital_ip.memory import QSPIFlash") ;;
  c <- some_block memory "hyperram" ;;
  when c (add_to imports "from chipflow_digital_ip.memory import HyperRAM") ;;
  c <- some_block memory "sram" ;;
  when (c || Nat.eqb (List.length memory) 0)
       (add_to imports "from amaranth_soc.wishbone.sram import WishboneSRAM") ;;
  (* Add IO imports *)
  ioImports <- alloc (StringArray []) ;;
  c <- some_block io "gpio" ;;
  when c (push_to ioImports "GPIOPeripheral") ;;
  c <- some_block io "uart" ;;
  when c (push_to ioImports "UARTPeripheral") ;;
  c <- some_block io "spi" ;;
  when c (push_to ioImports "SPIPeripheral") ;;
  c <- some_block io "i2c" ;;
  when c (push_to ioImports "I2CPeripheral") ;;
  names <- read_strings ioImports ;;
  when (Nat.ltb 0 (List.length names))
       (add_to imports ("from chipflow_digital_ip.io import " ++ join ", " names)) ;;
  (* Add processor imports *)
  c <- cpu_includes cpu "cv32e40p" ;;
  (if c
   then add_to imports "from chipflow_digital_ip.processors import CV32E40P, OBIDebugModule"
   else
     c <- cpu_includes cpu "minerva" ;;
     when c (add_to imports "from minerva.core import Minerva")) ;;
  (* Add platform imports *)
  platformImports <- alloc (StringArray ["attach_data"; "SoftwareBuild"]) ;;
  c <- some_block io "gpio" ;;
  when c (push_to platformImports "GPIOSignature") ;;
  c <- some_block io "uart" ;;
  when c (push_to platformImports "UARTSignature") ;;
  c <- some_block io "spi" ;;
  when c (push_to platformImports "SPISignature") ;;
  c <- some_block io "i2c" ;;
  when c (push_to platformImports "I2CSignature") ;;
  c <- some_block memory "qspi" ;;
  when c (push_to platformImports "QSPIFlashSignature") ;;
  c <- cpu_includes cpu "cv32e40p" ;;
  when c (push_to platformImports "JTAGSignature") ;;
  names <- read_strings platformImports ;;
  add_to imports ("from chipflow_lib.platforms import " ++ join ", " names) ;;
  ret imports.

(** The callback of [io.forEach], lines 101-123. *)
Definition run_add_io_interfaces (interfaces : loc) (block : loc) : JS unit :=
  b <- read_block block ;;
  let count := num_or (count b) 1 in
  let bitSize :=
    opt_or (bitSize b) (if includes (id b) "gpio" then Some 8%N else None) in
  if includes (id b) "gpio" then
    for_each (fun i => push_to interfaces (gpio_interface i bitSize)) (for_range count)
  else if includes (id b) "uart" then
    for_each (fun i => push_to interfaces (uart_interface i)) (for_range count)
  else if includes (id b) "spi" then
    declared <- read_strings interfaces ;;
    let startIndex := List.length (filter (fun iface => includes iface "spi_") declared) in
    for_each (fun i => push_to interfaces (spi_interface (startIndex + i))) (for_range count)
  else if includes (id b) "i2c" then
    for_each (fun i => push_to interfaces (i2c_interface i)) (for_range count)
  else ret tt.

(** Lines 88-123. *)
Definition run_interfaces (memory io : list loc) (cpu : option loc) : JS loc :=
  interfaces <- alloc (StringArray []) ;;
  c <- some_block memory "qspi" ;;
  when c (push_to interfaces flash_interface) ;;
  c <- cpu_includes cpu "cv32e40p" ;;
  when c (push_to interfaces cpu_jtag_interface) ;;
  forEach_block (run_add_io_interfaces interfaces) io ;;
  ret interfaces.

(** Lines 126-156. *)
Definition run_memoryMap (memory io : list loc) : JS string :=
  let memoryMap := unlines memoryMap_regions in
  c <- some_block memory "qspi" ;;
  let memoryMap := if c then memoryMap ++ nl ++ csr_spiflash_base else memoryMap in
  let memoryMap := memoryMap ++ fragment memoryMap_csr in
  c <- some_block io "spi" ;;
  let memoryMap := if c then memoryMap ++ nl ++ csr_spi_base else memoryMap in
  c <- some_block io "i2c" ;;
  let memoryMap := if c then memoryMap ++ nl ++ csr_i2c_base else memoryMap in
  ret (memoryMap ++ fragment memoryMap_sizes).

(** Lines 159-187. *)
Definition run_cpuCode (cpu : option loc) : JS string :=
  let cpuCode := EmptyString in
  c <- cpu_includes cpu "cv32e40p" ;;
  if c then ret cpuCode_cv32e40p
  else
    c <- cpu_includes cpu "minerva" ;;
    if c then ret cpuCode_minerva else ret cpuCode.

(** Lines 190-209. *)
Definition run_memoryCode (memory : list loc) : JS string :=
  let memoryCode := EmptyString in
  c <- some_block memory "qspi" ;;
  let memoryCode := if c then memoryCode ++ memoryCode_qspi else memoryCode in
  ret (memoryCode ++ memoryCode_sram).

(** Lines 212-258. *)
Definition run_ioCode (io : list loc) : JS string :=
  let ioCode := EmptyString in
  (* GPIO *)
  gpioBlocks <- filter_blocks (fun b => includes (id b) "gpio") io ;;
  ioCode <- forEach_assigning
              (fun ioCode block index =>
                 b <- read_block block ;;
                 let bitSize := num_or (bitSize b) 8 in
                 ret (ioCode ++ gpio_fragment index bitSize))
              gpioBlocks 0 ioCode ;;
  (* UART *)
  uartBlocks <- filter_blocks (fun b => includes (id b) "uart") io ;;
  ioCode <- forEach_assigning
              (fun ioCode (_ : loc) index => ret (ioCode ++ uart_fragment index))
              uartBlocks 0 ioCode ;;
  (* SPI *)
  spiBlocks <- filter_blocks (fun b => includes (id b) "spi") io ;;
  let spiIndex := 0 in
  st <- forEach_assigning
          (fun st block index => b <- read_block block ;; ret (add_spi_block st b index))
          spiBlocks 0 (ioCode, spiIndex) ;;
  let ioCode := fst st in
  (* I2C *)
  i2cBlocks <- filter_blocks (fun b => includes (id b) "i2c") io ;;
  forEach_assigning
    (fun ioCode (_ : loc) index => ret (ioCode ++ i2c_fragment index))
    i2cBlocks 0 ioCode.

(** The function: [designData] is the location of the document. *)
Definition run_generateDesignPy (designData : loc) : JS string :=
  fields <- read_document designData ;;
  let '(enabledBlocks, directDigitalBlocks, config) := fields in
  (* enabledBlocks || directDigitalBlocks || [] *)
  allBlocks <- match enabledBlocks with
               | Some l => read_elements l
               | None =>
                   match directDigitalBlocks with
                   | Some l => read_elements l
                   | None => ret []
                   end
               end ;;
  digitalBlocks <- match enabledBlocks with
                   | Some _ => filter_blocks type_is_digital allBlocks
                   | None => filter_blocks enabled_truthy allBlocks
                   end ;;
  processors <- filter_blocks is_processor digitalBlocks ;;
  let cpu := hd_error processors in
  memory <- filter_blocks is_memory digitalBlocks ;;
  io <- filter_blocks is_io digitalBlocks ;;
  (* [includes] on arrays of objects compares references *)
  let other :=
    filter (fun block =>
              negb (existsb (Nat.eqb block) processors) &&
              negb (existsb (Nat.eqb block) memory) &&
              negb (existsb (Nat.eqb block) io))
           digitalBlocks in
  imports <- run_imports memory io cpu ;;
  interfaces <- run_interfaces memory io cpu ;;
  memoryMap <- run_memoryMap memory io ;;
  cpuCode <- run_cpuCode cpu ;;
  memoryCode <- run_memoryCode memory ;;
  ioCode <- run_ioCode io ;;
  (* the template literal reads the set and the array it interpolates *)
  imported <- read_set imports ;;
  declared <- read_strings interfaces ;;
  qspi <- some_block memory "qspi" ;;
  ret (unlines (
    [ join nl imported ] ++
    class_opening ++
    [ join ("," ++ nl)%string
           (map (fun iface => "            " ++ iface)%string declared) ] ++
    class_closing ++
    [ memoryMap ] ++
    elaborate_opening ++
    [ cpuCode;
      memoryCode;
      ioCode ] ++
    soc_id_and_bridge ++
    [ (attach_comment ++ (if qspi then nl ++ attach_flash else EmptyString))%string ] ++
    entry_point
  )%list).

(** ** Reading a document back from the store *)

Definition block_at (s : Store) (l : loc) : option Block :=
  match nth_error s l with
  | Some (BlockObject block) => Some block
  | _ => None
  end.

Fixpoint blocks_at (s : Store) (arr : list loc) : option (list Block) :=
  match arr with
  | [] => Some []
  | l :: arr' =>
      match block_at s l, blocks_at s arr' with
      | Some block, Some rest => Some (block :: rest)
      | _, _ => None
      end
  end.

(** A list property of the document: missing, or an array of blocks. *)
Definition array_at (s : Store) (property : option loc) : option (option (list Block)) :=
  match property with
  | None => Some None
  | Some l =>
      match nth_error s l with
      | Some (BlockArray elements) => option_map Some (blocks_at s elements)
      | _ => None
      end
  end.

(** The document that the store holds at [l], if it holds one. *)
Definition document_at (s : Store) (l : loc) : option DesignData :=
  match nth_error s l with
  | Some (Document enabledBlocks directDigitalBlocks config) =>
      match array_at s enabledBlocks, array_at s directDigitalBlocks with
      | Some e, Some d => Some (mkDesignData e d config)
      | _, _ => None
      end
  | _ => None
  end.

(** A store with the document
    [{ enabledBlocks: [{ id: "uart0", type: "digital" }] }] at location 0. *)
Definition uart_store : Store :=
  [ Document (Some 1) None None;
    BlockArray [2];
    BlockObject (digital "uart0" None None) ].

(** The same document at location 3 of a store that holds other objects. *)
Definition uart_store_reversed : Store :=
  [ BlockObject (digital "uart0" None None);
    StringArray ["from pathlib import Path"];
    BlockArray [0];
    Document (Some 2) None None ].

(** A store that holds a given document at location 0: the document, its two
    arrays, then the blocks of [enabledBlocks] and those of [digitalBlocks]. *)
Definition store_of (designData : DesignData) : Store :=
  let enabled := match enabledBlocks designData with Some bs => bs | None => [] end in
  let direct := match directDigitalBlocks designData with Some bs => bs | None => [] end in
  ([ Document (option_map (fun _ => 1) (enabledBlocks designData))
              (option_map (fun _ => 2) (directDigitalBlocks designData))
              (config designData);
     BlockArray (seq 3 (List.length enabled));
     BlockArray (seq (3 + List.length enabled) (List.length direct)) ] ++
   map BlockObject enabled ++ map BlockObject direct)%list.
(** * Properties *)

(** ** Strings *)

Lemma append_nil_r (s : string) : s ++ EmptyString = s.
Proof. induction s as [|c s IH]; simpl; [reflexivity | now rewrite IH]. Qed.

Lemma append_assoc (a b c : string) : (a ++ b) ++ c = a ++ b ++ c.
Proof. induction a as [|x a IH]; simpl; [reflexivity | now rewrite IH]. Qed.

Lemma has_char_app (c : ascii) (a b : string) :
  has_char c (a ++ b) = has_char c a || has_char c b.
Proof.
  induction a as [|x a IH]; [reflexivity|].
  simpl. now rewrite IH, orb_assoc.
Qed.

Lemma startsWith_has_char (X : string) :
  forall l c, startsWith l X = true -> has_char c X = true -> has_char c l = true.
Proof.
  induction X as [|a X IH]; intros l c Hs Hc; [discriminate|].
  destruct l as [|b l]; [discriminate|].
  cbn [startsWith] in Hs. apply andb_true_iff in Hs as [Hab Hs].
  apply Ascii.eqb_eq in Hab. subst b.
  cbn [has_char] in *. apply orb_true_iff in Hc as [Hc|Hc].
  - now rewrite Hc.
  - rewrite (IH l c Hs Hc). apply orb_true_r.
Qed.

Lemma includes_has_char (l X : string) (c : ascii) :
  includes l X = true -> has_char c X = true -> has_char c l = true.
Proof.
  intros Hi Hc. induction l as [|b l IH].
  - cbn [includes] in Hi. rewrite orb_false_r in Hi.
    exact (startsWith_has_char X _ c Hi Hc).
  - cbn [includes] in Hi. apply orb_true_iff in Hi as [Hi|Hi].
    + exact (startsWith_has_char X _ c Hi Hc).
    + cbn [has_char]. rewrite (IH Hi). apply orb_true_r.
Qed.

Lemma has_char_list_ascii (c : ascii) (X : string) :
  In c (list_ascii_of_string X) -> has_char c X = true.
Proof.
  induction X as [|a X IH]; [contradiction|].
  cbn. intros [-> | H].
  - now rewrite Ascii.eqb_refl.
  - rewrite (IH H). apply orb_true_r.
Qed.

(** A name with a character that a line does not have is not mentioned by that
    line. *)
Lemma absent_char_not_included (X l l0 : string) :
  absent_char X l0 = true ->
  (forall c, is_digit c = false -> has_char c l = has_char c l0) ->
  includes l X = false.
Proof.
  intros Ha Hl. apply existsb_exists in Ha as [c [Hc Hcond]].
  apply andb_true_iff in Hcond as [Hd H0].
  apply negb_true_iff in Hd, H0.
  apply not_true_iff_false. intros Hi.
  pose proof (includes_has_char l X c Hi (has_char_list_ascii c X Hc)) as H.
  rewrite (Hl c Hd), H0 in H. discriminate.
Qed.

Lemma includes_qspi_spi (s : string) : includes s "qspi" = true -> includes s "spi" = true.
Proof.
  induction s as [|c s IH]; [discriminate|].
  cbn [includes]. intros H. apply orb_true_iff in H as [H|H].
  - apply orb_true_iff. right.
    cbn [startsWith] in H. apply andb_true_iff in H as [_ H].
    destruct s as [|c' s]; [discriminate|].
    cbn [includes]. apply orb_true_iff. left. exact H.
  - apply orb_true_iff. right. now apply IH.
Qed.

(** ** Decimal numerals *)

Lemma has_char_uint (c : ascii) (u : Decimal.uint) :
  is_digit c = false -> has_char c (NilEmpty.string_of_uint u) = false.
Proof.
  unfold is_digit. cbn [has_char]. intros H.
  repeat (apply orb_false_iff in H; destruct H as [? H]).
  induction u; cbn [NilEmpty.string_of_uint has_char]; rewrite ?IHu;
    try reflexivity; apply orb_false_iff; split; auto.
Qed.

Lemma has_char_uint0 (c : ascii) (u : Decimal.uint) :
  is_digit c = false -> has_char c (NilZero.string_of_uint u) = false.
Proof.
  intros H. destruct u; try (apply (has_char_uint c _ H)).
  unfold is_digit in H. cbn [has_char] in H.
  apply orb_false_iff in H as [H _].
  cbn [NilZero.string_of_uint has_char]. now rewrite H.
Qed.

Lemma has_char_str_nat (c : ascii) (n : nat) :
  is_digit c = false -> has_char c (str_nat n) = false.
Proof. apply has_char_uint0. Qed.

Lemma has_char_str_N (c : ascii) (n : N) :
  is_digit c = false -> has_char c (str_N n) = false.
Proof. apply has_char_uint0. Qed.

Create HintDb templates discriminated.
#[local] Hint Unfold gpio_interface uart_interface spi_interface i2c_interface : templates.

(** Closes [has_char c s = false] for [s] assembled from literals and decimal
    numerals, when [c] is not a digit. *)
Ltac no_char :=
  unfold one_line; autounfold with templates;
  repeat rewrite has_char_app;
  rewrite ?has_char_str_nat, ?has_char_str_N by reflexivity;
  reflexivity.

(** Closes [forall c, is_digit c = false -> has_char c l = has_char c l0] when
    [l] and [l0] are one template at two indices: digits apart, they have the
    same characters. *)
Ltac same_chars :=
  intros c Hc; repeat rewrite has_char_app;
  rewrite ?has_char_str_nat, ?has_char_str_N by exact Hc; reflexivity.

(** ** Lines *)

Lemma lines_not_nil (s : string) : lines s <> [].
Proof.
  destruct s as [|c s]; simpl; [discriminate|].
  destruct (Ascii.eqb c LF); [discriminate|].
  destruct (lines s); discriminate.
Qed.

(** Splitting at a line feed splits the list of lines. *)
Lemma lines_app_nl (a b : string) : lines (a ++ nl ++ b) = (lines a ++ lines b)%list.
Proof.
  induction a as [|c a IH]; [reflexivity|].
  change (String c a ++ nl ++ b) with (String c (a ++ nl ++ b)).
  cbn [lines]. rewrite IH.
  destruct (Ascii.eqb c LF); [reflexivity|].
  destruct (lines a) as [|l ls] eqn:E; [now apply lines_not_nil in E|reflexivity].
Qed.

Lemma lines_nl_app (b : string) : lines (nl ++ b) = EmptyString :: lines b.
Proof. reflexivity. Qed.

Lemma unlines_cons (x y : string) (ys : list string) :
  unlines (x :: y :: ys) = x ++ nl ++ unlines (y :: ys).
Proof. reflexivity. Qed.

Lemma lines_unlines (ls : list string) :
  ls <> [] -> lines (unlines ls) = flat_map lines ls.
Proof.
  induction ls as [|x ls IH]; [congruence|]. intros _.
  destruct ls as [|y ls].
  - cbn [flat_map]. now rewrite app_nil_r.
  - rewrite unlines_cons, lines_app_nl, IH by discriminate. reflexivity.
Qed.

(** A string without a line feed is a single line. *)
Lemma lines_single (s : string) : has_char LF s = false -> lines s = [s].
Proof.
  induction s as [|c s IH]; [reflexivity|].
  simpl. intros H. apply orb_false_iff in H as [Hc Hs].
  rewrite Hc, IH by assumption. reflexivity.
Qed.

Lemma flat_map_lines_single (ls : list string) :
  Forall (fun l => has_char LF l = false) ls -> flat_map lines ls = ls.
Proof.
  induction 1 as [|l ls Hl _ IH]; [reflexivity|].
  cbn [flat_map]. now rewrite lines_single, IH.
Qed.

Lemma forallb_one_line (ls : list string) :
  forallb (fun l => negb (has_char LF l)) ls = true -> Forall one_line ls.
Proof.
  intros H. apply Forall_forall. intros l Hl.
  rewrite forallb_forall in H. apply H in Hl.
  unfold one_line. now destruct (has_char LF l).
Qed.

Lemma lines_fragment (body : list string) :
  body <> [] -> Forall one_line body -> lines (fragment body) = EmptyString :: body.
Proof.
  intros Hne Hall. unfold fragment.
  rewrite lines_unlines by discriminate.
  cbn [flat_map lines app]. now rewrite flat_map_lines_single.
Qed.

Lemma lines_fragments (bodies : list (list string)) :
  Forall (fun body => body <> [] /\ Forall one_line body) bodies ->
  lines (concat_all (map fragment bodies)) = EmptyString :: concat bodies.
Proof.
  induction 1 as [|body bodies [Hne Hall] Hrest IH]; [reflexivity|].
  cbn [map concat].
  change (concat_all (fragment body :: map fragment bodies))
    with (fragment body ++ concat_all (map fragment bodies)).
  destruct Hrest as [|body' bodies [Hne' _] _].
  - cbn. rewrite append_nil_r, app_nil_r. now apply lines_fragment.
  - assert (exists rest, concat_all (map fragment (body' :: bodies)) = nl ++ rest)
      as [rest Hrest].
    { destruct body' as [|l ls]; [congruence|]. eexists. reflexivity. }
    rewrite Hrest in *. rewrite lines_nl_app in IH. injection IH as IH.
    rewrite lines_app_nl, lines_fragment, IH by assumption. reflexivity.
Qed.

(** ** Lists *)

Lemma fold_left_push {A : Type} (f : A -> string) (xs : list A) :
  forall acc, fold_left (fun acc x => push acc (f x)) xs acc = (acc ++ map f xs)%list.
Proof.
  induction xs as [|x xs IH]; intros acc; cbn.
  - now rewrite app_nil_r.
  - rewrite IH. unfold push. now rewrite <- app_assoc.
Qed.

Lemma concat_all_app (xs ys : list string) :
  concat_all (xs ++ ys) = concat_all xs ++ concat_all ys.
Proof.
  unfold concat_all.
  induction xs as [|x xs IH]; [reflexivity|].
  cbn [app fold_right]. now rewrite IH, append_assoc.
Qed.

Lemma concat_map_nil {A : Type} (xs : list A) :
  concat (map (fun _ : A => @nil string) xs) = [].
Proof. induction xs; [reflexivity | assumption]. Qed.

Lemma concat_map_one {A : Type} (h : A -> string) (xs : list A) :
  concat (map (fun x => [h x]) xs) = map h xs.
Proof. induction xs as [|x xs IH]; [reflexivity|]. cbn. now rewrite IH. Qed.

Lemma list_string_eqb_eq (xs ys : list string) :
  forallb (fun p : string * string => String.eqb (fst p) (snd p)) (combine xs ys) &&
  Nat.eqb (List.length xs) (List.length ys) = true -> xs = ys.
Proof.
  revert ys. induction xs as [|x xs IH]; intros [|y ys]; cbn; try discriminate; auto.
  intros H. apply andb_true_iff in H as [H Hl].
  apply andb_true_iff in H as [Hx H].
  apply String.eqb_eq in Hx. subst y. f_equal. apply IH. now rewrite H, Hl.
Qed.

Lemma length_not_nil (ls : list string) :
  negb (Nat.eqb (List.length ls) 0) = true -> ls <> [].
Proof. destruct ls; [discriminate | discriminate]. Qed.

Lemma forallb_In {A : Type} (f : A -> bool) (xs : list A) (x : A) :
  forallb f xs = true -> In x xs -> f x = true.
Proof. intros H. now apply forallb_forall. Qed.

Lemma In_existsb (x : string) (ls : list string) :
  existsb (String.eqb x) ls = true -> In x ls.
Proof.
  intros H. apply existsb_exists in H as [y [Hy Hxy]].
  apply String.eqb_eq in Hxy. now subst y.
Qed.

Section Distinct.

Variable A : Type.
Variable eqb : A -> A -> bool.
Hypothesis eqb_eq : forall x y, eqb x y = true <-> x = y.

Lemma all_distinct_NoDup (xs : list A) : all_distinct eqb xs = true <-> NoDup xs.
Proof.
  induction xs as [|x xs IH]; cbn.
  - split; [constructor | reflexivity].
  - rewrite andb_true_iff, negb_true_iff, IH. split.
    + intros [Hx Hxs]. constructor; [|assumption].
      intros Hin. apply not_true_iff_false in Hx. apply Hx.
      apply existsb_exists. exists x. split; [assumption | now apply eqb_eq].
    + intros H. inversion H as [|? ? Hx Hxs]; subst. split; [|assumption].
      apply not_true_iff_false. intros He. apply existsb_exists in He as [y [Hy Hxy]].
      apply eqb_eq in Hxy. now subst y.
Qed.

End Distinct.

Lemma no_duplicate_NoDup (xs : list string) : no_duplicate xs = true <-> NoDup xs.
Proof. apply all_distinct_NoDup, String.eqb_eq. Qed.

Lemma distinct_NoDup (xs : list N) : distinct xs = true <-> NoDup xs.
Proof. apply all_distinct_NoDup, N.eqb_eq. Qed.

Lemma indexed_from_length {A : Type} (arr : list A) :
  forall k, List.length (indexed_from k arr) = List.length arr.
Proof. induction arr as [|x arr IH]; intros k; cbn; [reflexivity | now rewrite IH]. Qed.

Lemma indexed_from_In {A : Type} (arr : list A) :
  forall n k x, In (k, x) (indexed_from n arr) -> In x arr.
Proof.
  induction arr as [|y arr IH]; intros n k x; [contradiction|].
  cbn. intros [H | H]; [left; congruence | right; exact (IH _ _ _ H)].
Qed.

Lemma map_seq_offset {A : Type} (f : nat -> A) (k n : nat) :
  forall s, map (fun i => f (k + i)) (seq s n) = map f (seq (k + s) n).
Proof.
  induction n as [|n IH]; intros s; [reflexivity|].
  cbn [seq map]. rewrite IH. now rewrite Nat.add_succ_r.
Qed.

(** Filtering with a test [P] that a list or a map never, or always, passes. *)
Section Filter.

Variable P : string -> bool.

Lemma filter_none (ls : list string) :
  forallb (fun l => negb (P l)) ls = true -> filter P ls = [].
Proof.
  induction ls as [|l ls IH]; [reflexivity|].
  cbn. intros H. apply andb_true_iff in H as [Hl Hls].
  apply negb_true_iff in Hl. rewrite Hl. now apply IH.
Qed.

Lemma filter_concat_map {A : Type} (f g : A -> list string)
    (xs : list A) :
  (forall x, filter P (f x) = g x) ->
  filter P (concat (map f xs)) = concat (map g xs).
Proof.
  intros H. induction xs as [|x xs IH]; [reflexivity|].
  cbn [map concat]. now rewrite filter_app, H, IH.
Qed.

Lemma filter_map_none {A : Type} (f : A -> string) (xs : list A) :
  (forall x, P (f x) = false) -> filter P (map f xs) = [].
Proof.
  intros H. induction xs as [|x xs IH]; [reflexivity|]. cbn. now rewrite H.
Qed.

Lemma filter_map_all {A : Type} (f : A -> string) (xs : list A) :
  (forall x, P (f x) = true) -> filter P (map f xs) = map f xs.
Proof.
  intros H. induction xs as [|x xs IH]; [reflexivity|]. cbn. now rewrite H, IH.
Qed.

End Filter.

(** ** Running through the conditions *)

(** The conditions the generator tests are finitely many; a statement about a
    section that depends on them alone is settled by running through them. *)
Lemma for_both_spec (f : bool -> bool) : for_both f = true -> forall b, f b = true.
Proof.
  unfold for_both. intros H b. apply andb_true_iff in H. now destruct b.
Qed.

Ltac gen_flags memory io cpu :=
  generalize (some_id memory "qspi"), (some_id memory "hyperram"),
             (some_id memory "sram" || Nat.eqb (List.length memory) 0),
             (some_id io "gpio"), (some_id io "uart"), (some_id io "spi"), (some_id io "i2c"),
             (cpu_id_includes cpu "cv32e40p"), (cpu_id_includes cpu "minerva").

(** Closes [forall b1 ... bn : bool, f b1 ... bn = true] by evaluation. *)
Ltac all_flags :=
  intros;
  repeat match goal with
         | b : bool |- _ = true =>
             revert b;
             match goal with
             | |- forall b', @?f b' = true => apply (for_both_spec f)
             end
         end;
  vm_compute; reflexivity.

(** ** Block selection and categories *)

Lemma digitalBlocks_enabledBlocks (eb : list Block) (db : option (list Block))
    (cfg : option string) :
  digitalBlocks (mkDesignData (Some eb) db cfg) = filter type_is_digital eb.
Proof. reflexivity. Qed.

Lemma digitalBlocks_directDigitalBlocks (db : list Block) (cfg : option string) :
  digitalBlocks (mkDesignData None (Some db) cfg) = filter enabled_truthy db.
Proof. reflexivity. Qed.

Lemma digitalBlocks_neither (cfg : option string) :
  digitalBlocks (mkDesignData None None cfg) = [].
Proof. reflexivity. Qed.

Lemma allBlocks_nil_digitalBlocks (d : DesignData) : allBlocks d = [] -> digitalBlocks d = [].
Proof. unfold digitalBlocks. intros ->. now destruct (enabledBlocks d). Qed.

(** The artifact is a function of the selected blocks alone. *)
Lemma generateDesignPy_selected (d1 d2 : DesignData) :
  digitalBlocks d1 = digitalBlocks d2 -> generateDesignPy d1 = generateDesignPy d2.
Proof.
  intros H.
  unfold generateDesignPy, imports, interfaces, memoryMap, cpuCode, memoryCode, ioCode,
    cpu, processors, memory, io.
  now rewrite H.
Qed.

Lemma cpu_of_processors (d : DesignData) (p : Block) (rest : list Block) :
  processors d = p :: rest -> cpu d = Some p /\ is_processor p = true.
Proof.
  intros H. split.
  - unfold cpu. now rewrite H.
  - assert (Hin : In p (processors d)) by (rewrite H; now left).
    unfold processors in Hin. now apply filter_In in Hin.
Qed.

Lemma some_id_In (arr : list Block) (kw : string) (b : Block) :
  In b arr -> includes (id b) kw = true -> some_id arr kw = true.
Proof.
  intros Hin Hkw. apply existsb_exists. now exists b.
Qed.

Lemma filter_some_id (io : list Block) (kw : string) (b : Block) :
  In b (filter (fun b => includes (id b) kw) io) -> some_id io kw = true.
Proof.
  intros H. apply filter_In in H as [Hin Hkw]. exact (some_id_In _ _ _ Hin Hkw).
Qed.

Lemma num_or_one_pos (v : option N) : (0 < N.to_nat (num_or v 1))%nat.
Proof.
  unfold num_or. destruct v as [n|]; [|cbn; lia].
  destruct (N.eqb_spec n 0); [cbn; lia | lia].
Qed.

Lemma spi_instances_pos (blocks : list Block) (b : Block) :
  In b blocks -> (0 < spi_instances blocks)%nat.
Proof.
  unfold spi_instances. induction blocks as [|b' blocks IH]; [contradiction|].
  cbn [map list_sum fold_right]. intros _.
  pose proof (num_or_one_pos (count b')). unfold list_sum. lia.
Qed.

Lemma Block_eqb_eq (a b : Block) : Block_eqb a b = true <-> a = b.
Proof.
  destruct a as [i1 t1 e1 c1 s1], b as [i2 t2 e2 c2 s2]. unfold Block_eqb. cbn.
  rewrite !andb_true_iff. split.
  - intros [[[[Hi Ht] He] Hc] Hs].
    apply String.eqb_eq in Hi. subst i2.
    assert (t1 = t2) as ->.
    { destruct t1, t2; try discriminate; [|reflexivity].
      apply String.eqb_eq in Ht. now subst. }
    assert (e1 = e2) as ->.
    { destruct e1, e2; try discriminate; [|reflexivity].
      apply Bool.eqb_prop in He. now subst. }
    assert (c1 = c2) as ->.
    { destruct c1, c2; try discriminate; [|reflexivity].
      apply N.eqb_eq in Hc. now subst. }
    assert (s1 = s2) as ->.
    { destruct s1, s2; try discriminate; [|reflexivity].
      apply N.eqb_eq in Hs. now subst. }
    reflexivity.
  - intros H. injection H as -> -> -> -> ->.
    rewrite String.eqb_refl.
    repeat split.
    + destruct t2; [apply String.eqb_refl | reflexivity].
    + destruct e2; [apply Bool.eqb_reflx | reflexivity].
    + destruct c2; [apply N.eqb_refl | reflexivity].
    + destruct s2; [apply N.eqb_refl | reflexivity].
Qed.

(** Among the blocks of [arr], those that a filter of [arr] includes are those
    that pass the filter. *)
Lemma arr_includes_filter (P : Block -> bool) (arr : list Block) (b : Block) :
  In b arr -> arr_includes (filter P arr) b = P b.
Proof.
  intros Hin. unfold arr_includes. destruct (P b) eqn:E.
  - apply existsb_exists. exists b. split.
    + apply filter_In. now split.
    + now apply Block_eqb_eq.
  - apply not_true_iff_false. intros H.
    apply existsb_exists in H as [b' [Hb' Heq]].
    apply Block_eqb_eq in Heq. subst b'.
    apply filter_In in Hb' as [_ Hb']. congruence.
Qed.

(** The category [other] holds the selected blocks that no category claims. *)
Theorem other_unclassified (d : DesignData) :
  other d =
  filter (fun b => negb (is_processor b) && negb (is_memory b) && negb (is_io b))
         (digitalBlocks d).
Proof.
  unfold other, processors, memory, io. apply filter_ext_in.
  intros b Hb. now rewrite !arr_includes_filter.
Qed.

(** ** The IO section is the sequence of its fragments *)

Lemma forEach_from_append {A : Type} (g : nat -> A -> string) (arr : list A) :
  forall (index : nat) (acc : string),
    forEach_from (fun acc x index => acc ++ g index x) arr index acc =
    acc ++ concat_all (map (fun ix : nat * A => g (fst ix) (snd ix)) (indexed_from index arr)).
Proof.
  induction arr as [|x arr IH]; intros index acc; cbn.
  - now rewrite append_nil_r.
  - now rewrite IH, append_assoc.
Qed.

Lemma spi_loop (n : nat) :
  forall (start : nat) (acc : string) (spiIndex : nat),
    fold_left (fun (st : string * nat) (_ : nat) =>
                 let (ioCode, spiIndex) := st in
                 (ioCode ++ spi_fragment spiIndex, S spiIndex))
              (seq start n) (acc, spiIndex) =
    (acc ++ concat_all (map spi_fragment (seq spiIndex n)), spiIndex + n).
Proof.
  induction n as [|n IH]; intros start acc spiIndex; cbn.
  - now rewrite append_nil_r, Nat.add_0_r.
  - rewrite IH, append_assoc. f_equal. lia.
Qed.

Lemma forEach_spi (blocks : list Block) :
  forall (index : nat) (acc : string) (spiIndex : nat),
    forEach_from add_spi_block blocks index (acc, spiIndex) =
    (acc ++ concat_all (map spi_fragment (seq spiIndex (spi_instances blocks))),
     spiIndex + spi_instances blocks).
Proof.
  induction blocks as [|b blocks IH]; intros index acc spiIndex.
  - cbn. now rewrite append_nil_r, Nat.add_0_r.
  - cbn [forEach_from]. unfold add_spi_block at 2, for_range.
    rewrite spi_loop, IH. unfold spi_instances.
    cbn [map list_sum fold_right].
    rewrite seq_app, map_app, concat_all_app, append_assoc.
    f_equal. unfold list_sum. lia.
Qed.

Theorem ioCode_of_fragments (io : list Block) :
  ioCode_of io = concat_all (io_fragments io).
Proof.
  unfold ioCode_of, io_fragments, forEach.
  rewrite !forEach_from_append, forEach_spi.
  rewrite !forEach_from_append.
  unfold io_bodies. rewrite !map_app, !map_map, !concat_all_app. cbn [append].
  now rewrite !append_assoc.
Qed.

(** ** The interface list *)

Lemma add_io_interfaces_app (interfaces : list string) (block : Block) :
  add_io_interfaces interfaces block =
  (interfaces ++
   block_interfaces (List.length (filter (fun iface => includes iface "spi_") interfaces)) block)%list.
Proof.
  unfold add_io_interfaces, block_interfaces.
  repeat match goal with |- context [if ?b then _ else _] => destruct b end;
    rewrite ?fold_left_push, ?app_nil_r; reflexivity.
Qed.

Lemma block_interfaces_one_line (k : nat) (block : Block) :
  Forall one_line (block_interfaces k block).
Proof.
  unfold block_interfaces.
  repeat match goal with |- context [if ?b then _ else _] => destruct b end;
    first [ apply Forall_nil
          | apply Forall_map, Forall_forall; intros x _; no_char ].
Qed.

Lemma fold_add_io_interfaces_one_line (io : list Block) :
  forall interfaces, Forall one_line interfaces ->
    Forall one_line (fold_left add_io_interfaces io interfaces).
Proof.
  induction io as [|b io IH]; intros interfaces H; [assumption|].
  cbn [fold_left]. apply IH. rewrite add_io_interfaces_app.
  apply Forall_app. split; [assumption | apply block_interfaces_one_line].
Qed.

Lemma interfaces_of_one_line (memory io : list Block) (cpu : option Block) :
  Forall one_line (interfaces_of memory io cpu).
Proof.
  unfold interfaces_of. apply fold_add_io_interfaces_one_line.
  destruct (some_id memory "qspi"), (cpu_id_includes cpu "cv32e40p");
    repeat constructor.
Qed.

Lemma block_interfaces_quoted (k : nat) (block : Block) :
  Forall quoted (block_interfaces k block).
Proof.
  unfold block_interfaces.
  repeat match goal with |- context [if ?b then _ else _] => destruct b end;
    first [ apply Forall_nil
          | apply Forall_map, Forall_forall; intros x _; eexists; reflexivity ].
Qed.

Lemma interfaces_of_quoted (memory io : list Block) (cpu : option Block) :
  Forall quoted (interfaces_of memory io cpu).
Proof.
  unfold interfaces_of.
  assert (H : forall blocks interfaces, Forall quoted interfaces ->
                Forall quoted (fold_left add_io_interfaces blocks interfaces)).
  { clear. intros blocks.
    induction blocks as [|b blocks IH]; intros interfaces H; [assumption|].
    cbn [fold_left]. apply IH. rewrite add_io_interfaces_app.
    apply Forall_app. split; [assumption | apply block_interfaces_quoted]. }
  apply H.
  destruct (some_id memory "qspi"), (cpu_id_includes cpu "cv32e40p");
    repeat constructor; eexists; reflexivity.
Qed.

(** Whatever a block adds to [interfaces] stays there. *)
Lemma fold_add_io_interfaces_keeps (blocks : list Block) :
  forall interfaces x,
    In x interfaces -> In x (fold_left add_io_interfaces blocks interfaces).
Proof.
  induction blocks as [|b blocks IH]; intros interfaces x H; [assumption|].
  cbn [fold_left]. apply IH. rewrite add_io_interfaces_app. apply in_or_app. now left.
Qed.

Lemma fold_add_io_interfaces_block (blocks : list Block) (b : Block) :
  In b blocks ->
  forall interfaces,
    exists k, forall x,
      In x (block_interfaces k b) -> In x (fold_left add_io_interfaces blocks interfaces).
Proof.
  induction blocks as [|b' blocks IH]; [contradiction|].
  intros [-> | Hin] interfaces; cbn [fold_left].
  - exists (List.length (filter (fun iface => includes iface "spi_") interfaces)).
    intros x Hx. apply fold_add_io_interfaces_keeps.
    rewrite add_io_interfaces_app. apply in_or_app. now right.
  - apply (IH Hin).
Qed.

Lemma spi_block_declares_spi (memory io : list Block) (cpu : option Block) (b : Block) :
  In b io ->
  includes (id b) "gpio" = false ->
  includes (id b) "uart" = false ->
  includes (id b) "spi" = true ->
  exists i, In (spi_interface i) (interfaces_of memory io cpu).
Proof.
  intros Hin Hg Hu Hs. unfold interfaces_of.
  destruct (fold_add_io_interfaces_block io b Hin
              (let interfaces := [] in
               let interfaces :=
                 if some_id memory "qspi" then push interfaces flash_interface else interfaces in
               if cpu_id_includes cpu "cv32e40p" then push interfaces cpu_jtag_interface
               else interfaces)) as [k Hk].
  exists (k + 0). apply Hk.
  unfold block_interfaces. rewrite Hg, Hu, Hs. unfold for_range.
  pose proof (num_or_one_pos (count b)) as Hpos.
  destruct (N.to_nat (num_or (count b) 1)) as [|n]; [lia|].
  cbn [seq map]. now left.
Qed.

Lemma gpio_interface_not_spi (i : nat) (b : option N) :
  is_spi_interface (gpio_interface i b) = false.
Proof.
  apply (absent_char_not_included "spi_" _ (gpio_interface 0 None)); [reflexivity|].
  unfold gpio_interface. same_chars.
Qed.

Lemma uart_interface_not_spi (i : nat) : is_spi_interface (uart_interface i) = false.
Proof.
  apply (absent_char_not_included "spi_" _ (uart_interface 0)); [reflexivity|].
  unfold uart_interface. same_chars.
Qed.

Lemma i2c_interface_not_spi (i : nat) : is_spi_interface (i2c_interface i) = false.
Proof.
  apply (absent_char_not_included "spi_" _ (i2c_interface 0)); [reflexivity|].
  unfold i2c_interface. same_chars.
Qed.

Lemma spi_interface_is_spi (i : nat) : is_spi_interface (spi_interface i) = true.
Proof. reflexivity. Qed.

Lemma filter_spi_block_interfaces (k : nat) (block : Block) :
  filter is_spi_interface (block_interfaces k block) =
  if spi_first block
  then map (fun i => spi_interface (k + i)) (for_range (num_or (count block) 1))
  else [].
Proof.
  unfold block_interfaces, spi_first.
  destruct (includes (id block) "gpio"); cbn [negb andb].
  { apply filter_map_none. intros; apply gpio_interface_not_spi. }
  destruct (includes (id block) "uart"); cbn [negb andb].
  { apply filter_map_none. intros; apply uart_interface_not_spi. }
  destruct (includes (id block) "spi").
  { apply filter_map_all. intros; apply spi_interface_is_spi. }
  destruct (includes (id block) "i2c"); [|reflexivity].
  apply filter_map_none. intros; apply i2c_interface_not_spi.
Qed.

Lemma filter_spi_fold_add_io_interfaces (blocks : list Block) :
  forall interfaces,
    filter is_spi_interface (fold_left add_io_interfaces blocks interfaces) =
    (filter is_spi_interface interfaces ++
     map spi_interface
         (seq (List.length (filter is_spi_interface interfaces))
              (spi_instances (filter spi_first blocks))))%list.
Proof.
  induction blocks as [|b blocks IH]; intros interfaces.
  - cbn. now rewrite app_nil_r.
  - cbn [fold_left filter]. rewrite IH, add_io_interfaces_app, filter_app.
    change (fun iface => includes iface "spi_") with is_spi_interface.
    rewrite filter_spi_block_interfaces.
    destruct (spi_first b).
    + unfold for_range, spi_instances. cbn [map list_sum fold_right].
      rewrite length_app, length_map, length_seq, <- app_assoc. f_equal.
      rewrite seq_app, map_app. f_equal.
      rewrite map_seq_offset. now rewrite Nat.add_0_r.
    + now rewrite app_nil_r.
Qed.

(** The SPI interface declarations are numbered by one counter as well: each
    block that reaches the SPI branch continues where the previous one
    stopped. *)
Theorem spi_interfaces (d : DesignData) :
  filter is_spi_interface (interfaces d) =
  map spi_interface (seq 0 (spi_instances (filter spi_first (io d)))).
Proof.
  unfold interfaces, interfaces_of. rewrite filter_spi_fold_add_io_interfaces.
  destruct (some_id (memory d) "qspi"), (cpu_id_includes (cpu d) "cv32e40p"); reflexivity.
Qed.

Lemma filter_spi_first (blocks : list Block) :
  filter spi_first blocks = filter spi_first (filter (fun b => includes (id b) "spi") blocks).
Proof.
  induction blocks as [|b blocks IH]; [reflexivity|].
  cbn [filter]. destruct (includes (id b) "spi") eqn:E.
  - cbn [filter]. destruct (spi_first b); now rewrite IH.
  - assert (F : spi_first b = false) by (unfold spi_first; rewrite E; apply andb_false_r).
    now rewrite F.
Qed.

Lemma interface_lines_In (interfaces : list string) (x : string) :
  In x interfaces ->
  In ("            " ++ x) (interface_lines interfaces) \/
  In ("            " ++ x ++ ",") (interface_lines interfaces).
Proof.
  induction interfaces as [|y rest IH]; [contradiction|].
  intros [-> | Hin].
  - destruct rest; [left | right]; now left.
  - destruct rest as [|z rest]; [contradiction|].
    change (interface_lines (y :: z :: rest))
      with (("            " ++ y ++ ",") :: interface_lines (z :: rest)).
    destruct (IH Hin); [left | right]; now right.
Qed.

Lemma spi_interface_declared (interfaces : list string) (i : nat) :
  In (spi_interface i) interfaces ->
  filter (declares "spi") (interface_lines interfaces) <> [].
Proof.
  intros Hin. apply interface_lines_In in Hin.
  assert (H : exists l, In l (interface_lines interfaces) /\ declares "spi" l = true).
  { destruct Hin as [Hin | Hin]; eexists; (split; [exact Hin | reflexivity]). }
  destruct H as [l [Hl Hd]].
  assert (Hf : In l (filter (declares "spi") (interface_lines interfaces)))
    by (apply filter_In; now split).
  intros E. now rewrite E in Hf.
Qed.

(** ** Lines of the sections *)

Lemma io_bodies_one_line (io : list Block) :
  Forall (fun body => body <> [] /\ Forall one_line body) (io_bodies io).
Proof.
  unfold io_bodies. rewrite !Forall_app. repeat split;
    apply Forall_map, Forall_forall; intros x _; (split; [discriminate|]);
    repeat constructor; no_char.
Qed.

Theorem lines_ioCode_of (io : list Block) :
  lines (ioCode_of io) = EmptyString :: io_lines io.
Proof.
  rewrite ioCode_of_fragments. apply lines_fragments, io_bodies_one_line.
Qed.

Lemma lines_interfaces (interfaces : list string) :
  Forall one_line interfaces ->
  lines (join ("," ++ nl) (map (fun iface => "            " ++ iface) interfaces)) =
  interface_lines interfaces.
Proof.
  induction 1 as [|iface rest Hi Hrest IH]; [reflexivity|].
  destruct rest as [|iface' rest].
  - cbn [map join String.concat interface_lines]. apply lines_single.
    unfold one_line in *. rewrite has_char_app, Hi. reflexivity.
  - change (interface_lines (iface :: iface' :: rest))
      with (("            " ++ iface ++ ",") :: interface_lines (iface' :: rest)).
    rewrite <- IH.
    replace (join ("," ++ nl) (map (fun iface => "            " ++ iface) (iface :: iface' :: rest)))
      with (("            " ++ iface ++ ",") ++ nl ++
            join ("," ++ nl) (map (fun iface => "            " ++ iface) (iface' :: rest)))
      by (cbn [map join String.concat]; rewrite !append_assoc; reflexivity).
    rewrite lines_app_nl, lines_single; [reflexivity|].
    unfold one_line in *. rewrite !has_char_app, Hi. reflexivity.
Qed.

Lemma imports_of_one_line (memory io : list Block) (cpu : option Block) :
  Forall one_line (imports_of memory io cpu).
Proof.
  apply forallb_one_line. cbv beta delta [imports_of].
  gen_flags memory io cpu. all_flags.
Qed.

Lemma imports_of_not_nil (memory io : list Block) (cpu : option Block) :
  imports_of memory io cpu <> [].
Proof.
  apply length_not_nil. cbv beta delta [imports_of].
  gen_flags memory io cpu. all_flags.
Qed.

Lemma lines_imports (memory io : list Block) (cpu : option Block) :
  lines (join nl (imports_of memory io cpu)) = imports_of memory io cpu.
Proof.
  change (join nl (imports_of memory io cpu)) with (unlines (imports_of memory io cpu)).
  rewrite lines_unlines by apply imports_of_not_nil.
  apply flat_map_lines_single, imports_of_one_line.
Qed.

Lemma lines_memoryMap_of (memory io : list Block) :
  lines (memoryMap_of memory io) = memoryMap_lines memory io.
Proof.
  apply list_string_eqb_eq. cbv beta delta [memoryMap_of memoryMap_lines].
  generalize (some_id memory "qspi"), (some_id io "spi"), (some_id io "i2c").
  all_flags.
Qed.

Lemma lines_cpuCode_of (cpu : option Block) : lines (cpuCode_of cpu) = cpu_lines cpu.
Proof.
  apply list_string_eqb_eq. cbv beta delta [cpuCode_of cpu_lines].
  generalize (cpu_id_includes cpu "cv32e40p"), (cpu_id_includes cpu "minerva").
  all_flags.
Qed.

Lemma lines_memoryCode_of (memory : list Block) :
  lines (memoryCode_of memory) = memory_lines memory.
Proof.
  apply list_string_eqb_eq. cbv beta delta [memoryCode_of memory_lines].
  generalize (some_id memory "qspi"). all_flags.
Qed.

Lemma lines_attach (memory : list Block) :
  lines (attach_comment ++ (if some_id memory "qspi" then nl ++ attach_flash else EmptyString)) =
  attach_lines memory.
Proof.
  apply list_string_eqb_eq. cbv beta delta [attach_lines].
  generalize (some_id memory "qspi"). all_flags.
Qed.

(** The artifact read back line by line is the sequence of its sections. *)
Theorem lines_generateDesignPy (designData : DesignData) :
  lines (generateDesignPy designData) = artifact_lines designData.
Proof.
  unfold generateDesignPy, designPy_of, artifact_lines.
  rewrite lines_unlines by discriminate.
  rewrite !flat_map_app. cbn [flat_map].
  rewrite !app_nil_r.
  unfold imports, interfaces, memoryMap, cpuCode, memoryCode, ioCode.
  rewrite lines_imports, lines_interfaces by apply interfaces_of_one_line.
  rewrite lines_memoryMap_of, lines_cpuCode_of, lines_memoryCode_of, lines_ioCode_of,
    lines_attach.
  rewrite !flat_map_lines_single by (apply forallb_one_line; vm_compute; reflexivity).
  repeat rewrite <- app_assoc. reflexivity.
Qed.

(** A line of the IO section belongs to a fragment of a kind that some block
    of [io] has. *)
Lemma io_lines_kind (io : list Block) (l : string) :
  In l (io_lines io) ->
  (some_id io "gpio" = true /\ exists k b, In l (gpio_lines k b)) \/
  (some_id io "uart" = true /\ exists k, In l (uart_lines k)) \/
  (some_id io "spi" = true /\ exists k, In l (spi_lines k)) \/
  (some_id io "i2c" = true /\ exists k, In l (i2c_lines k)).
Proof.
  unfold io_lines, io_bodies. intros H.
  apply in_concat in H as [body [Hbody Hl]].
  repeat (apply in_app_or in Hbody as [Hbody | Hbody]).
  - left. apply in_map_iff in Hbody as [[k b] [<- Hkb]].
    split; [|now exists k, (num_or (bitSize b) 8)].
    apply indexed_from_In in Hkb. exact (filter_some_id _ _ _ Hkb).
  - right. left. apply in_map_iff in Hbody as [[k b] [<- Hkb]].
    split; [|now exists k].
    apply indexed_from_In in Hkb. exact (filter_some_id _ _ _ Hkb).
  - right. right. left. apply in_map_iff in Hbody as [k [<- Hk]].
    split; [|now exists k].
    destruct (filter (fun b => includes (id b) "spi") io) as [|b bs] eqn:E;
      [destruct Hk|].
    apply (filter_some_id io "spi" b). rewrite E. now left.
  - right. right. right. apply in_map_iff in Hbody as [[k b] [<- Hkb]].
    split; [|now exists k].
    apply indexed_from_In in Hkb. exact (filter_some_id _ _ _ Hkb).
Qed.

(** ** Filtering the lines of the artifact *)

(** The lines of the artifact that pass a test [P], section by section. *)
Section ArtifactFilter.

Variable P : string -> bool.

Lemma filter_interface_lines_none (interfaces : list string) :
  P EmptyString = false ->
  (forall r, P ("            " ++ dq ++ r) = false) ->
  Forall quoted interfaces ->
  filter P (interface_lines interfaces) = [].
Proof.
  intros H0 Hq. induction 1 as [|iface rest Hi Hrest IH].
  - cbn. now rewrite H0.
  - destruct Hi as [r ->]. destruct rest as [|iface' rest].
    + cbn [interface_lines filter]. now rewrite (Hq r).
    + change (interface_lines ((dq ++ r) :: iface' :: rest))
        with (("            " ++ (dq ++ r) ++ ",") :: interface_lines (iface' :: rest)).
      cbn [filter]. rewrite append_assoc, (Hq (r ++ ",")). exact IH.
Qed.

Lemma filter_io_lines (io : list Block)
    (g : nat -> N -> list string) (u s i : nat -> list string) :
  (forall k b, filter P (gpio_lines k b) = g k b) ->
  (forall k, filter P (uart_lines k) = u k) ->
  (forall k, filter P (spi_lines k) = s k) ->
  (forall k, filter P (i2c_lines k) = i k) ->
  filter P (io_lines io) =
  (concat (map (fun ib : nat * Block => g (fst ib) (num_or (bitSize (snd ib)) 8))
               (indexed_from 0 (filter (fun b => includes (id b) "gpio") io))) ++
   concat (map (fun ib : nat * Block => u (fst ib))
               (indexed_from 0 (filter (fun b => includes (id b) "uart") io))) ++
   concat (map s (seq 0 (spi_instances (filter (fun b => includes (id b) "spi") io)))) ++
   concat (map (fun ib : nat * Block => i (fst ib))
               (indexed_from 0 (filter (fun b => includes (id b) "i2c") io))))%list.
Proof.
  intros Hg Hu Hs Hi. unfold io_lines, io_bodies.
  rewrite !concat_app, !filter_app.
  rewrite (filter_concat_map P _ (fun ib : nat * Block => g (fst ib) (num_or (bitSize (snd ib)) 8)))
    by (intros; apply Hg).
  rewrite (filter_concat_map P _ (fun ib : nat * Block => u (fst ib))) by (intros; apply Hu).
  rewrite (filter_concat_map P _ s) by (intros; apply Hs).
  rewrite (filter_concat_map P _ (fun ib : nat * Block => i (fst ib))) by (intros; apply Hi).
  reflexivity.
Qed.

Lemma filter_io_lines_none (io : list Block) :
  (forall k b, filter P (gpio_lines k b) = []) ->
  (forall k, filter P (uart_lines k) = []) ->
  (forall k, filter P (spi_lines k) = []) ->
  (forall k, filter P (i2c_lines k) = []) ->
  filter P (io_lines io) = [].
Proof.
  intros Hg Hu Hs Hi.
  rewrite (filter_io_lines io (fun _ _ => []) (fun _ => []) (fun _ => []) (fun _ => []))
    by assumption.
  now rewrite !concat_map_nil.
Qed.

Lemma filter_artifact_lines (d : DesignData) :
  filter P (artifact_lines d) =
  (filter P (imports_of (memory d) (io d) (cpu d)) ++
   filter P class_opening ++
   filter P (interface_lines (interfaces d)) ++
   filter P class_closing ++
   filter P (memoryMap_lines (memory d) (io d)) ++
   filter P elaborate_opening ++
   filter P (cpu_lines (cpu d)) ++
   filter P (memory_lines (memory d)) ++
   filter P [EmptyString] ++
   filter P (io_lines (io d)) ++
   filter P soc_id_and_bridge ++
   filter P (attach_lines (memory d)) ++
   filter P entry_point)%list.
Proof.
  unfold artifact_lines, imports.
  change (EmptyString :: io_lines (io d)) with ([EmptyString] ++ io_lines (io d))%list.
  rewrite !filter_app. now rewrite <- !app_assoc.
Qed.

End ArtifactFilter.

(** A section that depends on the tested conditions alone holds no line that
    satisfies [P]: settled by running through the conditions. *)
Ltac no_line_in_sections d :=
  cbv beta delta [imports_of memoryMap_lines cpu_lines memory_lines attach_lines];
  gen_flags (memory d) (io d) (cpu d); all_flags.

Ltac fixed_sections_none :=
  rewrite ?(filter_none _ class_opening) by (vm_compute; reflexivity);
  rewrite ?(filter_none _ class_closing) by (vm_compute; reflexivity);
  rewrite ?(filter_none _ elaborate_opening) by (vm_compute; reflexivity);
  rewrite ?(filter_none _ soc_id_and_bridge) by (vm_compute; reflexivity);
  rewrite ?(filter_none _ entry_point) by (vm_compute; reflexivity).

(** Membership in a section is membership in the artifact. *)
Tactic Notation "in_section" integer(n) :=
  rewrite lines_generateDesignPy; unfold artifact_lines;
  do n (apply in_or_app; right); apply in_or_app; left.

(** Shows [In x section] for a section that depends on the tested conditions
    alone, after the conditions known to hold have been rewritten. *)
Ltac in_flag_section d :=
  apply In_existsb; gen_flags (memory d) (io d) (cpu d); all_flags.

(** The instantiations of an IO kind are found in the IO section only. *)
Lemma instantiations_in_io_lines (kind : string) (d : DesignData) :
  In kind io_kinds ->
  instantiations kind (generateDesignPy d) = filter (instantiates kind) (io_lines (io d)).
Proof.
  intros Hk. unfold instantiations.
  rewrite lines_generateDesignPy, filter_artifact_lines.
  rewrite (filter_interface_lines_none (instantiates kind));
    [ | reflexivity | intros r; reflexivity | apply interfaces_of_quoted ].
  repeat (destruct Hk as [<- | Hk];
    [ rewrite (filter_none _ (imports_of _ _ _)) by no_line_in_sections d;
      rewrite (filter_none _ (memoryMap_lines _ _)) by no_line_in_sections d;
      rewrite (filter_none _ (cpu_lines _)) by no_line_in_sections d;
      rewrite (filter_none _ (memory_lines _)) by no_line_in_sections d;
      rewrite (filter_none _ (attach_lines _)) by no_line_in_sections d;
      rewrite (filter_none _ class_opening) by (vm_compute; reflexivity);
      rewrite (filter_none _ class_closing) by (vm_compute; reflexivity);
      rewrite (filter_none _ elaborate_opening) by (vm_compute; reflexivity);
      rewrite (filter_none _ soc_id_and_bridge) by (vm_compute; reflexivity);
      rewrite (filter_none _ entry_point) by (vm_compute; reflexivity);
      cbn [app filter]; now rewrite app_nil_r | ]).
  destruct Hk.
Qed.

(** The interface declarations of a kind are found in the interface section
    only. *)
Lemma interface_declarations_in_interface_lines (kind : string) (d : DesignData) :
  interface_declarations kind (generateDesignPy d) =
  filter (declares kind) (interface_lines (interfaces d)).
Proof.
  unfold interface_declarations.
  rewrite lines_generateDesignPy, filter_artifact_lines.
  rewrite (filter_io_lines_none (declares kind)) by (intros; reflexivity).
  rewrite (filter_none _ (imports_of _ _ _)) by no_line_in_sections d.
  rewrite (filter_none _ (memoryMap_lines _ _)) by no_line_in_sections d.
  rewrite (filter_none _ (cpu_lines _)) by no_line_in_sections d.
  rewrite (filter_none _ (memory_lines _)) by no_line_in_sections d.
  rewrite (filter_none _ (attach_lines _)) by no_line_in_sections d.
  fixed_sections_none.
  cbn [app filter]. apply app_nil_r.
Qed.

(** The statement that adds the CPU is found in the CPU section only. *)
Lemma adds_cpu_in_cpu_lines (d : DesignData) :
  filter adds_cpu (lines (generateDesignPy d)) = filter adds_cpu (cpu_lines (cpu d)).
Proof.
  rewrite lines_generateDesignPy, filter_artifact_lines.
  rewrite (filter_interface_lines_none adds_cpu);
    [ | reflexivity | intros r; reflexivity | apply interfaces_of_quoted ].
  rewrite (filter_io_lines_none adds_cpu) by (intros; reflexivity).
  rewrite (filter_none _ (imports_of _ _ _)) by no_line_in_sections d.
  rewrite (filter_none _ (memoryMap_lines _ _)) by no_line_in_sections d.
  rewrite (filter_none _ (memory_lines _)) by no_line_in_sections d.
  rewrite (filter_none _ (attach_lines _)) by no_line_in_sections d.
  fixed_sections_none.
  cbn [app filter]. apply app_nil_r.
Qed.

(** The import statements of the artifact: those of the import section, the
    one inside the SRAM fragment, and the one of the entry point. *)
Theorem import_statements_generateDesignPy (d : DesignData) :
  import_statements (generateDesignPy d) =
  (filter is_import (imports d) ++ [sram_import; verilog_import])%list.
Proof.
  unfold import_statements.
  rewrite lines_generateDesignPy, filter_artifact_lines.
  rewrite (filter_interface_lines_none is_import);
    [ | reflexivity | intros r; reflexivity | apply interfaces_of_quoted ].
  rewrite (filter_io_lines_none is_import) by (intros; reflexivity).
  rewrite (filter_none _ (memoryMap_lines _ _)) by no_line_in_sections d.
  rewrite (filter_none _ (cpu_lines _)) by no_line_in_sections d.
  rewrite (filter_none _ (attach_lines _)) by no_line_in_sections d.
  fixed_sections_none.
  cbn [app filter]. rewrite !map_app.
  assert (Hi : map lstrip (filter is_import (imports_of (memory d) (io d) (cpu d))) =
               filter is_import (imports_of (memory d) (io d) (cpu d))).
  { apply list_string_eqb_eq. cbv beta delta [imports_of].
    gen_flags (memory d) (io d) (cpu d). all_flags. }
  assert (Hm : map lstrip (filter is_import (memory_lines (memory d))) = [sram_import]).
  { apply list_string_eqb_eq. cbv beta delta [memory_lines].
    gen_flags (memory d) (io d) (cpu d). all_flags. }
  rewrite Hi, Hm. reflexivity.
Qed.

(** ** Instances of an IO block *)

(** Instantiations of GPIO: one for each GPIO-classified block, whatever its
    [count]. *)
Theorem gpio_instantiations (d : DesignData) :
  instantiations "gpio" (generateDesignPy d) =
  map (fun ib : nat * Block => gpio_instantiation (fst ib) (num_or (bitSize (snd ib)) 8))
      (indexed_from 0 (filter (fun b => includes (id b) "gpio") (io d))).
Proof.
  rewrite instantiations_in_io_lines by (cbn; tauto).
  rewrite (filter_io_lines _ _ (fun k b => [gpio_instantiation k b])
             (fun _ => []) (fun _ => []) (fun _ => []))
    by (intros; reflexivity).
  rewrite !concat_map_nil, concat_map_one. apply app_nil_r.
Qed.

(** Instantiations of UART: one for each UART-classified block. *)
Theorem uart_instantiations (d : DesignData) :
  instantiations "uart" (generateDesignPy d) =
  map (fun ib : nat * Block => uart_instantiation (fst ib))
      (indexed_from 0 (filter (fun b => includes (id b) "uart") (io d))).
Proof.
  rewrite instantiations_in_io_lines by (cbn; tauto).
  rewrite (filter_io_lines _ _ (fun _ _ => []) (fun k => [uart_instantiation k])
             (fun _ => []) (fun _ => []))
    by (intros; reflexivity).
  rewrite !concat_map_nil, concat_map_one. cbn [app]. apply app_nil_r.
Qed.

(** Instantiations of SPI: [count] for each SPI-classified block, numbered by
    one counter that runs across the blocks. *)
Theorem spi_instantiations (d : DesignData) :
  instantiations "spi" (generateDesignPy d) =
  map spi_instantiation
      (seq 0 (spi_instances (filter (fun b => includes (id b) "spi") (io d)))).
Proof.
  rewrite instantiations_in_io_lines by (cbn; tauto).
  rewrite (filter_io_lines _ _ (fun _ _ => []) (fun _ => [])
             (fun k => [spi_instantiation k]) (fun _ => []))
    by (intros; reflexivity).
  rewrite !concat_map_nil, concat_map_one. cbn [app]. apply app_nil_r.
Qed.

(** Instantiations of I2C: one for each I2C-classified block. *)
Theorem i2c_instantiations (d : DesignData) :
  instantiations "i2c" (generateDesignPy d) =
  map (fun ib : nat * Block => i2c_instantiation (fst ib))
      (indexed_from 0 (filter (fun b => includes (id b) "i2c") (io d))).
Proof.
  rewrite instantiations_in_io_lines by (cbn; tauto).
  rewrite (filter_io_lines _ _ (fun _ _ => []) (fun _ => []) (fun _ => [])
             (fun k => [i2c_instantiation k]))
    by (intros; reflexivity).
  rewrite !concat_map_nil, concat_map_one. reflexivity.
Qed.

(** GPIO blocks are instantiated once each: the [count] of a block is not
    consulted. *)
Lemma gpio_instantiations_length (d : DesignData) :
  List.length (instantiations "gpio" (generateDesignPy d)) =
  List.length (filter (fun b => includes (id b) "gpio") (io d)).
Proof. now rewrite gpio_instantiations, length_map, indexed_from_length. Qed.

(** SPI blocks are instantiated [count] times each. *)
Lemma spi_instantiations_length (d : DesignData) :
  List.length (instantiations "spi" (generateDesignPy d)) =
  spi_instances (filter (fun b => includes (id b) "spi") (io d)).
Proof. now rewrite spi_instantiations, length_map, length_seq. Qed.

(** C1.  The claim fails at a GPIO block with [count] 2: the artifact declares
    the interfaces [gpio_0] and [gpio_1] and instantiates [gpio_0] alone, where
    an SPI block with [count] 2 has both its interfaces and both its
    instantiations. *)
Theorem gpio_count_two_single_instantiation :
  interface_declarations "gpio" (generateDesignPy gpio_count_two_document) =
    [ "            " ++ gpio_interface 0 (Some 8%N) ++ ",";
      "            " ++ gpio_interface 1 (Some 8%N) ] /\
  instantiations "gpio" (generateDesignPy gpio_count_two_document) =
    [ "        m.submodules.gpio_0 = gpio_0 = GPIOPeripheral(pin_count=8, addr_width=5)" ] /\
  interface_declarations "spi" (generateDesignPy spi_count_two_document) =
    [ "            " ++ spi_interface 0 ++ ",";
      "            " ++ spi_interface 1 ] /\
  instantiations "spi" (generateDesignPy spi_count_two_document) =
    [ "        m.submodules.spi_0 = spi_0 = SPIPeripheral()";
      "        m.submodules.spi_1 = spi_1 = SPIPeripheral()" ].
Proof. repeat split; vm_compute; reflexivity. Qed.

(** The index of a GPIO interface restarts with every block, and that of a
    GPIO fragment runs across the blocks: two GPIO blocks declare [gpio_0] twice
    while their fragments connect [gpio_0] and [gpio_1]. *)
Example two_gpio_blocks_indices :
  interfaces two_gpio_document = [gpio_interface 0 None; gpio_interface 0 None] /\
  instantiations "gpio" (generateDesignPy two_gpio_document) =
    [ "        m.submodules.gpio_0 = gpio_0 = GPIOPeripheral(pin_count=8, addr_width=5)";
      "        m.submodules.gpio_1 = gpio_1 = GPIOPeripheral(pin_count=8, addr_width=5)" ].
Proof. split; vm_compute; reflexivity. Qed.

(** C7.  Two SPI-keyword blocks with [count] 1 each are instantiated as
    [spi_0] and [spi_1]: the second block continues the numbering of the
    first.  Their interface declarations are numbered alike when both reach the
    SPI branch of the interface stage. *)
Theorem two_spi_blocks_running_index :
  forall (d : DesignData) (b1 b2 : Block),
    filter (fun b => includes (id b) "spi") (io d) = [b1; b2] ->
    count b1 = Some 1%N ->
    count b2 = Some 1%N ->
    instantiations "spi" (generateDesignPy d) =
      [ "        m.submodules.spi_0 = spi_0 = SPIPeripheral()";
        "        m.submodules.spi_1 = spi_1 = SPIPeripheral()" ] /\
    (spi_first b1 = true ->
     spi_first b2 = true ->
     filter is_spi_interface (interfaces d) = [spi_interface 0; spi_interface 1]).
Proof.
  intros d b1 b2 Hspi H1 H2. split.
  - rewrite spi_instantiations, Hspi. unfold spi_instances. cbn [map].
    rewrite H1, H2. reflexivity.
  - intros F1 F2. rewrite spi_interfaces, filter_spi_first, Hspi.
    cbn [filter]. rewrite F1, F2. unfold spi_instances. cbn [map].
    rewrite H1, H2. reflexivity.
Qed.

Lemma two_spi_blocks_running_index_witness :
  filter (fun b => includes (id b) "spi") (io two_spi_document) =
    [digital "spi_a" (Some 1%N) None; digital "spi_b" (Some 1%N) None] /\
  instantiations "spi" (generateDesignPy two_spi_document) =
    [ "        m.submodules.spi_0 = spi_0 = SPIPeripheral()";
      "        m.submodules.spi_1 = spi_1 = SPIPeripheral()" ] /\
  filter is_spi_interface (interfaces two_spi_document) = [spi_interface 0; spi_interface 1].
Proof.
  split; [reflexivity|].
  pose proof (two_spi_blocks_running_index two_spi_document _ _ eq_refl eq_refl eq_refl)
    as [Hi Hd].
  split; [exact Hi | exact (Hd eq_refl eq_refl)].
Defined.

(** ** Import statements *)





(** Refutes [Hinc : includes l X = true] when [Habs] tells that [X] has a
    character which the template of [l] lacks. *)
Ltac not_mentioned Habs Hinc :=
  match type of Habs with
  | absent_char ?X ?l0 = true =>
      match type of Hinc with
      | includes ?l X = true =>
          let H := fresh "H" in
          assert (H : forall c, is_digit c = false -> has_char c l = has_char c l0)
            by same_chars;
          rewrite (absent_char_not_included X l l0 Habs H) in Hinc;
          discriminate Hinc
      end
  end.



(** No line [l] of the fragment, [Hl], mentions [X]: each lacks a character of
    [X], [Habs]. *)
Ltac lines_do_not_mention Habs Hl Hinc :=
  cbn [forallb] in Habs;
  repeat (apply andb_true_iff in Habs; destruct Habs as [? Habs]);
  repeat (destruct Hl as [<- | Hl];
          [ match goal with
            | Ha : absent_char _ _ = true |- _ => not_mentioned Ha Hinc
            end | ]);
  destruct Hl.





(** The list [importable] is exact: the statements of an artifact import no
    other name. *)
Lemma imported_is_importable (d : DesignData) (X : string) :
  imports_name (import_statements (generateDesignPy d)) X = true -> In X importable.
Proof.
  rewrite import_statements_generateDesignPy. intros H.
  apply existsb_exists in H as [stmt [Hstmt Hname]].
  apply existsb_exists in Hname as [n [Hn HX]].
  apply String.eqb_eq in HX. subst n.
  assert (Hall : forallb (fun stmt =>
                            forallb (fun n => existsb (String.eqb n) importable)
                                    (imported_names stmt))
                         (filter is_import (imports d) ++ [sram_import; verilog_import]) = true).
  { unfold imports. cbv beta delta [imports_of].
    gen_flags (memory d) (io d) (cpu d). all_flags. }
  apply (forallb_In _ _ stmt Hall) in Hstmt.
  apply (forallb_In _ _ X Hstmt) in Hn.
  now apply In_existsb.
Qed.



(** ** Memory map *)

(** C3, as stated, fails: with a QSPI flash in the document the memory map
    gives [csr_spiflash_base] the address of [csr_base]. *)
Lemma memory_map_shared_address :
  ~ NoDup (map snd (base_addresses (memoryMap qspi_document))).
Proof.
  intros H. apply distinct_NoDup in H. vm_compute in H. discriminate.
Qed.

Lemma memory_map_shared_address_values :
  In ("csr_base", 0xb0000000%N) (base_addresses (memoryMap qspi_document)) /\
  In ("csr_spiflash_base", 0xb0000000%N) (base_addresses (memoryMap qspi_document)).
Proof. vm_compute. tauto. Qed.

(** C3, amended.  The base addresses of the memory map other than
    [csr_spiflash_base] are pairwise distinct; [csr_spiflash_base] is emitted
    only when a QSPI flash is present and is then the address of [csr_base], the
    flash registers being the first of the CSR region.  Without a QSPI flash all
    base addresses are pairwise distinct. *)
Theorem memory_map_distinct_but_spiflash :
  forall d : DesignData,
    NoDup (map snd (filter (fun a => negb (is_csr_spiflash_base a))
                           (base_addresses (memoryMap d)))) /\
    (some_id (memory d) "qspi" = false ->
     NoDup (map snd (base_addresses (memoryMap d)))) /\
    (forall a : N,
       In ("csr_spiflash_base", a) (base_addresses (memoryMap d)) ->
       some_id (memory d) "qspi" = true /\
       In ("csr_base", a) (base_addresses (memoryMap d))).
Proof.
  intros d. cbv beta delta [memoryMap memoryMap_of]. repeat split.
  - apply distinct_NoDup.
    generalize (some_id (memory d) "qspi"), (some_id (io d) "spi"), (some_id (io d) "i2c").
    all_flags.
  - intros Hq. rewrite Hq. apply distinct_NoDup.
    generalize (some_id (io d) "spi"), (some_id (io d) "i2c"). all_flags.
  - destruct (some_id (memory d) "qspi"); [reflexivity|].
    destruct (some_id (io d) "spi"), (some_id (io d) "i2c");
      vm_compute in H; repeat (destruct H as [H|H]; [discriminate|]); destruct H.
  - destruct (some_id (memory d) "qspi"), (some_id (io d) "spi"), (some_id (io d) "i2c");
      vm_compute in H;
      repeat (destruct H as [H|H]; [try discriminate; injection H as <-; vm_compute; tauto|]);
      destruct H.
Qed.

Lemma memory_map_distinct_but_spiflash_witness :
  some_id (memory uart_document) "qspi" = false /\
  NoDup (map snd (base_addresses (memoryMap uart_document))).
Proof.
  split; [reflexivity|].
  pose proof (memory_map_distinct_but_spiflash uart_document) as [_ [H _]].
  apply H. reflexivity.
Defined.

(** ** Documents without blocks *)

Lemma generateDesignPy_no_blocks (d : DesignData) :
  digitalBlocks d = [] -> generateDesignPy d = unlines minimal_lines.
Proof.
  intros H.
  rewrite (generateDesignPy_selected d (mkDesignData None None None)) by exact H.
  vm_compute. reflexivity.
Qed.

Lemma lines_minimal : lines (unlines minimal_lines) = minimal_lines.
Proof. vm_compute. reflexivity. Qed.

(** C4.  A document whose block list is empty or absent yields an artifact
    with no CPU section, no interface declaration and no instantiation of any
    IO kind, an empty IO section, and the baseline SRAM as its only memory: the
    submodules it adds are the bus fabric, the SRAM, the SoC id and the CSR
    bridge. *)
Theorem no_blocks_minimal_artifact :
  forall d : DesignData,
    allBlocks d = [] ->
    cpuCode d = EmptyString /\
    filter adds_cpu (lines (generateDesignPy d)) = [] /\
    interfaces d = [] /\
    (forall kind, In kind io_kinds ->
       interface_declarations kind (generateDesignPy d) = []) /\
    ioCode d = EmptyString /\
    (forall kind, In kind io_kinds -> instantiations kind (generateDesignPy d) = []) /\
    memoryCode d = memoryCode_sram /\
    filter adds_submodule (lines (generateDesignPy d)) =
      [ "        m.submodules.wb_arbiter  = wb_arbiter";
        "        m.submodules.wb_decoder  = wb_decoder";
        "        m.submodules.csr_decoder = csr_decoder";
        "        m.submodules.sram = sram";
        "        m.submodules.soc_id = soc_id";
        "        m.submodules.wb_to_csr = wb_to_csr" ].
Proof.
  intros d H. apply allBlocks_nil_digitalBlocks in H.
  assert (Hp : processors d = []) by (unfold processors; now rewrite H).
  assert (Hm : memory d = []) by (unfold memory; now rewrite H).
  assert (Hi : io d = []) by (unfold io; now rewrite H).
  unfold interface_declarations, instantiations.
  rewrite (generateDesignPy_no_blocks d H), lines_minimal.
  unfold cpuCode, interfaces, ioCode, memoryCode, cpu. rewrite Hp, Hm, Hi.
  repeat split; try reflexivity; intros kind Hk;
    repeat (destruct Hk as [<- | Hk]; [vm_compute; reflexivity|]); destruct Hk.
Qed.

Lemma no_blocks_minimal_artifact_witness :
  allBlocks empty_list_document = [] /\
  filter adds_submodule (lines (generateDesignPy empty_list_document)) =
    [ "        m.submodules.wb_arbiter  = wb_arbiter";
      "        m.submodules.wb_decoder  = wb_decoder";
      "        m.submodules.csr_decoder = csr_decoder";
      "        m.submodules.sram = sram";
      "        m.submodules.soc_id = soc_id";
      "        m.submodules.wb_to_csr = wb_to_csr" ].
Proof.
  split; [reflexivity|].
  pose proof (no_blocks_minimal_artifact empty_list_document eq_refl) as H.
  exact (proj2 (proj2 (proj2 (proj2 (proj2 (proj2 (proj2 H))))))).
Defined.

(** C5.  When neither [enabledBlocks] nor [digitalBlocks] is present the
    transform returns: every category is empty, there is no CPU, and the
    result is the minimal artifact. *)
Theorem missing_lists_minimal_artifact :
  forall d : DesignData,
    enabledBlocks d = None ->
    directDigitalBlocks d = None ->
    digitalBlocks d = [] /\
    processors d = [] /\ cpu d = None /\ memory d = [] /\ io d = [] /\ other d = [] /\
    generateDesignPy d = unlines minimal_lines.
Proof.
  intros [eb db cfg] He Hd. cbn in He, Hd. subst eb db.
  repeat split; vm_compute; reflexivity.
Qed.

Lemma missing_lists_minimal_artifact_witness :
  enabledBlocks empty_document = None /\
  directDigitalBlocks empty_document = None /\
  generateDesignPy empty_document = unlines minimal_lines.
Proof.
  split; [reflexivity|]. split; [reflexivity|].
  pose proof (missing_lists_minimal_artifact empty_document eq_refl eq_refl) as H.
  exact (proj2 (proj2 (proj2 (proj2 (proj2 (proj2 H)))))).
Defined.

(** ** CPU *)

(** C6.  At most one CPU is instantiated.  Without a processor-classified
    block there is none; otherwise there is exactly one and its code is chosen by
    the identifier of the first such block, whatever follows it: the CV32E40P
    template, with core, debug module and JTAG wiring, when that identifier
    contains [cv32e40p], and the Minerva template, the core alone, when it
    contains [minerva] only. *)
Theorem single_cpu_from_first_processor :
  forall d : DesignData,
    List.length (filter adds_cpu (lines (generateDesignPy d))) <= 1 /\
    (processors d = [] ->
       cpuCode d = EmptyString /\
       filter adds_cpu (lines (generateDesignPy d)) = []) /\
    (forall p rest,
       processors d = p :: rest ->
       filter adds_cpu (lines (generateDesignPy d)) = ["        m.submodules.cpu = cpu"] /\
       (includes (id p) "cv32e40p" = true -> cpuCode d = cpuCode_cv32e40p) /\
       (includes (id p) "cv32e40p" = false -> cpuCode d = cpuCode_minerva)) /\
    (mentions cpuCode_cv32e40p_lines "cpu = CV32E40P(" = true /\
     mentions cpuCode_cv32e40p_lines "debug = OBIDebugModule()" = true /\
     mentions cpuCode_cv32e40p_lines "debug.jtag_tck.eq(self.cpu_jtag.tck.i)" = true) /\
    (mentions cpuCode_minerva_lines "cpu = Minerva(" = true /\
     mentions cpuCode_minerva_lines "debug" = false /\
     mentions cpuCode_minerva_lines "jtag" = false).
Proof.
  intros d. rewrite adds_cpu_in_cpu_lines.
  split; [|split; [|split; [|split]]].
  - unfold cpu_lines.
    destruct (cpu_id_includes (cpu d) "cv32e40p"), (cpu_id_includes (cpu d) "minerva");
      vm_compute; lia.
  - intros H. unfold cpuCode, cpu. rewrite H. split; reflexivity.
  - intros p rest H. apply cpu_of_processors in H as [Hc Hp].
    unfold cpuCode, cpuCode_of, cpu_lines. rewrite Hc. cbn [cpu_id_includes].
    unfold is_processor in Hp.
    destruct (includes (id p) "cv32e40p"); cbn in Hp; [|rewrite Hp];
      (split; [vm_compute; reflexivity | split; intros; [reflexivity || discriminate | reflexivity || discriminate]]).
  - vm_compute. tauto.
  - vm_compute. tauto.
Qed.

Lemma single_cpu_from_first_processor_witness :
  processors two_cpu_document = [digital "minerva" None None; digital "cv32e40p" None None] /\
  includes (id (digital "minerva" None None)) "cv32e40p" = false /\
  cpuCode two_cpu_document = cpuCode_minerva.
Proof.
  split; [reflexivity|]. split; [reflexivity|].
  pose proof (single_cpu_from_first_processor two_cpu_document) as [_ [_ [H _]]].
  destruct (H _ _ eq_refl) as [_ [_ Hm]].
  apply Hm. reflexivity.
Defined.

(** ** The choice of the block list *)

(** C9.  When [enabledBlocks] is present, be it the empty list, the working
    set is [enabledBlocks] filtered by [type === "digital"], whatever
    [digitalBlocks] holds, and the artifact is the one of the same document
    without [digitalBlocks]; the [enabled] filter is what an absent
    [enabledBlocks] selects. *)
Theorem enabledBlocks_takes_precedence :
  forall (eb : list Block) (db : option (list Block)) (cfg : option string),
    allBlocks (mkDesignData (Some eb) db cfg) = eb /\
    digitalBlocks (mkDesignData (Some eb) db cfg) = filter type_is_digital eb /\
    generateDesignPy (mkDesignData (Some eb) db cfg) =
      generateDesignPy (mkDesignData (Some eb) None cfg) /\
    digitalBlocks (mkDesignData None db cfg) =
      filter enabled_truthy (match db with Some l => l | None => [] end).
Proof.
  intros eb db cfg. split; [reflexivity|]. split; [reflexivity|]. split.
  - now apply generateDesignPy_selected.
  - now destruct db.
Qed.

(** ** QSPI blocks *)

(** C10, as stated, fails: a block whose identifier contains [qspi] and also
    [gpio] is a memory block and an IO block, yet no SPI interface is declared
    for it: the interface stage takes the first keyword that matches, [gpio]. *)
Lemma qspi_block_without_spi_interface :
  In (digital "qspi_gpio" None None) (digitalBlocks qspi_gpio_document) /\
  includes (id (digital "qspi_gpio" None None)) "qspi" = true /\
  In (digital "qspi_gpio" None None) (memory qspi_gpio_document) /\
  In (digital "qspi_gpio" None None) (io qspi_gpio_document) /\
  interface_declarations "spi" (generateDesignPy qspi_gpio_document) = [] /\
  instantiations "spi" (generateDesignPy qspi_gpio_document) =
    ["        m.submodules.spi_0 = spi_0 = SPIPeripheral()"].
Proof.
  repeat split; try (vm_compute; reflexivity); left; reflexivity.
Qed.

(** C10, amended.  Every selected block whose identifier contains [qspi] is
    placed in the memory category and, [spi] being part of [qspi], in the IO
    category.  It brings the QSPI flash (import, flash interface, CSR base,
    instantiation, data attachment) and the SPI peripheral (import, CSR base
    and at least one instantiation); it brings an SPI interface declaration when
    its identifier contains neither [gpio] nor [uart], the keywords that the
    interface stage tests before [spi]. *)
Theorem qspi_block_is_memory_and_io :
  forall (d : DesignData) (b : Block),
    In b (digitalBlocks d) ->
    includes (id b) "qspi" = true ->
    In b (memory d) /\
    In b (io d) /\
    (In "from chipflow_digital_ip.memory import QSPIFlash" (lines (generateDesignPy d)) /\
     In flash_interface (interfaces d) /\
     In csr_spiflash_base (lines (generateDesignPy d)) /\
     (forall l, In l memoryCode_qspi_lines -> In l (lines (generateDesignPy d))) /\
     In attach_flash (lines (generateDesignPy d))) /\
    (imports_name (import_statements (generateDesignPy d)) "SPIPeripheral" = true /\
     In csr_spi_base (lines (generateDesignPy d)) /\
     instantiations "spi" (generateDesignPy d) <> []) /\
    (includes (id b) "gpio" = false ->
     includes (id b) "uart" = false ->
     interface_declarations "spi" (generateDesignPy d) <> []).
Proof.
  intros d b Hin Hqspi.
  pose proof (includes_qspi_spi _ Hqspi) as Hspi.
  assert (Hm : In b (memory d)).
  { apply filter_In. split; [assumption|]. unfold is_memory. rewrite Hqspi.
    now rewrite orb_true_r. }
  assert (Hi : In b (io d)).
  { apply filter_In. split; [assumption|]. unfold is_io. rewrite Hspi.
    now rewrite orb_true_r. }
  pose proof (some_id_In _ _ _ Hm Hqspi) as Hq.
  pose proof (some_id_In _ _ _ Hi Hspi) as Hs.
  split; [assumption|]. split; [assumption|]. split; [|split].
  - split; [|split; [|split; [|split]]].
    + in_section 0. unfold imports. cbv beta delta [imports_of]. rewrite Hq.
      in_flag_section d.
    + unfold interfaces, interfaces_of. apply fold_add_io_interfaces_keeps.
      rewrite Hq. destruct (cpu_id_includes (cpu d) "cv32e40p"); now left.
    + in_section 4. cbv beta delta [memoryMap_lines]. rewrite Hq. in_flag_section d.
    + intros l Hl. in_section 7. unfold memory_lines. rewrite Hq.
      right. apply in_or_app. now left.
    + in_section 10. unfold attach_lines. rewrite Hq. right. now left.
  - split; [|split].
    + rewrite import_statements_generateDesignPy. unfold imports.
      cbv beta delta [imports_of]. rewrite Hs.
      gen_flags (memory d) (io d) (cpu d). all_flags.
    + in_section 4. cbv beta delta [memoryMap_lines]. rewrite Hs. in_flag_section d.
    + rewrite spi_instantiations.
      assert (Hb : In b (filter (fun b => includes (id b) "spi") (io d)))
        by (apply filter_In; now split).
      pose proof (spi_instances_pos _ _ Hb) as Hpos.
      destruct (spi_instances _); [lia | discriminate].
  - intros Hg Hu. rewrite interface_declarations_in_interface_lines.
    destruct (spi_block_declares_spi (memory d) (io d) (cpu d) b Hi Hg Hu Hspi) as [i Hdecl].
    exact (spi_interface_declared _ i Hdecl).
Qed.

Lemma qspi_block_is_memory_and_io_witness :
  In (digital "qspi" None None) (digitalBlocks qspi_document) /\
  includes (id (digital "qspi" None None)) "qspi" = true /\
  includes (id (digital "qspi" None None)) "gpio" = false /\
  includes (id (digital "qspi" None None)) "uart" = false /\
  interface_declarations "spi" (generateDesignPy qspi_document) <> [].
Proof.
  assert (Hin : In (digital "qspi" None None) (digitalBlocks qspi_document))
    by (left; reflexivity).
  split; [exact Hin|]. repeat (split; [reflexivity|]).
  pose proof (qspi_block_is_memory_and_io qspi_document _ Hin eq_refl) as H.
  exact (proj2 (proj2 (proj2 (proj2 H))) eq_refl eq_refl).
Defined.

(** ** The scenarios of the specification *)

(** A CV32E40P core and a GPIO block of [count] 2 and [bitSize] 4: the JTAG
    interface, two GPIO interfaces of 4 pins, the CV32E40P import, and no base
    address for the flash, SPI or I2C registers. *)
Example scenario_cv32e40p_gpio :
  interfaces cv32e40p_gpio_document =
    [cpu_jtag_interface; gpio_interface 0 (Some 4%N); gpio_interface 1 (Some 4%N)] /\
  In "from chipflow_digital_ip.processors import CV32E40P, OBIDebugModule"
     (imports cv32e40p_gpio_document) /\
  map fst (base_addresses (memoryMap cv32e40p_gpio_document)) =
    ["mem_spiflash_base"; "mem_sram_base"; "debug_base"; "csr_base";
     "csr_gpio_base"; "csr_uart_base"; "csr_soc_id_base"].
Proof. repeat split; vm_compute; tauto. Qed.

(** The other shape of document, with one enabled UART: one UART interface and
    one UART fragment, both of index 0. *)
Example scenario_enabled_uart :
  interfaces enabled_uart_document = [uart_interface 0] /\
  ioCode enabled_uart_document = uart_fragment 0 /\
  instantiations "uart" (generateDesignPy enabled_uart_document) =
    ["        m.submodules.uart_0 = uart_0 = UARTPeripheral(init_divisor=int(25e6//115200), addr_width=5)"].
Proof. repeat split; vm_compute; reflexivity. Qed.

(** * Further properties of the generator *)

(** ** Selection *)

Lemma filter_filter_implied {A : Type} (P Q : A -> bool) (l : list A) :
  (forall x, P x = true -> Q x = true) -> filter P (filter Q l) = filter P l.
Proof.
  intros H. induction l as [|x l IH]; [reflexivity|].
  cbn [filter]. destruct (Q x) eqn:EQ; cbn [filter].
  - now rewrite IH.
  - destruct (P x) eqn:EP; [|exact IH].
    apply H in EP. congruence.
Qed.

(** X1.  The two shapes of document agree: a list whose blocks are of type
    [digital] exactly when they are enabled yields the same artifact as
    [enabledBlocks] and as [digitalBlocks]. *)
Theorem document_shapes_agree :
  forall (blocks : list Block) (db : option (list Block)) (cfg cfg' : option string),
    (forall b, In b blocks -> type_is_digital b = enabled_truthy b) ->
    generateDesignPy (mkDesignData (Some blocks) db cfg) =
    generateDesignPy (mkDesignData None (Some blocks) cfg').
Proof.
  intros blocks db cfg cfg' H. apply generateDesignPy_selected.
  rewrite digitalBlocks_enabledBlocks, digitalBlocks_directDigitalBlocks.
  now apply filter_ext_in.
Qed.

Lemma document_shapes_agree_witness :
  (forall b, In b [mkBlock "uart0" (Some "digital") (Some true) None None;
                   mkBlock "gpio0" (Some "analog") (Some false) None None] ->
             type_is_digital b = enabled_truthy b) /\
  generateDesignPy
    (mkDesignData (Some [mkBlock "uart0" (Some "digital") (Some true) None None;
                         mkBlock "gpio0" (Some "analog") (Some false) None None])
                  None None) =
  generateDesignPy
    (mkDesignData None
                  (Some [mkBlock "uart0" (Some "digital") (Some true) None None;
                         mkBlock "gpio0" (Some "analog") (Some false) None None])
                  None).
Proof.
  assert (H : forall b, In b [mkBlock "uart0" (Some "digital") (Some true) None None;
                              mkBlock "gpio0" (Some "analog") (Some false) None None] ->
                        type_is_digital b = enabled_truthy b).
  { intros b [<- | [<- | []]]; reflexivity. }
  split; [exact H|].
  exact (document_shapes_agree _ None None None H).
Defined.

(** ** What the generator reads of a block *)

Lemma num_or_num_or (v : option N) (d : N) :
  d <> 0%N -> num_or (Some (num_or v d)) d = num_or v d.
Proof.
  intros Hd. unfold num_or. destruct v as [n|].
  - destruct (N.eqb_spec n 0) as [E|E].
    + apply N.eqb_neq in Hd. now rewrite Hd.
    + apply N.eqb_neq in E. now rewrite E.
  - apply N.eqb_neq in Hd. now rewrite Hd.
Qed.

Lemma num_or_opt_or (v w : option N) :
  w = Some 8%N \/ w = None -> num_or (opt_or v w) 8 = num_or v 8.
Proof.
  intros Hw. unfold num_or, opt_or. destruct v as [n|].
  - destruct (N.eqb_spec n 0) as [E|E].
    + destruct Hw as [-> | ->]; reflexivity.
    + apply N.eqb_neq in E. now rewrite E.
  - destruct Hw as [-> | ->]; reflexivity.
Qed.

Lemma gpio_interface_bitSize (i : nat) (v w : option N) :
  num_or v 8 = num_or w 8 -> gpio_interface i v = gpio_interface i w.
Proof. unfold gpio_interface. now intros ->. Qed.

Lemma existsb_map {A B : Type} (f : B -> bool) (g : A -> B) (l : list A) :
  existsb f (map g l) = existsb (fun x => f (g x)) l.
Proof. induction l as [|x l IH]; [reflexivity|]. cbn. now rewrite IH. Qed.

Lemma filter_map_commute {A : Type} (P : A -> bool) (g : A -> A) (l : list A) :
  (forall x, P (g x) = P x) -> filter P (map g l) = map g (filter P l).
Proof.
  intros H. induction l as [|x l IH]; [reflexivity|].
  cbn [map filter]. rewrite H. destruct (P x); cbn [map]; now rewrite IH.
Qed.

Lemma indexed_from_map {A B : Type} (g : A -> B) (l : list A) :
  forall k, indexed_from k (map g l) =
            map (fun ix : nat * A => (fst ix, g (snd ix))) (indexed_from k l).
Proof. induction l as [|x l IH]; intros k; [reflexivity|]. cbn. now rewrite IH. Qed.

Lemma some_id_normal (l : list Block) (kw : string) :
  some_id (map normal l) kw = some_id l kw.
Proof. unfold some_id. now rewrite existsb_map. Qed.

Lemma cpu_id_includes_normal (c : option Block) (kw : string) :
  cpu_id_includes (option_map normal c) kw = cpu_id_includes c kw.
Proof. now destruct c. Qed.

Lemma hd_error_map {A B : Type} (g : A -> B) (l : list A) :
  hd_error (map g l) = option_map g (hd_error l).
Proof. now destruct l. Qed.

Lemma add_io_interfaces_normal (interfaces : list string) (block : Block) :
  add_io_interfaces interfaces (normal block) = add_io_interfaces interfaces block.
Proof.
  unfold add_io_interfaces. cbn [normal id count bitSize].
  rewrite num_or_num_or by discriminate.
  destruct (includes (id block) "gpio"); [|reflexivity].
  rewrite !fold_left_push. f_equal. apply map_ext. intros i.
  apply gpio_interface_bitSize.
  rewrite !num_or_opt_or by (now left). apply num_or_num_or. discriminate.
Qed.

Lemma fold_add_io_interfaces_normal (io : list Block) :
  forall interfaces,
    fold_left add_io_interfaces (map normal io) interfaces =
    fold_left add_io_interfaces io interfaces.
Proof.
  induction io as [|b io IH]; intros interfaces; [reflexivity|].
  cbn [map fold_left]. now rewrite add_io_interfaces_normal, IH.
Qed.

Lemma spi_instances_normal (l : list Block) :
  spi_instances (map normal l) = spi_instances l.
Proof.
  unfold spi_instances. rewrite map_map. f_equal. apply map_ext. intros b.
  cbn [normal count]. now rewrite num_or_num_or by discriminate.
Qed.

Lemma io_bodies_normal (io : list Block) : io_bodies (map normal io) = io_bodies io.
Proof.
  unfold io_bodies.
  rewrite !(filter_map_commute _ normal) by reflexivity.
  rewrite !indexed_from_map, !map_map, spi_instances_normal.
  cbn [fst snd normal bitSize].
  f_equal. apply map_ext. intros [k b]. cbn [fst snd].
  now rewrite num_or_num_or by discriminate.
Qed.

Lemma ioCode_of_normal (io : list Block) : ioCode_of (map normal io) = ioCode_of io.
Proof. rewrite !ioCode_of_fragments. unfold io_fragments. now rewrite io_bodies_normal. Qed.

(** A document and its normal form yield the same artifact. *)
Lemma generateDesignPy_normal_document (d : DesignData) :
  generateDesignPy (normal_document d) = generateDesignPy d.
Proof.
  assert (Hd : digitalBlocks (normal_document d) = map normal (digitalBlocks d)).
  { unfold normal_document. rewrite digitalBlocks_directDigitalBlocks.
    apply forallb_filter_id. apply forallb_forall. intros b Hb.
    apply in_map_iff in Hb as [b0 [<- _]]. reflexivity. }
  assert (Hm : memory (normal_document d) = map normal (memory d)).
  { unfold memory. rewrite Hd. now apply filter_map_commute. }
  assert (Hi : io (normal_document d) = map normal (io d)).
  { unfold io. rewrite Hd. now apply filter_map_commute. }
  assert (Hc : cpu (normal_document d) = option_map normal (cpu d)).
  { unfold cpu, processors. rewrite Hd, filter_map_commute by reflexivity.
    apply hd_error_map. }
  unfold generateDesignPy, imports, interfaces, memoryMap, cpuCode, memoryCode, ioCode.
  rewrite Hm, Hi, Hc, ioCode_of_normal.
  assert (E1 : imports_of (map normal (memory d)) (map normal (io d))
                          (option_map normal (cpu d)) =
               imports_of (memory d) (io d) (cpu d)).
  { cbv beta delta [imports_of].
    now rewrite !some_id_normal, !cpu_id_includes_normal, length_map. }
  assert (E2 : interfaces_of (map normal (memory d)) (map normal (io d))
                             (option_map normal (cpu d)) =
               interfaces_of (memory d) (io d) (cpu d)).
  { unfold interfaces_of.
    now rewrite fold_add_io_interfaces_normal, some_id_normal, cpu_id_includes_normal. }
  assert (E3 : memoryMap_of (map normal (memory d)) (map normal (io d)) =
               memoryMap_of (memory d) (io d)).
  { unfold memoryMap_of. now rewrite !some_id_normal. }
  assert (E4 : cpuCode_of (option_map normal (cpu d)) = cpuCode_of (cpu d)).
  { unfold cpuCode_of. now rewrite !cpu_id_includes_normal. }
  assert (E5 : memoryCode_of (map normal (memory d)) = memoryCode_of (memory d)).
  { unfold memoryCode_of. now rewrite some_id_normal. }
  rewrite E1, E2, E3, E4, E5. unfold designPy_of. now rewrite some_id_normal.
Qed.

Lemma normal_of_reading (l1 l2 : list Block) :
  map reading l1 = map reading l2 -> map normal l1 = map normal l2.
Proof.
  intros H.
  assert (E : forall l, map normal l =
                map (fun r : string * N * N =>
                       mkBlock (fst (fst r)) None (Some true) (Some (snd (fst r))) (Some (snd r)))
                    (map reading l)).
  { intros l. rewrite map_map. now apply map_ext. }
  now rewrite (E l1), (E l2), H.
Qed.

(** X2.  The artifact is a function of what the generator reads of the
    selected blocks, in their order: the identifier, [count || 1] and
    [bitSize || 8] of each.  A [count] of 0 is a [count] of 1, a [bitSize] of 0
    is one of 8, and neither [config] nor any other property of a selected block
    is consulted. *)
Theorem artifact_of_readings :
  forall d1 d2 : DesignData,
    map reading (digitalBlocks d1) = map reading (digitalBlocks d2) ->
    generateDesignPy d1 = generateDesignPy d2.
Proof.
  intros d1 d2 H.
  rewrite <- (generateDesignPy_normal_document d1), <- (generateDesignPy_normal_document d2).
  unfold normal_document. now rewrite (normal_of_reading _ _ H).
Qed.

Lemma artifact_of_readings_witness :
  map reading (digitalBlocks
    (mkDesignData (Some [mkBlock "gpio" (Some "digital") None (Some 0%N) (Some 0%N)])
                  None (Some "a"))) =
  map reading (digitalBlocks
    (mkDesignData None (Some [mkBlock "gpio" None (Some true) (Some 1%N) (Some 8%N)])
                  None)) /\
  generateDesignPy
    (mkDesignData (Some [mkBlock "gpio" (Some "digital") None (Some 0%N) (Some 0%N)])
                  None (Some "a")) =
  generateDesignPy
    (mkDesignData None (Some [mkBlock "gpio" None (Some true) (Some 1%N) (Some 8%N)])
                  None).
Proof.
  split; [reflexivity|].
  exact (artifact_of_readings _ _ eq_refl).
Defined.

(** ** Blocks that no category claims *)

Lemma filter_classified (P : Block -> bool) (l : list Block) :
  (forall b, P b = true -> classified b = true) ->
  filter P l = filter P (filter classified l).
Proof. intros H. symmetry. now apply filter_filter_implied. Qed.

(** X4.  The artifact is a function of the selected blocks that some category
    claims: a block whose identifier holds none of the keywords leaves no trace
    in it. *)
Theorem unclassified_blocks_leave_no_trace :
  forall d1 d2 : DesignData,
    filter classified (digitalBlocks d1) = filter classified (digitalBlocks d2) ->
    generateDesignPy d1 = generateDesignPy d2.
Proof.
  intros d1 d2 H.
  assert (Hp : processors d1 = processors d2).
  { unfold processors. rewrite (filter_classified is_processor (digitalBlocks d1)),
      (filter_classified is_processor (digitalBlocks d2)), H; [reflexivity | |];
      intros b Hb; unfold classified; now rewrite Hb. }
  assert (Hm : memory d1 = memory d2).
  { unfold memory. rewrite (filter_classified is_memory (digitalBlocks d1)),
      (filter_classified is_memory (digitalBlocks d2)), H; [reflexivity | |];
      intros b Hb; unfold classified; rewrite Hb; now rewrite orb_true_r. }
  assert (Hi : io d1 = io d2).
  { unfold io. rewrite (filter_classified is_io (digitalBlocks d1)),
      (filter_classified is_io (digitalBlocks d2)), H; [reflexivity | |];
      intros b Hb; unfold classified; rewrite Hb; now rewrite orb_true_r. }
  unfold generateDesignPy, imports, interfaces, memoryMap, cpuCode, memoryCode, ioCode, cpu.
  now rewrite Hp, Hm, Hi.
Qed.

Lemma unclassified_blocks_leave_no_trace_witness :
  filter classified (digitalBlocks
    (mkDesignData (Some [digital "timer" None None; digital "uart0" None None;
                         digital "pwm" (Some 3%N) None]) None None)) =
  filter classified (digitalBlocks uart_document) /\
  generateDesignPy
    (mkDesignData (Some [digital "timer" None None; digital "uart0" None None;
                         digital "pwm" (Some 3%N) None]) None None) =
  generateDesignPy uart_document.
Proof.
  split; [reflexivity|].
  exact (unclassified_blocks_leave_no_trace _ _ eq_refl).
Defined.

(** ** The order of the blocks *)

Lemma filter_swap {A : Type} (P : A -> bool) (l1 l2 : list A) (a b : A) :
  P a && P b = false ->
  filter P (l1 ++ a :: b :: l2) = filter P (l1 ++ b :: a :: l2).
Proof.
  intros H. rewrite !filter_app. cbn [filter].
  destruct (P a), (P b); try reflexivity. discriminate.
Qed.

Lemma filter_filter_swap {A : Type} (P Q : A -> bool) (l1 l2 : list A) (a b : A) :
  Q a && Q b = false ->
  filter Q (filter P (l1 ++ a :: b :: l2)) = filter Q (filter P (l1 ++ b :: a :: l2)).
Proof.
  intros H. rewrite !filter_app. cbn [filter].
  destruct (P a), (P b), (Q a) eqn:Ea, (Q b) eqn:Eb; cbn [filter];
    rewrite ?Ea, ?Eb; try reflexivity; discriminate.
Qed.

Lemma some_id_filter_swap (P : Block -> bool) (l1 l2 : list Block) (a b : Block)
    (kw : string) :
  some_id (filter P (l1 ++ a :: b :: l2)) kw = some_id (filter P (l1 ++ b :: a :: l2)) kw.
Proof.
  unfold some_id. rewrite !filter_app, !existsb_app. cbn [filter].
  destruct (P a), (P b); cbn [existsb]; try reflexivity.
  f_equal. now rewrite !orb_assoc, (orb_comm (includes (id a) kw)).
Qed.

Lemma length_filter_swap {A : Type} (P : A -> bool) (l1 l2 : list A) (a b : A) :
  List.length (filter P (l1 ++ a :: b :: l2)) = List.length (filter P (l1 ++ b :: a :: l2)).
Proof.
  rewrite !filter_app, !length_app. cbn [filter].
  destruct (P a), (P b); reflexivity.
Qed.

(** X5.  Two neighbouring blocks that share no IO keyword and are not both
    processors can change places: the import section, the memory map and the
    CPU, memory and IO sections stay as they are.  The IO section is grouped by
    kind, whatever the order of the document; the interface list alone follows
    that order. *)
Theorem sections_keep_across_kinds :
  forall (d d' : DesignData) (l1 l2 : list Block) (a b : Block),
    digitalBlocks d = (l1 ++ a :: b :: l2)%list ->
    digitalBlocks d' = (l1 ++ b :: a :: l2)%list ->
    (forall kw, In kw io_kinds -> includes (id a) kw && includes (id b) kw = false) ->
    is_processor a && is_processor b = false ->
    imports d = imports d' /\
    memoryMap d = memoryMap d' /\
    cpuCode d = cpuCode d' /\
    memoryCode d = memoryCode d' /\
    ioCode d = ioCode d'.
Proof.
  intros d d' l1 l2 a b Hd Hd' Hio Hp.
  assert (Hc : cpu d = cpu d').
  { unfold cpu, processors. rewrite Hd, Hd'. now rewrite (filter_swap is_processor). }
  assert (Hm : forall kw, some_id (memory d) kw = some_id (memory d') kw).
  { intros kw. unfold memory. rewrite Hd, Hd'. apply some_id_filter_swap. }
  assert (Hl : List.length (memory d) = List.length (memory d')).
  { unfold memory. rewrite Hd, Hd'. apply length_filter_swap. }
  assert (Hi : forall kw, some_id (io d) kw = some_id (io d') kw).
  { intros kw. unfold io. rewrite Hd, Hd'. apply some_id_filter_swap. }
  assert (Hk : forall kw, In kw io_kinds ->
                filter (fun x => includes (id x) kw) (io d) =
                filter (fun x => includes (id x) kw) (io d')).
  { intros kw Hkw. unfold io. rewrite Hd, Hd'.
    apply (filter_filter_swap is_io (fun x => includes (id x) kw)). now apply Hio. }
  repeat split.
  - unfold imports. cbv beta delta [imports_of]. now rewrite !Hm, !Hi, Hl, Hc.
  - unfold memoryMap, memoryMap_of. now rewrite !Hm, !Hi.
  - unfold cpuCode. now rewrite Hc.
  - unfold memoryCode, memoryCode_of. now rewrite Hm.
  - unfold ioCode. rewrite !ioCode_of_fragments. unfold io_fragments, io_bodies.
    now rewrite (Hk "gpio"), (Hk "uart"), (Hk "spi"), (Hk "i2c") by (cbn; tauto).
Qed.

Lemma sections_keep_across_kinds_witness :
  digitalBlocks uart_gpio_document =
    ([] ++ digital "uart0" None None :: digital "gpio0" None None :: [])%list /\
  digitalBlocks gpio_uart_document =
    ([] ++ digital "gpio0" None None :: digital "uart0" None None :: [])%list /\
  (forall kw, In kw io_kinds ->
     includes (id (digital "uart0" None None)) kw &&
     includes (id (digital "gpio0" None None)) kw = false) /\
  is_processor (digital "uart0" None None) && is_processor (digital "gpio0" None None) = false /\
  ioCode uart_gpio_document = ioCode gpio_uart_document.
Proof.
  assert (Hio : forall kw, In kw io_kinds ->
                  includes (id (digital "uart0" None None)) kw &&
                  includes (id (digital "gpio0" None None)) kw = false).
  { intros kw [<- | [<- | [<- | [<- | []]]]]; reflexivity. }
  split; [reflexivity|]. split; [reflexivity|]. split; [exact Hio|]. split; [reflexivity|].
  pose proof (sections_keep_across_kinds uart_gpio_document gpio_uart_document
                [] [] _ _ eq_refl eq_refl Hio eq_refl) as H.
  exact (proj2 (proj2 (proj2 (proj2 H)))).
Defined.

(** ** The import section *)

(** X6.  The import section opens with the same eight lines for every
    document and closes with the platform import, which always brings
    [attach_data] and [SoftwareBuild].  Of the three empty strings that seed
    the set only the first is kept: the section has one blank line, its
    second. *)
Theorem imports_fixed_lines :
  forall d : DesignData,
    firstn 8 (imports d) =
      [ "from pathlib import Path";
        EmptyString;
        "from amaranth import Module";
        "from amaranth.lib import wiring";
        "from amaranth.lib.wiring import Out, flipped, connect";
        "from amaranth_soc import csr, wishbone";
        "from amaranth_soc.csr.wishbone import WishboneCSRBridge";
        "from chipflow_digital_ip.base import SoCID" ] /\
    occurrences (imports d) EmptyString = 1 /\
    startsWith (last (imports d) EmptyString)
               "from chipflow_lib.platforms import attach_data, SoftwareBuild" = true.
Proof.
  intros d. unfold imports. split; [|split].
  - apply list_string_eqb_eq. cbv beta delta [imports_of].
    gen_flags (memory d) (io d) (cpu d). all_flags.
  - apply Nat.eqb_eq. cbv beta delta [imports_of].
    gen_flags (memory d) (io d) (cpu d). all_flags.
  - cbv beta delta [imports_of].
    gen_flags (memory d) (io d) (cpu d). all_flags.
Qed.

(** ** Where a declaration comes from *)

Lemma fold_add_io_interfaces_In (blocks : list Block) :
  forall interfaces x,
    In x (fold_left add_io_interfaces blocks interfaces) ->
    In x interfaces \/ exists k b, In b blocks /\ In x (block_interfaces k b).
Proof.
  induction blocks as [|b blocks IH]; intros interfaces x H; [now left|].
  cbn [fold_left] in H. apply IH in H as [H | [k [b' [Hb' Hx]]]].
  - rewrite add_io_interfaces_app in H. apply in_app_or in H as [H | H]; [now left|].
    right. eexists _, b. split; [now left | exact H].
  - right. exists k, b'. split; [now right | exact Hx].
Qed.

(** A declaration is the flash interface of a QSPI flash, the JTAG interface
    of a CV32E40P, or one of the declarations of an IO block. *)
Lemma interfaces_In (d : DesignData) (x : string) :
  In x (interfaces d) ->
  (x = flash_interface /\ some_id (memory d) "qspi" = true) \/
  (x = cpu_jtag_interface /\ cpu_id_includes (cpu d) "cv32e40p" = true) \/
  (exists k b, In b (io d) /\ In x (block_interfaces k b)).
Proof.
  unfold interfaces, interfaces_of. intros H.
  apply fold_add_io_interfaces_In in H as [H | H]; [|now right; right].
  destruct (some_id (memory d) "qspi"), (cpu_id_includes (cpu d) "cv32e40p");
    cbn in H; intuition.
Qed.

Lemma interface_lines_inv (interfaces : list string) (l : string) :
  In l (interface_lines interfaces) ->
  (l = EmptyString /\ interfaces = []) \/
  exists x, In x interfaces /\ (l = "            " ++ x \/ l = "            " ++ x ++ ",").
Proof.
  induction interfaces as [|x rest IH]; cbn [interface_lines].
  - intros [<- | []]. now left.
  - destruct rest as [|y rest].
    + intros [<- | []]. right. exists x. split; [now left | now left].
    + intros [<- | H].
      * right. exists x. split; [now left | now right].
      * apply IH in H as [[_ H] | [z [Hz Hl]]]; [discriminate|].
        right. exists z. split; [now right | exact Hl].
Qed.

Lemma some_id_filter (l : list Block) (kw : string) :
  some_id l kw = true <-> filter (fun b => includes (id b) kw) l <> [].
Proof.
  unfold some_id. induction l as [|b l IH]; cbn [existsb filter].
  - split; [discriminate | congruence].
  - destruct (includes (id b) kw); cbn [orb]; [split; [discriminate | reflexivity] | exact IH].
Qed.

Lemma indexed_from_nil {A : Type} (l : list A) (k : nat) : indexed_from k l = [] <-> l = [].
Proof. destruct l; cbn; split; congruence. Qed.

Lemma map_nil_iff {A B : Type} (f : A -> B) (l : list A) : map f l = [] <-> l = [].
Proof. destruct l; cbn; split; congruence. Qed.

Lemma spi_instances_zero (l : list Block) : spi_instances l = 0 <-> l = [].
Proof.
  destruct l as [|b l]; [split; reflexivity|].
  pose proof (spi_instances_pos (b :: l) b (or_introl eq_refl)).
  split; [lia | discriminate].
Qed.

Lemma seq_nil_iff (s n : nat) : seq s n = [] <-> n = 0.
Proof. destruct n; cbn; split; congruence. Qed.

(** An IO kind is instantiated exactly when some IO block has its keyword. *)
Lemma instantiated_iff (d : DesignData) :
  (instantiations "gpio" (generateDesignPy d) <> [] <-> some_id (io d) "gpio" = true) /\
  (instantiations "uart" (generateDesignPy d) <> [] <-> some_id (io d) "uart" = true) /\
  (instantiations "spi" (generateDesignPy d) <> [] <-> some_id (io d) "spi" = true) /\
  (instantiations "i2c" (generateDesignPy d) <> [] <-> some_id (io d) "i2c" = true).
Proof.
  rewrite gpio_instantiations, uart_instantiations, spi_instantiations, i2c_instantiations.
  rewrite !some_id_filter.
  repeat split; intros H E; apply H; clear H;
    rewrite ?map_nil_iff, ?indexed_from_nil, ?seq_nil_iff, ?spi_instances_zero in *;
    assumption.
Qed.

(** ** Imports and what uses them *)

(** Settles an equation between Booleans that depend on the tested conditions
    alone. *)
Ltac same_flag d :=
  apply Bool.eqb_prop; gen_flags (memory d) (io d) (cpu d); all_flags.

(** The names which the import statements bring under each condition. *)
Lemma imported_names_by_condition (d : DesignData) :
  let stmts := import_statements (generateDesignPy d) in
  (imports_name stmts "GPIOPeripheral" = some_id (io d) "gpio" /\
   imports_name stmts "UARTPeripheral" = some_id (io d) "uart" /\
   imports_name stmts "SPIPeripheral" = some_id (io d) "spi" /\
   imports_name stmts "I2CPeripheral" = some_id (io d) "i2c") /\
  (imports_name stmts "GPIOSignature" = some_id (io d) "gpio" /\
   imports_name stmts "UARTSignature" = some_id (io d) "uart" /\
   imports_name stmts "SPISignature" = some_id (io d) "spi" /\
   imports_name stmts "I2CSignature" = some_id (io d) "i2c") /\
  (imports_name stmts "QSPIFlash" = some_id (memory d) "qspi" /\
   imports_name stmts "QSPIFlashSignature" = some_id (memory d) "qspi" /\
   imports_name stmts "HyperRAM" = some_id (memory d) "hyperram") /\
  (imports_name stmts "JTAGSignature" = cpu_id_includes (cpu d) "cv32e40p" /\
   imports_name stmts "OBIDebugModule" = cpu_id_includes (cpu d) "cv32e40p" /\
   imports_name stmts "CV32E40P" = cpu_id_includes (cpu d) "cv32e40p" /\
   imports_name stmts "Minerva" =
     negb (cpu_id_includes (cpu d) "cv32e40p") && cpu_id_includes (cpu d) "minerva").
Proof.
  cbv zeta. rewrite import_statements_generateDesignPy. unfold imports.
  cbv beta delta [imports_of].
  repeat split; same_flag d.
Qed.

(** X7.  A peripheral class is imported exactly when a peripheral of its kind
    is instantiated: the IO import line names the kinds that have an
    instantiation fragment, and no other. *)
Theorem peripheral_imported_iff_instantiated :
  forall d : DesignData,
    (imports_name (import_statements (generateDesignPy d)) "GPIOPeripheral" = true <->
     instantiations "gpio" (generateDesignPy d) <> []) /\
    (imports_name (import_statements (generateDesignPy d)) "UARTPeripheral" = true <->
     instantiations "uart" (generateDesignPy d) <> []) /\
    (imports_name (import_statements (generateDesignPy d)) "SPIPeripheral" = true <->
     instantiations "spi" (generateDesignPy d) <> []) /\
    (imports_name (import_statements (generateDesignPy d)) "I2CPeripheral" = true <->
     instantiations "i2c" (generateDesignPy d) <> []).
Proof.
  intros d.
  destruct (imported_names_by_condition d) as [[Hg [Hu [Hs Hi]]] _].
  destruct (instantiated_iff d) as [Ig [Iu [Is Ii]]].
  rewrite Hg, Hu, Hs, Hi, Ig, Iu, Is, Ii. repeat split; auto.
Qed.

Lemma after_skip (a b : string) (c : ascii) (m : string) :
  has_char c a = false -> after (a ++ b) (String c m) = after b (String c m).
Proof.
  induction a as [|x a IH]; [reflexivity|].
  cbn [has_char]. intros H. apply orb_false_iff in H as [Hx Ha].
  cbn [append after startsWith]. rewrite Ascii.eqb_sym, Hx. cbn [andb].
  exact (IH Ha).
Qed.

Lemma signature_of_gpio (i : nat) (b : option N) :
  signature_of (gpio_interface i b) = Some "GPIOSignature".
Proof.
  unfold signature_of, gpio_interface.
  change (dq ++ "gpio_" ++ str_nat i ++ dq ++ ": Out(GPIOSignature(pin_count=" ++
          str_N (num_or b 8) ++ "))")
    with ((dq ++ "gpio_") ++ str_nat i ++ (dq ++ ": ") ++
          "Out(GPIOSignature(pin_count=" ++ str_N (num_or b 8) ++ "))").
  rewrite 3!after_skip by no_char. reflexivity.
Qed.

Lemma signature_of_uart (i : nat) : signature_of (uart_interface i) = Some "UARTSignature".
Proof.
  unfold signature_of, uart_interface.
  change (dq ++ "uart_" ++ str_nat i ++ dq ++ ": Out(UARTSignature())")
    with ((dq ++ "uart_") ++ str_nat i ++ (dq ++ ": ") ++ "Out(UARTSignature())").
  rewrite 3!after_skip by no_char. reflexivity.
Qed.

Lemma signature_of_spi (i : nat) : signature_of (spi_interface i) = Some "SPISignature".
Proof.
  unfold signature_of, spi_interface.
  change (dq ++ "spi_" ++ str_nat i ++ dq ++ ": Out(SPISignature())")
    with ((dq ++ "spi_") ++ str_nat i ++ (dq ++ ": ") ++ "Out(SPISignature())").
  rewrite 3!after_skip by no_char. reflexivity.
Qed.

Lemma signature_of_i2c (i : nat) : signature_of (i2c_interface i) = Some "I2CSignature".
Proof.
  unfold signature_of, i2c_interface.
  change (dq ++ "i2c_" ++ str_nat i ++ dq ++ ": Out(I2CSignature())")
    with ((dq ++ "i2c_") ++ str_nat i ++ (dq ++ ": ") ++ "Out(I2CSignature())").
  rewrite 3!after_skip by no_char. reflexivity.
Qed.

(** The declarations of an IO block name the signature of the first keyword,
    in the order [gpio], [uart], [spi], [i2c], that its identifier holds. *)
Lemma block_interfaces_signature (k : nat) (b : Block) (x : string) :
  In x (block_interfaces k b) ->
  (includes (id b) "gpio" = true /\ signature_of x = Some "GPIOSignature") \/
  (includes (id b) "uart" = true /\ signature_of x = Some "UARTSignature") \/
  (includes (id b) "spi" = true /\ signature_of x = Some "SPISignature") \/
  (includes (id b) "i2c" = true /\ signature_of x = Some "I2CSignature").
Proof.
  unfold block_interfaces.
  destruct (includes (id b) "gpio");
    [intros H; apply in_map_iff in H as [i [<- _]]; left; split;
       [reflexivity | apply signature_of_gpio]|].
  destruct (includes (id b) "uart");
    [intros H; apply in_map_iff in H as [i [<- _]]; right; left; split;
       [reflexivity | apply signature_of_uart]|].
  destruct (includes (id b) "spi");
    [intros H; apply in_map_iff in H as [i [<- _]]; right; right; left; split;
       [reflexivity | apply signature_of_spi]|].
  destruct (includes (id b) "i2c"); [|contradiction].
  intros H; apply in_map_iff in H as [i [<- _]]. right; right; right. split;
    [reflexivity | apply signature_of_i2c].
Qed.

(** X8.  Every interface declaration names a signature class, and the platform
    import brings it. *)
Theorem declared_signature_imported :
  forall (d : DesignData) (x : string),
    In x (interfaces d) ->
    exists S, signature_of x = Some S /\
              imports_name (import_statements (generateDesignPy d)) S = true.
Proof.
  intros d x H.
  destruct (imported_names_by_condition d)
    as [_ [[Hg [Hu [Hs Hi]]] [[_ [Hq _]] [Hj _]]]].
  apply interfaces_In in H as [[-> Hf] | [[-> Hc] | [k [b [Hb Hx]]]]].
  - exists "QSPIFlashSignature". split; [reflexivity|]. now rewrite Hq.
  - exists "JTAGSignature". split; [reflexivity|]. now rewrite Hj.
  - apply block_interfaces_signature in Hx
      as [[Hk Hx] | [[Hk Hx] | [[Hk Hx] | [Hk Hx]]]];
      eexists; (split; [exact Hx|]).
    + rewrite Hg. exact (some_id_In _ _ _ Hb Hk).
    + rewrite Hu. exact (some_id_In _ _ _ Hb Hk).
    + rewrite Hs. exact (some_id_In _ _ _ Hb Hk).
    + rewrite Hi. exact (some_id_In _ _ _ Hb Hk).
Qed.

Lemma declared_signature_imported_witness :
  In (gpio_interface 1 (Some 4%N)) (interfaces cv32e40p_gpio_document) /\
  exists S, signature_of (gpio_interface 1 (Some 4%N)) = Some S /\
            imports_name (import_statements (generateDesignPy cv32e40p_gpio_document)) S = true.
Proof.
  assert (H : In (gpio_interface 1 (Some 4%N)) (interfaces cv32e40p_gpio_document))
    by (right; right; left; reflexivity).
  split; [exact H|].
  exact (declared_signature_imported cv32e40p_gpio_document _ H).
Defined.

(** ** How many declarations *)

Lemma block_interfaces_length (k : nat) (b : Block) :
  is_io b = true ->
  List.length (block_interfaces k b) = N.to_nat (num_or (count b) 1).
Proof.
  unfold is_io, block_interfaces, for_range. intros H.
  destruct (includes (id b) "gpio"); [now rewrite length_map, length_seq|].
  destruct (includes (id b) "uart"); [now rewrite length_map, length_seq|].
  destruct (includes (id b) "spi"); [now rewrite length_map, length_seq|].
  destruct (includes (id b) "i2c"); [now rewrite length_map, length_seq|].
  discriminate.
Qed.

Lemma fold_add_io_interfaces_length (blocks : list Block) :
  Forall (fun b => is_io b = true) blocks ->
  forall interfaces,
    List.length (fold_left add_io_interfaces blocks interfaces) =
    List.length interfaces + spi_instances blocks.
Proof.
  unfold spi_instances. induction 1 as [|b blocks Hb _ IH]; intros interfaces.
  - cbn. lia.
  - cbn [fold_left map list_sum fold_right].
    rewrite IH, add_io_interfaces_app, length_app, (block_interfaces_length _ _ Hb).
    unfold list_sum. lia.
Qed.

Lemma io_is_io (d : DesignData) : Forall (fun b => is_io b = true) (io d).
Proof. apply Forall_forall. intros b Hb. now apply filter_In in Hb. Qed.

(** X9.  The interface list holds one declaration for a QSPI flash, one for a
    CV32E40P, and [count || 1] for every IO block: a block without [count], or
    with a [count] of 0, declares one interface. *)
Theorem interfaces_length :
  forall d : DesignData,
    List.length (interfaces d) =
    (if some_id (memory d) "qspi" then 1 else 0) +
    (if cpu_id_includes (cpu d) "cv32e40p" then 1 else 0) +
    list_sum (map (fun b => N.to_nat (num_or (count b) 1)) (io d)).
Proof.
  intros d. unfold interfaces, interfaces_of.
  rewrite (fold_add_io_interfaces_length _ (io_is_io d)). unfold spi_instances.
  destruct (some_id (memory d) "qspi"), (cpu_id_includes (cpu d) "cv32e40p"); reflexivity.
Qed.

(** ** Names and indices *)

Lemma to_uint_not_Nil (n : nat) : Nat.to_uint n <> Decimal.Nil.
Proof.
  intros H. pose proof (DecimalNat.Unsigned.of_to n) as E. rewrite H in E. cbn in E.
  subst n. discriminate H.
Qed.

Lemma str_nat_inj (a b : nat) : str_nat a = str_nat b -> a = b.
Proof.
  unfold str_nat. intros H.
  apply (f_equal NilZero.uint_of_string) in H.
  rewrite !NilZero.usu in H by apply to_uint_not_Nil.
  injection H as H. now apply DecimalNat.Unsigned.to_uint_inj.
Qed.

Lemma instance_name_inj (kind : string) (a b : nat) :
  instance_name kind a = instance_name kind b -> a = b.
Proof.
  unfold instance_name. induction kind as [|c kind IH]; cbn [append].
  - intros H. injection H as H. now apply str_nat_inj.
  - intros H. injection H as H. now apply IH.
Qed.

Lemma NoDup_instance_names (kind : string) (s n : nat) :
  NoDup (map (instance_name kind) (seq s n)).
Proof.
  apply NoDup_map_NoDup_ForallPairs; [|apply seq_NoDup].
  intros a b _ _. apply instance_name_inj.
Qed.

Lemma until_char_app (c : ascii) (a b : string) :
  has_char c a = false -> until_char c (a ++ b) = a ++ until_char c b.
Proof.
  induction a as [|x a IH]; [reflexivity|].
  cbn [has_char]. intros H. apply orb_false_iff in H as [Hx Ha].
  cbn [append until_char]. now rewrite Hx, IH.
Qed.

(** Reads the name out of a declaration or an instantiation made from a
    template. *)
Ltac read_name :=
  unfold dq;
  let q := eval compute in (ascii_of_nat 34) in change (ascii_of_nat 34) with q;
  repeat first
    [ rewrite until_char_app by no_char
    | progress cbn [drop lstrip append String.length until_char Ascii.eqb Bool.eqb] ];
  rewrite ?append_nil_r; reflexivity.

Lemma submodule_name_gpio (k : nat) (b : N) :
  submodule_name (gpio_instantiation k b) = instance_name "gpio" k.
Proof.
  unfold submodule_name, gpio_instantiation, gpio_lines, instance_name. cbn [nth].
  read_name.
Qed.

Lemma submodule_name_uart (k : nat) :
  submodule_name (uart_instantiation k) = instance_name "uart" k.
Proof.
  unfold submodule_name, uart_instantiation, uart_lines, instance_name. cbn [nth].
  read_name.
Qed.

Lemma submodule_name_spi (k : nat) :
  submodule_name (spi_instantiation k) = instance_name "spi" k.
Proof.
  unfold submodule_name, spi_instantiation, spi_lines, instance_name. cbn [nth].
  read_name.
Qed.

Lemma submodule_name_i2c (k : nat) :
  submodule_name (i2c_instantiation k) = instance_name "i2c" k.
Proof.
  unfold submodule_name, i2c_instantiation, i2c_lines, instance_name. cbn [nth].
  read_name.
Qed.

Lemma declared_name_gpio (i : nat) (b : option N) :
  declared_name (gpio_interface i b) = instance_name "gpio" i.
Proof. unfold declared_name, gpio_interface, instance_name. read_name. Qed.

Lemma declared_name_uart (i : nat) : declared_name (uart_interface i) = instance_name "uart" i.
Proof. unfold declared_name, uart_interface, instance_name. read_name. Qed.

Lemma declared_name_spi (i : nat) : declared_name (spi_interface i) = instance_name "spi" i.
Proof. unfold declared_name, spi_interface, instance_name. read_name. Qed.

Lemma declared_name_i2c (i : nat) : declared_name (i2c_interface i) = instance_name "i2c" i.
Proof. unfold declared_name, i2c_interface, instance_name. read_name. Qed.

Lemma map_fst_indexed_from {A B : Type} (f : nat -> B) (l : list A) :
  forall k, map (fun ix : nat * A => f (fst ix)) (indexed_from k l) =
            map f (seq k (List.length l)).
Proof. induction l as [|x l IH]; intros k; [reflexivity|]. cbn. now rewrite IH. Qed.

(** X10.  The instantiation fragments of a kind are numbered from zero
    without a gap: GPIO, UART and I2C have one fragment for each block of the
    kind, whatever its [count]; SPI has [count || 1] fragments for each block. *)
Theorem instantiations_numbered_from_zero :
  forall d : DesignData,
    map submodule_name (instantiations "gpio" (generateDesignPy d)) =
      map (instance_name "gpio")
          (seq 0 (List.length (filter (fun b => includes (id b) "gpio") (io d)))) /\
    map submodule_name (instantiations "uart" (generateDesignPy d)) =
      map (instance_name "uart")
          (seq 0 (List.length (filter (fun b => includes (id b) "uart") (io d)))) /\
    map submodule_name (instantiations "spi" (generateDesignPy d)) =
      map (instance_name "spi")
          (seq 0 (list_sum (map (fun b => N.to_nat (num_or (count b) 1))
                                (filter (fun b => includes (id b) "spi") (io d))))) /\
    map submodule_name (instantiations "i2c" (generateDesignPy d)) =
      map (instance_name "i2c")
          (seq 0 (List.length (filter (fun b => includes (id b) "i2c") (io d)))).
Proof.
  intros d.
  rewrite gpio_instantiations, uart_instantiations, spi_instantiations, i2c_instantiations.
  rewrite !map_map. repeat split.
  - rewrite <- map_fst_indexed_from. apply map_ext. intros; apply submodule_name_gpio.
  - rewrite <- map_fst_indexed_from. apply map_ext. intros; apply submodule_name_uart.
  - apply map_ext. intros; apply submodule_name_spi.
  - rewrite <- map_fst_indexed_from. apply map_ext. intros; apply submodule_name_i2c.
Qed.

Lemma spi_instances_filter_le (P : Block -> bool) (l : list Block) :
  spi_instances (filter P l) <= spi_instances l.
Proof.
  unfold spi_instances. induction l as [|b l IH]; [reflexivity|].
  cbn [filter]. destruct (P b); cbn [map list_sum fold_right]; unfold list_sum in *; lia.
Qed.

Lemma filter_all_spi_first (l : list Block) :
  (forall b, In b l -> includes (id b) "spi" = true ->
             includes (id b) "gpio" = false /\ includes (id b) "uart" = false) ->
  filter spi_first l = filter (fun b => includes (id b) "spi") l.
Proof.
  intros H. apply filter_ext_in. intros b Hb. unfold spi_first.
  destruct (includes (id b) "spi") eqn:E; [|apply andb_false_r].
  destruct (H b Hb E) as [-> ->]. reflexivity.
Qed.

(** X11.  The SPI interface declarations are numbered from zero without a gap
    across the blocks: a block that reaches the SPI branch of the interface
    stage continues where the one before stopped.  They are never more than the
    SPI instantiations, so every SPI interface that is declared is connected by
    a fragment; both are the same names when no SPI block has [gpio] or [uart]
    in its identifier. *)
Theorem spi_declarations_numbered_and_connected :
  forall d : DesignData,
    map declared_name (filter is_spi_interface (interfaces d)) =
      map (instance_name "spi") (seq 0 (spi_instances (filter spi_first (io d)))) /\
    incl (map declared_name (filter is_spi_interface (interfaces d)))
         (map submodule_name (instantiations "spi" (generateDesignPy d))) /\
    ((forall b, In b (io d) -> includes (id b) "spi" = true ->
                includes (id b) "gpio" = false /\ includes (id b) "uart" = false) ->
     map declared_name (filter is_spi_interface (interfaces d)) =
     map submodule_name (instantiations "spi" (generateDesignPy d))).
Proof.
  intros d.
  assert (Hd : map declared_name (filter is_spi_interface (interfaces d)) =
               map (instance_name "spi") (seq 0 (spi_instances (filter spi_first (io d))))).
  { rewrite spi_interfaces, map_map. apply map_ext. intros; apply declared_name_spi. }
  assert (Hi : map submodule_name (instantiations "spi" (generateDesignPy d)) =
               map (instance_name "spi")
                   (seq 0 (spi_instances (filter (fun b => includes (id b) "spi") (io d))))).
  { rewrite spi_instantiations, map_map. apply map_ext. intros; apply submodule_name_spi. }
  split; [exact Hd|]. split.
  - rewrite Hd, Hi. intros x Hx. apply in_map_iff in Hx as [i [<- Hx]].
    apply in_map. apply in_seq in Hx. apply in_seq.
    pose proof (spi_instances_filter_le spi_first
                  (filter (fun b => includes (id b) "spi") (io d))) as Hle.
    rewrite <- filter_spi_first in Hle. lia.
  - intros H. now rewrite Hd, Hi, (filter_all_spi_first _ H).
Qed.

Lemma spi_declarations_numbered_and_connected_witness :
  (forall b, In b (io two_spi_document) -> includes (id b) "spi" = true ->
             includes (id b) "gpio" = false /\ includes (id b) "uart" = false) /\
  map declared_name (filter is_spi_interface (interfaces two_spi_document)) =
  map submodule_name (instantiations "spi" (generateDesignPy two_spi_document)).
Proof.
  assert (H : forall b, In b (io two_spi_document) -> includes (id b) "spi" = true ->
                        includes (id b) "gpio" = false /\ includes (id b) "uart" = false).
  { intros b [<- | [<- | [<- | []]]] Hs;
      first [ split; reflexivity | vm_compute in Hs; discriminate Hs ]. }
  split; [exact H|].
  exact (proj2 (proj2 (spi_declarations_numbered_and_connected two_spi_document)) H).
Defined.

(** ** The submodules of the artifact *)

Lemma NoDup_split {A : Type} (P : A -> bool) (l : list A) :
  NoDup (filter P l) -> NoDup (filter (fun x => negb (P x)) l) -> NoDup l.
Proof.
  induction l as [|x l IH]; [constructor|].
  cbn [filter]. destruct (P x) eqn:E; cbn [negb]; intros H1 H2.
  - inversion H1 as [|? ? Hx H1']; subst. constructor; [|now apply IH].
    intros Hin. apply Hx. apply filter_In. now split.
  - inversion H2 as [|? ? Hx H2']; subst. constructor; [|now apply IH].
    intros Hin. apply Hx. apply filter_In. split; [assumption | now rewrite E].
Qed.

Lemma filter_all {A : Type} (P : A -> bool) (l : list A) :
  forallb P l = true -> filter P l = l.
Proof. apply forallb_filter_id. Qed.

Lemma submodule_lines (d : DesignData) :
  filter adds_submodule (lines (generateDesignPy d)) =
  (filter adds_submodule elaborate_opening ++
   filter adds_submodule (cpu_lines (cpu d)) ++
   filter adds_submodule (memory_lines (memory d)) ++
   (map (fun ib : nat * Block => gpio_instantiation (fst ib) (num_or (bitSize (snd ib)) 8))
        (indexed_from 0 (filter (fun b => includes (id b) "gpio") (io d))) ++
    map (fun ib : nat * Block => uart_instantiation (fst ib))
        (indexed_from 0 (filter (fun b => includes (id b) "uart") (io d))) ++
    map spi_instantiation
        (seq 0 (spi_instances (filter (fun b => includes (id b) "spi") (io d)))) ++
    map (fun ib : nat * Block => i2c_instantiation (fst ib))
        (indexed_from 0 (filter (fun b => includes (id b) "i2c") (io d)))) ++
   filter adds_submodule soc_id_and_bridge)%list.
Proof.
  rewrite lines_generateDesignPy, filter_artifact_lines.
  rewrite (filter_interface_lines_none adds_submodule);
    [ | reflexivity | intros r; reflexivity | apply interfaces_of_quoted ].
  rewrite (filter_io_lines adds_submodule (io d)
             (fun k b => [gpio_instantiation k b]) (fun k => [uart_instantiation k])
             (fun k => [spi_instantiation k]) (fun k => [i2c_instantiation k]))
    by (intros; reflexivity).
  rewrite !concat_map_one.
  rewrite (filter_none _ (imports_of _ _ _)) by no_line_in_sections d.
  rewrite (filter_none _ (memoryMap_lines _ _)) by no_line_in_sections d.
  rewrite (filter_none _ (attach_lines _)) by no_line_in_sections d.
  rewrite (filter_none _ class_opening) by (vm_compute; reflexivity).
  rewrite (filter_none _ class_closing) by (vm_compute; reflexivity).
  rewrite (filter_none _ entry_point) by (vm_compute; reflexivity).
  cbn [app filter]. now rewrite app_nil_r.
Qed.

(** The submodules of the artifact, in the order it adds them. *)
Lemma submodules_generateDesignPy (d : DesignData) :
  submodules (generateDesignPy d) =
  ([ "wb_arbiter"; "wb_decoder"; "csr_decoder" ] ++
   (if cpu_id_includes (cpu d) "cv32e40p" then ["cpu"; "debug"]
    else if cpu_id_includes (cpu d) "minerva" then ["cpu"] else []) ++
   ((if some_id (memory d) "qspi" then ["spiflash"] else []) ++ ["sram"]) ++
   (map (instance_name "gpio")
        (seq 0 (List.length (filter (fun b => includes (id b) "gpio") (io d)))) ++
    map (instance_name "uart")
        (seq 0 (List.length (filter (fun b => includes (id b) "uart") (io d)))) ++
    map (instance_name "spi")
        (seq 0 (spi_instances (filter (fun b => includes (id b) "spi") (io d)))) ++
    map (instance_name "i2c")
        (seq 0 (List.length (filter (fun b => includes (id b) "i2c") (io d))))) ++
   [ "soc_id"; "wb_to_csr" ])%list.
Proof.
  unfold submodules. rewrite submodule_lines, !map_app, !map_map.
  apply (f_equal2 (@app string)); [reflexivity|].
  apply (f_equal2 (@app string)).
  { unfold cpu_lines.
    destruct (cpu_id_includes (cpu d) "cv32e40p"), (cpu_id_includes (cpu d) "minerva");
      reflexivity. }
  apply (f_equal2 (@app string)).
  { unfold memory_lines. destruct (some_id (memory d) "qspi"); reflexivity. }
  apply (f_equal2 (@app string)); [|reflexivity].
  rewrite <- !map_fst_indexed_from.
  repeat apply (f_equal2 (@app string)); apply map_ext; intros.
  - apply submodule_name_gpio.
  - apply submodule_name_uart.
  - apply submodule_name_spi.
  - apply submodule_name_i2c.
Qed.

(** Filters a list of names made of literal names and of the instances of the
    IO kinds. *)
Ltac only_kind :=
  repeat first
    [ rewrite filter_app
    | rewrite (filter_map_all _ (instance_name "gpio")) by (intros; reflexivity)
    | rewrite (filter_map_none _ (instance_name "gpio")) by (intros; reflexivity)
    | rewrite (filter_map_all _ (instance_name "uart")) by (intros; reflexivity)
    | rewrite (filter_map_none _ (instance_name "uart")) by (intros; reflexivity)
    | rewrite (filter_map_all _ (instance_name "spi")) by (intros; reflexivity)
    | rewrite (filter_map_none _ (instance_name "spi")) by (intros; reflexivity)
    | rewrite (filter_map_all _ (instance_name "i2c")) by (intros; reflexivity)
    | rewrite (filter_map_none _ (instance_name "i2c")) by (intros; reflexivity)
    | progress cbn [filter app startsWith negb andb Ascii.eqb Bool.eqb] ];
  rewrite ?app_nil_r.

(** X12.  No two statements of the artifact add a submodule of the same name,
    whatever the document: the fragments of a kind are numbered by position and
    never by the [count] or the identifier of a block. *)
Theorem submodule_names_distinct :
  forall d : DesignData, NoDup (submodules (generateDesignPy d)).
Proof.
  intros d. rewrite submodules_generateDesignPy.
  set (ng := List.length (filter (fun b => includes (id b) "gpio") (io d))).
  set (nu := List.length (filter (fun b => includes (id b) "uart") (io d))).
  set (ns := spi_instances (filter (fun b => includes (id b) "spi") (io d))).
  set (ni := List.length (filter (fun b => includes (id b) "i2c") (io d))).
  destruct (cpu_id_includes (cpu d) "cv32e40p"), (cpu_id_includes (cpu d) "minerva"),
    (some_id (memory d) "qspi").
  all: apply (NoDup_split (fun x => startsWith x "gpio_")); only_kind.
  all: try apply NoDup_instance_names.
  all: apply (NoDup_split (fun x => startsWith x "uart_")); only_kind.
  all: try apply NoDup_instance_names.
  all: apply (NoDup_split (fun x => startsWith x "spi_")); only_kind.
  all: try apply NoDup_instance_names.
  all: apply (NoDup_split (fun x => startsWith x "i2c_")); only_kind.
  all: try apply NoDup_instance_names.
  all: apply no_duplicate_NoDup; reflexivity.
Qed.


(** ** Memory components *)

Lemma occurrences_app (xs ys : list string) (x : string) :
  occurrences (xs ++ ys) x = occurrences xs x + occurrences ys x.
Proof. unfold occurrences. now rewrite filter_app, length_app. Qed.

Lemma occurrences_instance_names (x kind : string) (s n : nat) :
  (forall k, String.eqb x (instance_name kind k) = false) ->
  occurrences (map (instance_name kind) (seq s n)) x = 0.
Proof. intros H. unfold occurrences. now rewrite filter_map_none. Qed.

(** How often the artifact adds a submodule of a literal name that is not the
    name of an IO instance. *)
Lemma occurrences_submodules (d : DesignData) (x : string) :
  (forall k, String.eqb x (instance_name "gpio" k) = false) ->
  (forall k, String.eqb x (instance_name "uart" k) = false) ->
  (forall k, String.eqb x (instance_name "spi" k) = false) ->
  (forall k, String.eqb x (instance_name "i2c" k) = false) ->
  occurrences (submodules (generateDesignPy d)) x =
  occurrences
    ([ "wb_arbiter"; "wb_decoder"; "csr_decoder" ] ++
     (if cpu_id_includes (cpu d) "cv32e40p" then ["cpu"; "debug"]
      else if cpu_id_includes (cpu d) "minerva" then ["cpu"] else []) ++
     ((if some_id (memory d) "qspi" then ["spiflash"] else []) ++ ["sram"]) ++
     [ "soc_id"; "wb_to_csr" ])%list x.
Proof.
  intros Hg Hu Hs Hi. rewrite submodules_generateDesignPy, !occurrences_app.
  rewrite !occurrences_instance_names by assumption. lia.
Qed.

(** X13.  The memory section is the same for every document but for the QSPI
    flash: every artifact instantiates the SRAM once, has it or not a block for
    it, and the flash once when some memory block is a QSPI flash, however many
    memory blocks there are and whatever their [count]. *)
Theorem memory_components_single :
  forall d : DesignData,
    occurrences (submodules (generateDesignPy d)) "sram" = 1 /\
    occurrences (submodules (generateDesignPy d)) "spiflash" =
      (if some_id (memory d) "qspi" then 1 else 0) /\
    memoryCode d =
      (if some_id (memory d) "qspi" then memoryCode_qspi ++ memoryCode_sram
       else memoryCode_sram).
Proof.
  intros d. split; [|split].
  - rewrite occurrences_submodules by (intros; reflexivity).
    destruct (cpu_id_includes (cpu d) "cv32e40p"), (cpu_id_includes (cpu d) "minerva"),
      (some_id (memory d) "qspi"); reflexivity.
  - rewrite occurrences_submodules by (intros; reflexivity).
    destruct (cpu_id_includes (cpu d) "cv32e40p"), (cpu_id_includes (cpu d) "minerva"),
      (some_id (memory d) "qspi"); reflexivity.
  - unfold memoryCode, memoryCode_of. destruct (some_id (memory d) "qspi"); reflexivity.
Qed.

(** ** The flash and the debug module *)

Lemma occurrences_In (xs : list string) (x : string) : In x xs <-> occurrences xs x <> 0.
Proof.
  unfold occurrences. induction xs as [|y xs IH]; cbn [filter In].
  - split; [contradiction | intros H; now apply H].
  - destruct (String.eqb_spec x y) as [<- | N].
    + split; [discriminate | now left].
    + rewrite <- IH. split; [intros [E | H]; [congruence | assumption] | now right].
Qed.

Lemma flash_interface_declared (d : DesignData) :
  In flash_interface (interfaces d) <-> some_id (memory d) "qspi" = true.
Proof.
  split.
  - intros H. apply interfaces_In in H as [[_ H] | [[E _] | [k [b [_ H]]]]];
      [assumption | discriminate E | ].
    apply block_interfaces_signature in H as [[_ H] | [[_ H] | [[_ H] | [_ H]]]];
      discriminate H.
  - intros H. unfold interfaces, interfaces_of. apply fold_add_io_interfaces_keeps.
    rewrite H. destruct (cpu_id_includes (cpu d) "cv32e40p"); now left.
Qed.

Lemma cpu_jtag_interface_declared (d : DesignData) :
  In cpu_jtag_interface (interfaces d) <-> cpu_id_includes (cpu d) "cv32e40p" = true.
Proof.
  split.
  - intros H. apply interfaces_In in H as [[E _] | [[_ H] | [k [b [_ H]]]]];
      [discriminate E | assumption | ].
    apply block_interfaces_signature in H as [[_ H] | [[_ H] | [[_ H] | [_ H]]]];
      discriminate H.
  - intros H. unfold interfaces, interfaces_of. apply fold_add_io_interfaces_keeps.
    rewrite H. destruct (some_id (memory d) "qspi"); [right|]; now left.
Qed.

Lemma attach_flash_line (d : DesignData) :
  filter (String.eqb attach_flash) (lines (generateDesignPy d)) =
  if some_id (memory d) "qspi" then [attach_flash] else [].
Proof.
  rewrite lines_generateDesignPy, filter_artifact_lines.
  rewrite (filter_interface_lines_none (String.eqb attach_flash));
    [ | reflexivity | intros r; reflexivity | apply interfaces_of_quoted ].
  rewrite (filter_io_lines_none (String.eqb attach_flash)) by (intros; reflexivity).
  rewrite (filter_none _ (imports_of _ _ _)) by no_line_in_sections d.
  rewrite (filter_none _ (memoryMap_lines _ _)) by no_line_in_sections d.
  rewrite (filter_none _ (cpu_lines _)) by no_line_in_sections d.
  rewrite (filter_none _ (memory_lines _)) by no_line_in_sections d.
  fixed_sections_none.
  cbn [app filter]. rewrite app_nil_r.
  unfold attach_lines. destruct (some_id (memory d) "qspi"); reflexivity.
Qed.

(** X14.  The pins that a fragment connects are declared exactly when the
    fragment is there: the flash interface goes with the QSPI flash instance
    and with the statement that attaches the software to it, the JTAG interface
    with the debug module of the CV32E40P. *)
Theorem flash_and_jtag_go_with_their_fragments :
  forall d : DesignData,
    (In flash_interface (interfaces d) <-> In "spiflash" (submodules (generateDesignPy d))) /\
    (In flash_interface (interfaces d) <-> In attach_flash (lines (generateDesignPy d))) /\
    (In cpu_jtag_interface (interfaces d) <-> In "debug" (submodules (generateDesignPy d))).
Proof.
  intros d. rewrite flash_interface_declared, cpu_jtag_interface_declared.
  rewrite !occurrences_In, !occurrences_submodules by (intros; reflexivity).
  unfold occurrences at 2. rewrite attach_flash_line.
  destruct (cpu_id_includes (cpu d) "cv32e40p"), (cpu_id_includes (cpu d) "minerva"),
    (some_id (memory d) "qspi"); cbn; repeat split; congruence.
Qed.

(** ** The bases of the memory map *)

Lemma existsb_In (x : string) (ls : list string) :
  existsb (String.eqb x) ls = true <-> In x ls.
Proof.
  split; [apply In_existsb|]. intros H. apply existsb_exists. exists x.
  split; [assumption | apply String.eqb_refl].
Qed.

(** The conditional bases of the memory map, by the condition each stands
    under. *)
Lemma base_names (d : DesignData) (x : string) (flag : bool) :
  existsb (String.eqb x) (map fst (base_addresses (memoryMap d))) = flag ->
  In x (map fst (base_addresses (memoryMap d))) <-> flag = true.
Proof. intros <-. symmetry. apply existsb_In. Qed.

(** X15.  The memory map assigns the base of the SPI registers exactly when an
    SPI peripheral is instantiated, that of the I2C registers exactly when an
    I2C peripheral is, and that of the flash registers exactly when the QSPI
    flash is.  The bases of the GPIO and UART registers are assigned in every
    artifact, with or without such a peripheral. *)
Theorem conditional_bases_follow_instances :
  forall d : DesignData,
    (In "csr_spi_base" (map fst (base_addresses (memoryMap d))) <->
     instantiations "spi" (generateDesignPy d) <> []) /\
    (In "csr_i2c_base" (map fst (base_addresses (memoryMap d))) <->
     instantiations "i2c" (generateDesignPy d) <> []) /\
    (In "csr_spiflash_base" (map fst (base_addresses (memoryMap d))) <->
     In "spiflash" (submodules (generateDesignPy d))) /\
    In "csr_gpio_base" (map fst (base_addresses (memoryMap d))) /\
    In "csr_uart_base" (map fst (base_addresses (memoryMap d))).
Proof.
  intros d.
  destruct (instantiated_iff d) as [_ [_ [Is Ii]]].
  rewrite Is, Ii.
  rewrite (occurrences_In (submodules (generateDesignPy d)) "spiflash").
  rewrite occurrences_submodules by (intros; reflexivity).
  rewrite (base_names d "csr_spi_base" (some_id (io d) "spi"))
    by (unfold memoryMap; cbv beta delta [memoryMap_of]; same_flag d).
  rewrite (base_names d "csr_i2c_base" (some_id (io d) "i2c"))
    by (unfold memoryMap; cbv beta delta [memoryMap_of]; same_flag d).
  rewrite (base_names d "csr_spiflash_base" (some_id (memory d) "qspi"))
    by (unfold memoryMap; cbv beta delta [memoryMap_of]; same_flag d).
  rewrite (base_names d "csr_gpio_base" true)
    by (unfold memoryMap; cbv beta delta [memoryMap_of]; same_flag d).
  rewrite (base_names d "csr_uart_base" true)
    by (unfold memoryMap; cbv beta delta [memoryMap_of]; same_flag d).
  destruct (cpu_id_includes (cpu d) "cv32e40p"), (cpu_id_includes (cpu d) "minerva"),
    (some_id (memory d) "qspi"); cbn; repeat split; congruence.
Qed.

(** ** HyperRAM *)

Lemma io_lines_no_HyperRAM (io : list Block) (l : string) :
  In l (io_lines io) -> includes l "HyperRAM" = false.
Proof.
  intros Hl. apply not_true_iff_false. intros Hinc.
  apply io_lines_kind in Hl
    as [[_ [k [b Hl]]] | [[_ [k Hl]] | [[_ [k Hl]] | [_ [k Hl]]]]].
  - assert (Habs : forallb (absent_char "HyperRAM") (gpio_lines 0 0) = true) by reflexivity.
    unfold gpio_lines in Habs, Hl. lines_do_not_mention Habs Hl Hinc.
  - assert (Habs : forallb (absent_char "HyperRAM") (uart_lines 0) = true) by reflexivity.
    unfold uart_lines in Habs, Hl. lines_do_not_mention Habs Hl Hinc.
  - assert (Habs : forallb (absent_char "HyperRAM") (spi_lines 0) = true) by reflexivity.
    unfold spi_lines in Habs, Hl. lines_do_not_mention Habs Hl Hinc.
  - assert (Habs : forallb (absent_char "HyperRAM") (i2c_lines 0) = true) by reflexivity.
    unfold i2c_lines in Habs, Hl. lines_do_not_mention Habs Hl Hinc.
Qed.

(** X16.  A HyperRAM block brings its import and nothing to use it: the import
    section names [HyperRAM] exactly when some memory block has the keyword,
    and no CPU, memory or IO section of any artifact mentions it. *)
Theorem hyperram_imported_never_instantiated :
  forall d : DesignData,
    imports_name (import_statements (generateDesignPy d)) "HyperRAM" =
      some_id (memory d) "hyperram" /\
    references d "HyperRAM" = false.
Proof.
  intros d. split.
  - now destruct (imported_names_by_condition d) as [_ [_ [[_ [_ H]] _]]].
  - unfold references, instantiation_lines, mentions, cpuCode, memoryCode, ioCode.
    rewrite lines_cpuCode_of, lines_memoryCode_of, lines_ioCode_of.
    rewrite !existsb_app. cbn [existsb].
    assert (Hio : existsb (fun l => includes l "HyperRAM") (io_lines (io d)) = false).
    { apply not_true_iff_false. intros H. apply existsb_exists in H as [l [Hl Hinc]].
      rewrite (io_lines_no_HyperRAM _ _ Hl) in Hinc. discriminate. }
    rewrite Hio. unfold cpu_lines, memory_lines.
    destruct (cpu_id_includes (cpu d) "cv32e40p"), (cpu_id_includes (cpu d) "minerva"),
      (some_id (memory d) "qspi"); reflexivity.
Qed.

(** ** The names of the interface dictionary *)

Lemma NoDup_split_iff {A : Type} (P : A -> bool) (l : list A) :
  NoDup l <-> NoDup (filter P l) /\ NoDup (filter (fun x => negb (P x)) l).
Proof.
  split.
  - intros H. split; now apply NoDup_filter.
  - intros [H1 H2]. exact (NoDup_split P l H1 H2).
Qed.

Lemma filter_filter_and {A : Type} (P Q : A -> bool) (l : list A) :
  filter P (filter Q l) = filter (fun x => Q x && P x) l.
Proof.
  induction l as [|x l IH]; [reflexivity|].
  cbn [filter]. destruct (Q x); cbn [filter andb]; [destruct (P x)|]; now rewrite IH.
Qed.

Lemma NoDup_app_disjoint {A : Type} (l1 l2 : list A) (x : A) :
  NoDup (l1 ++ l2) -> In x l1 -> In x l2 -> False.
Proof.
  induction l1 as [|y l1 IH]; [contradiction|].
  cbn [app]. intros H [-> | Hin] H2.
  - inversion H as [|? ? Hx _]; subst. apply Hx. apply in_or_app. now right.
  - inversion H; subst. now apply IH.
Qed.

(** What a filter that does not look at the SPI start index keeps of the
    interface list. *)
Lemma filter_fold_add_io_interfaces (Q : string -> bool) (g : Block -> list string)
    (blocks : list Block) :
  (forall k b, filter Q (block_interfaces k b) = g b) ->
  forall interfaces,
    filter Q (fold_left add_io_interfaces blocks interfaces) =
    (filter Q interfaces ++ concat (map g blocks))%list.
Proof.
  intros Hg. induction blocks as [|b blocks IH]; intros interfaces.
  - cbn. now rewrite app_nil_r.
  - cbn [fold_left map concat].
    now rewrite IH, add_io_interfaces_app, filter_app, Hg, <- app_assoc.
Qed.

Lemma filter_interfaces (Q : string -> bool) (g : Block -> list string) (d : DesignData) :
  (forall k b, filter Q (block_interfaces k b) = g b) ->
  filter Q (interfaces d) =
  (filter Q ((if some_id (memory d) "qspi" then [flash_interface] else []) ++
             (if cpu_id_includes (cpu d) "cv32e40p" then [cpu_jtag_interface] else [])) ++
   concat (map g (io d)))%list.
Proof.
  intros Hg. unfold interfaces, interfaces_of.
  rewrite (filter_fold_add_io_interfaces Q g _ Hg).
  destruct (some_id (memory d) "qspi"), (cpu_id_includes (cpu d) "cv32e40p"); reflexivity.
Qed.

(** The kind of the name that each template declares. *)
Lemma of_kind_gpio (kind : string) (i : nat) (b : option N) :
  In kind io_kinds ->
  of_kind kind (declared_name (gpio_interface i b)) = String.eqb kind "gpio".
Proof.
  rewrite declared_name_gpio.
  intros [<- | [<- | [<- | [<- | []]]]]; reflexivity.
Qed.

Lemma of_kind_uart (kind : string) (i : nat) :
  In kind io_kinds ->
  of_kind kind (declared_name (uart_interface i)) = String.eqb kind "uart".
Proof.
  rewrite declared_name_uart.
  intros [<- | [<- | [<- | [<- | []]]]]; reflexivity.
Qed.

Lemma of_kind_spi (kind : string) (i : nat) :
  In kind io_kinds ->
  of_kind kind (declared_name (spi_interface i)) = String.eqb kind "spi".
Proof.
  rewrite declared_name_spi.
  intros [<- | [<- | [<- | [<- | []]]]]; reflexivity.
Qed.

Lemma of_kind_i2c (kind : string) (i : nat) :
  In kind io_kinds ->
  of_kind kind (declared_name (i2c_interface i)) = String.eqb kind "i2c".
Proof.
  rewrite declared_name_i2c.
  intros [<- | [<- | [<- | [<- | []]]]]; reflexivity.
Qed.

Lemma restarting_none (kind : string) (branch : Block -> bool) (blocks : list Block) :
  filter branch blocks = [] -> restarting kind branch blocks = [].
Proof.
  unfold restarting. induction blocks as [|b blocks IH]; [reflexivity|].
  cbn [filter map concat]. destruct (branch b); [discriminate|]. exact IH.
Qed.

Lemma restarting_zero (kind : string) (branch : Block -> bool) (blocks : list Block)
    (b : Block) :
  In b (filter branch blocks) -> In (instance_name kind 0) (restarting kind branch blocks).
Proof.
  intros H. apply filter_In in H as [Hin Hb]. unfold restarting.
  apply in_concat. eexists. split; [apply in_map_iff; exists b; split; [reflexivity | exact Hin]|].
  cbn beta. rewrite Hb. apply in_map. unfold for_range. apply in_seq.
  pose proof (num_or_one_pos (count b)). lia.
Qed.

(** Names that restart with every block are pairwise distinct exactly when at
    most one block takes the branch. *)
Lemma NoDup_restarting (kind : string) (branch : Block -> bool) (blocks : list Block) :
  NoDup (restarting kind branch blocks) <-> List.length (filter branch blocks) <= 1.
Proof.
  induction blocks as [|b blocks IH].
  - cbn. split; [lia | constructor].
  - change (restarting kind branch (b :: blocks))
      with ((if branch b
             then map (instance_name kind) (for_range (num_or (count b) 1))
             else []) ++ restarting kind branch blocks)%list.
    cbn [filter]. destruct (branch b) eqn:Hb; [|exact IH].
    cbn [List.length]. split.
    + intros H. destruct (filter branch blocks) as [|b' rest] eqn:E; [cbn; lia|].
      exfalso. apply (NoDup_app_disjoint _ _ (instance_name kind 0) H).
      * apply in_map. unfold for_range. apply in_seq.
        pose proof (num_or_one_pos (count b)). lia.
      * apply (restarting_zero kind branch blocks b'). rewrite E. now left.
    + intros H. rewrite restarting_none, app_nil_r.
      * apply NoDup_instance_names.
      * destruct (filter branch blocks); [reflexivity | cbn in H; lia].
Qed.

Lemma of_kind_exclusive (k1 k2 : string) (x : string) :
  In k1 io_kinds -> In k2 io_kinds -> k1 <> k2 ->
  of_kind k1 x = true -> of_kind k2 x = false.
Proof.
  unfold of_kind. destruct x as [|c x];
    intros [<- | [<- | [<- | [<- | []]]]] [<- | [<- | [<- | [<- | []]]]] N H;
    try congruence; try discriminate H;
    cbn [append startsWith] in *;
    apply andb_true_iff in H as [H _]; apply Ascii.eqb_eq in H; subst c; reflexivity.
Qed.

(** The GPIO declarations: those of the blocks that hold [gpio], block after
    block. *)
Lemma gpio_declarations (d : DesignData) :
  declarations_of "gpio" d =
  concat (map (fun b => if includes (id b) "gpio"
                        then map (fun i => gpio_interface i (opt_or (bitSize b) (Some 8%N)))
                                 (for_range (num_or (count b) 1))
                        else [])
              (io d)).
Proof.
  unfold declarations_of.
  rewrite (filter_interfaces _
             (fun b => if includes (id b) "gpio"
                       then map (fun i => gpio_interface i (opt_or (bitSize b) (Some 8%N)))
                                (for_range (num_or (count b) 1))
                       else []) d).
  - now destruct (some_id (memory d) "qspi"), (cpu_id_includes (cpu d) "cv32e40p").
  - intros k b. unfold block_interfaces.
    destruct (includes (id b) "gpio").
    { apply filter_map_all. intros i. now rewrite of_kind_gpio by (cbn; tauto). }
    destruct (includes (id b) "uart").
    { apply filter_map_none. intros i. now rewrite of_kind_uart by (cbn; tauto). }
    destruct (includes (id b) "spi").
    { apply filter_map_none. intros i. now rewrite of_kind_spi by (cbn; tauto). }
    destruct (includes (id b) "i2c"); [|reflexivity].
    apply filter_map_none. intros i. now rewrite of_kind_i2c by (cbn; tauto).
Qed.

(** The names of a kind that the blocks declare, for the kinds whose index
    restarts with every block. *)
Lemma names_of_gpio (d : DesignData) :
  filter (of_kind "gpio") (interface_names d) =
  restarting "gpio" (fun b => includes (id b) "gpio") (io d).
Proof.
  unfold interface_names, restarting. rewrite filter_map_swap.
  change (filter _ (interfaces d)) with (declarations_of "gpio" d).
  rewrite gpio_declarations, concat_map, map_map.
  f_equal. apply map_ext. intros b.
  destruct (includes (id b) "gpio"); [|reflexivity].
  rewrite map_map. apply map_ext. intros i. apply declared_name_gpio.
Qed.

Lemma names_of_uart (d : DesignData) :
  filter (of_kind "uart") (interface_names d) = restarting "uart" uart_first (io d).
Proof.
  unfold interface_names, restarting. rewrite filter_map_swap.
  rewrite (filter_interfaces _
             (fun b => if uart_first b
                       then map uart_interface (for_range (num_or (count b) 1))
                       else [])).
  - rewrite map_app, concat_map, map_map.
    replace (map declared_name (filter _ _)) with (@nil string)
      by (destruct (some_id (memory d) "qspi"), (cpu_id_includes (cpu d) "cv32e40p");
          reflexivity).
    cbn [app]. f_equal. apply map_ext. intros b.
    destruct (uart_first b); [|reflexivity].
    rewrite map_map. apply map_ext. intros i. apply declared_name_uart.
  - intros k b. unfold block_interfaces, uart_first.
    destruct (includes (id b) "gpio"); cbn [negb andb].
    { apply filter_map_none. intros i. now rewrite of_kind_gpio by (cbn; tauto). }
    destruct (includes (id b) "uart").
    { apply filter_map_all. intros i. now rewrite of_kind_uart by (cbn; tauto). }
    destruct (includes (id b) "spi").
    { apply filter_map_none. intros i. now rewrite of_kind_spi by (cbn; tauto). }
    destruct (includes (id b) "i2c"); [|reflexivity].
    apply filter_map_none. intros i. now rewrite of_kind_i2c by (cbn; tauto).
Qed.

Lemma names_of_i2c (d : DesignData) :
  filter (of_kind "i2c") (interface_names d) = restarting "i2c" i2c_first (io d).
Proof.
  unfold interface_names, restarting. rewrite filter_map_swap.
  rewrite (filter_interfaces _
             (fun b => if i2c_first b
                       then map i2c_interface (for_range (num_or (count b) 1))
                       else [])).
  - rewrite map_app, concat_map, map_map.
    replace (map declared_name (filter _ _)) with (@nil string)
      by (destruct (some_id (memory d) "qspi"), (cpu_id_includes (cpu d) "cv32e40p");
          reflexivity).
    cbn [app]. f_equal. apply map_ext. intros b.
    destruct (i2c_first b); [|reflexivity].
    rewrite map_map. apply map_ext. intros i. apply declared_name_i2c.
  - intros k b. unfold block_interfaces, i2c_first.
    destruct (includes (id b) "gpio"); cbn [negb andb].
    { apply filter_map_none. intros i. now rewrite of_kind_gpio by (cbn; tauto). }
    destruct (includes (id b) "uart"); cbn [negb andb].
    { apply filter_map_none. intros i. now rewrite of_kind_uart by (cbn; tauto). }
    destruct (includes (id b) "spi"); cbn [negb andb].
    { apply filter_map_none. intros i. now rewrite of_kind_spi by (cbn; tauto). }
    destruct (includes (id b) "i2c"); [|reflexivity].
    apply filter_map_all. intros i. now rewrite of_kind_i2c by (cbn; tauto).
Qed.

Lemma names_of_spi (d : DesignData) :
  filter (of_kind "spi") (interface_names d) =
  map (instance_name "spi") (seq 0 (spi_instances (filter spi_first (io d)))).
Proof.
  unfold interface_names. rewrite filter_map_swap.
  assert (E : filter (fun x => of_kind "spi" (declared_name x)) (interfaces d) =
              filter is_spi_interface (interfaces d)).
  { apply filter_ext_in. intros x Hx.
    apply interfaces_In in Hx as [[-> _] | [[-> _] | [k [b [_ Hx]]]]];
      [reflexivity | reflexivity | ].
    unfold block_interfaces in Hx.
    destruct (includes (id b) "gpio").
    { apply in_map_iff in Hx as [i [<- _]].
      now rewrite of_kind_gpio, gpio_interface_not_spi by (cbn; tauto). }
    destruct (includes (id b) "uart").
    { apply in_map_iff in Hx as [i [<- _]].
      now rewrite of_kind_uart, uart_interface_not_spi by (cbn; tauto). }
    destruct (includes (id b) "spi").
    { apply in_map_iff in Hx as [i [<- _]].
      now rewrite of_kind_spi, spi_interface_is_spi by (cbn; tauto). }
    destruct (includes (id b) "i2c"); [|contradiction].
    apply in_map_iff in Hx as [i [<- _]].
    now rewrite of_kind_i2c, i2c_interface_not_spi by (cbn; tauto). }
  rewrite E, spi_interfaces, map_map. apply map_ext. intros; apply declared_name_spi.
Qed.

(** The names of no IO kind are those of the flash and of the JTAG port. *)
Lemma names_of_no_kind (d : DesignData) :
  filter (fun x => negb (of_kind "gpio" x) && negb (of_kind "uart" x) &&
                   negb (of_kind "spi" x) && negb (of_kind "i2c" x))
         (interface_names d) =
  ((if some_id (memory d) "qspi" then ["flash"] else []) ++
   (if cpu_id_includes (cpu d) "cv32e40p" then ["cpu_jtag"] else []))%list.
Proof.
  unfold interface_names. rewrite filter_map_swap.
  rewrite (filter_interfaces _ (fun _ => [])).
  - rewrite concat_map_nil, app_nil_r.
    destruct (some_id (memory d) "qspi"), (cpu_id_includes (cpu d) "cv32e40p"); reflexivity.
  - intros k b. unfold block_interfaces.
    destruct (includes (id b) "gpio").
    { apply filter_map_none. intros i. now rewrite !of_kind_gpio by (cbn; tauto). }
    destruct (includes (id b) "uart").
    { apply filter_map_none. intros i. now rewrite !of_kind_uart by (cbn; tauto). }
    destruct (includes (id b) "spi").
    { apply filter_map_none. intros i. now rewrite !of_kind_spi by (cbn; tauto). }
    destruct (includes (id b) "i2c"); [|reflexivity].
    apply filter_map_none. intros i. now rewrite !of_kind_i2c by (cbn; tauto).
Qed.

(** A list of names is duplicate-free when its names of each IO kind and its
    names of no kind are. *)
Lemma NoDup_by_kind (l : list string) :
  NoDup l <->
  NoDup (filter (of_kind "gpio") l) /\
  NoDup (filter (of_kind "uart") l) /\
  NoDup (filter (of_kind "spi") l) /\
  NoDup (filter (of_kind "i2c") l) /\
  NoDup (filter (fun x => negb (of_kind "gpio" x) && negb (of_kind "uart" x) &&
                          negb (of_kind "spi" x) && negb (of_kind "i2c" x)) l).
Proof.
  assert (X : forall k1 k2 x, In k1 io_kinds -> In k2 io_kinds -> k1 <> k2 ->
                of_kind k1 x = true -> negb (of_kind k2 x) = true).
  { intros k1 k2 x H1 H2 N H. now rewrite (of_kind_exclusive k1 k2 x H1 H2 N H). }
  split.
  - intros H. repeat split; now apply NoDup_filter.
  - intros [Hg [Hu [Hs [Hi Hr]]]].
    apply (NoDup_split (of_kind "gpio")); [exact Hg|].
    apply (NoDup_split (of_kind "uart")).
    { rewrite filter_filter_implied; [exact Hu|].
      intros x. apply X; cbn; tauto || discriminate. }
    apply (NoDup_split (of_kind "spi")).
    { rewrite !filter_filter_implied; [exact Hs | |];
        intros x; apply X; cbn; tauto || discriminate. }
    apply (NoDup_split (of_kind "i2c")).
    { rewrite !filter_filter_implied; [exact Hi | | |];
        intros x; apply X; cbn; tauto || discriminate. }
    rewrite !filter_filter_and.
    erewrite filter_ext; [exact Hr|].
    intros x. cbv beta.
    destruct (of_kind "gpio" x), (of_kind "uart" x), (of_kind "spi" x), (of_kind "i2c" x);
      reflexivity.
Qed.

(** X17.  The names of the interface dictionary are pairwise distinct exactly
    when at most one block takes the GPIO branch of the interface stage, at most
    one the UART branch and at most one the I2C branch: the index of these
    kinds restarts at 0 with every block, while SPI names run on across the
    blocks and never clash. *)
Theorem interface_names_distinct_iff :
  forall d : DesignData,
    NoDup (interface_names d) <->
    List.length (filter (fun b => includes (id b) "gpio") (io d)) <= 1 /\
    List.length (filter uart_first (io d)) <= 1 /\
    List.length (filter i2c_first (io d)) <= 1.
Proof.
  intros d. rewrite NoDup_by_kind.
  rewrite names_of_gpio, names_of_uart, names_of_spi, names_of_i2c, names_of_no_kind.
  rewrite !NoDup_restarting.
  assert (Hs : NoDup (map (instance_name "spi")
                          (seq 0 (spi_instances (filter spi_first (io d))))))
    by apply NoDup_instance_names.
  assert (Hr : NoDup ((if some_id (memory d) "qspi" then ["flash"] else []) ++
                      (if cpu_id_includes (cpu d) "cv32e40p" then ["cpu_jtag"] else []))%list).
  { destruct (some_id (memory d) "qspi"), (cpu_id_includes (cpu d) "cv32e40p");
      apply no_duplicate_NoDup; reflexivity. }
  tauto.
Qed.

(** ** The processor import *)

(** X18.  The processor import follows the CPU section: the CV32E40P and its
    debug module are imported exactly when the CPU section is the CV32E40P
    template, Minerva exactly when it is the Minerva template, and no artifact
    imports both. *)
Theorem processor_import_follows_cpu_section :
  forall d : DesignData,
    (imports_name (import_statements (generateDesignPy d)) "CV32E40P" = true <->
     cpuCode d = cpuCode_cv32e40p) /\
    (imports_name (import_statements (generateDesignPy d)) "OBIDebugModule" = true <->
     cpuCode d = cpuCode_cv32e40p) /\
    (imports_name (import_statements (generateDesignPy d)) "Minerva" = true <->
     cpuCode d = cpuCode_minerva) /\
    imports_name (import_statements (generateDesignPy d)) "CV32E40P" &&
    imports_name (import_statements (generateDesignPy d)) "Minerva" = false.
Proof.
  intros d.
  destruct (imported_names_by_condition d) as [_ [_ [_ [_ [Ho [Hc Hm]]]]]].
  rewrite Ho, Hc, Hm. unfold cpuCode, cpuCode_of.
  destruct (cpu_id_includes (cpu d) "cv32e40p"), (cpu_id_includes (cpu d) "minerva");
    cbn [negb andb]; repeat split; intros H; try reflexivity; try discriminate H;
    vm_compute in H; discriminate H.
Qed.

(** ** The artifact as a whole *)

Lemma unlines_cons_char (c : ascii) (l : string) (ls : list string) :
  unlines (String c l :: ls) = String c (unlines (l :: ls)).
Proof. now destruct ls. Qed.

Lemma unlines_lines (s : string) : unlines (lines s) = s.
Proof.
  induction s as [|c s IH]; [reflexivity|].
  cbn [lines]. destruct (Ascii.eqb_spec c LF) as [-> | N].
  - pose proof (lines_not_nil s) as Hn.
    destruct (lines s) as [|l ls] eqn:E; [contradiction|].
    rewrite unlines_cons, IH. reflexivity.
  - pose proof (lines_not_nil s) as Hn.
    destruct (lines s) as [|l ls] eqn:E; [contradiction|].
    now rewrite unlines_cons_char, IH.
Qed.

(** X20.  The artifact is its sections, line after line and in one order for
    every document: the import section, the opening of the class, the
    interface dictionary, the memory map, the opening of [elaborate], the CPU
    section, the memory section, the IO section, the SoC id with the CSR bridge
    and the software build, the attachment of the flash data and the entry
    point.  A section without content still leaves its line: an empty
    dictionary and an empty CPU section are one blank line each. *)
Theorem artifact_is_its_sections :
  forall d : DesignData, generateDesignPy d = unlines (artifact_lines d).
Proof.
  intros d. rewrite <- lines_generateDesignPy. symmetry. apply unlines_lines.
Qed.

(** ** Pin counts *)

Lemma numeral_uint (u : Decimal.uint) (r : string) :
  numeral (NilEmpty.string_of_uint u ++ r) = NilEmpty.string_of_uint u ++ numeral r.
Proof.
  induction u; cbn [NilEmpty.string_of_uint append numeral]; [reflexivity | ..];
    change (is_digit _) with true; cbn iota; now rewrite IHu.
Qed.

Lemma numeral_str_N (n : N) (c : ascii) (r : string) :
  is_digit c = false -> numeral (str_N n ++ String c r) = str_N n.
Proof.
  intros Hc. unfold str_N.
  assert (E : forall u, NilZero.string_of_uint u =
                        match u with
                        | Decimal.Nil => "0"
                        | _ => NilEmpty.string_of_uint u
                        end) by (intros u; now destruct u).
  assert (F : numeral (String c r) = EmptyString) by (cbn [numeral]; now rewrite Hc).
  rewrite E. destruct (N.to_uint n) eqn:U;
    try (rewrite numeral_uint, F; apply append_nil_r).
  cbn [append numeral]. now rewrite Hc.
Qed.

Lemma N_to_uint_not_Nil (n : N) : N.to_uint n <> Decimal.Nil.
Proof.
  intros H. pose proof (DecimalN.Unsigned.of_to n) as E. rewrite H in E. cbn in E.
  subst n. discriminate H.
Qed.

Lemma read_str_N (n : N) :
  option_map N.of_uint (NilZero.uint_of_string (str_N n)) = Some n.
Proof.
  unfold str_N. rewrite NilZero.usu by apply N_to_uint_not_Nil.
  cbn [option_map]. now rewrite DecimalN.Unsigned.of_to.
Qed.

(** Finds the text after a marker in a line made from a template. *)
Ltac find_after :=
  repeat first
    [ rewrite after_skip by no_char
    | progress cbn [after startsWith drop String.length append andb Ascii.eqb Bool.eqb] ].

Lemma pin_count_gpio_interface (i : nat) (b : option N) :
  pin_count (gpio_interface i b) = Some (num_or b 8).
Proof.
  unfold pin_count, gpio_interface, dq.
  let q := eval compute in (ascii_of_nat 34) in change (ascii_of_nat 34) with q.
  find_after. rewrite numeral_str_N by reflexivity. apply read_str_N.
Qed.

Lemma pin_count_gpio_instantiation (k : nat) (b : N) :
  pin_count (gpio_instantiation k b) = Some b.
Proof.
  unfold pin_count, gpio_instantiation, gpio_lines. cbn [nth].
  find_after. rewrite numeral_str_N by reflexivity. apply read_str_N.
Qed.

Lemma concat_map_if {A B : Type} (P : A -> bool) (h : A -> list B) (l : list A) :
  concat (map (fun x => if P x then h x else []) l) = concat (map h (filter P l)).
Proof.
  induction l as [|x l IH]; [reflexivity|].
  cbn [map concat filter]. destruct (P x); cbn [map concat app]; now rewrite IH.
Qed.

(** X21.  A GPIO block gives its [bitSize || 8] as the pin count of each of
    its interface declarations and of its instantiation: 8 pins when [bitSize]
    is missing or 0.  The fragments follow the GPIO blocks one to one; the
    declarations are [count || 1] for each.  This holds of the pin counts that
    a JavaScript number holds exactly and a template literal prints digit by
    digit, the integers below 2^53. *)
Theorem gpio_pin_counts :
  forall d : DesignData,
    (forall b, In b (io d) -> includes (id b) "gpio" = true ->
               (num_or (bitSize b) 8 < 2 ^ 53)%N) ->
    map pin_count (instantiations "gpio" (generateDesignPy d)) =
      map (fun b => Some (num_or (bitSize b) 8))
          (filter (fun b => includes (id b) "gpio") (io d)) /\
    map pin_count (declarations_of "gpio" d) =
      concat (map (fun b => repeat (Some (num_or (bitSize b) 8))
                                   (N.to_nat (num_or (count b) 1)))
                  (filter (fun b => includes (id b) "gpio") (io d))).
Proof.
  intros d _. split.
  - rewrite gpio_instantiations, map_map.
    assert (E : forall (l : list Block) k,
              map (fun ib : nat * Block =>
                     pin_count (gpio_instantiation (fst ib) (num_or (bitSize (snd ib)) 8)))
                  (indexed_from k l) =
              map (fun b => Some (num_or (bitSize b) 8)) l).
    { induction l as [|b l IH]; intros k; [reflexivity|].
      cbn [indexed_from map fst snd]. now rewrite pin_count_gpio_instantiation, IH. }
    apply E.
  - rewrite gpio_declarations, concat_map, map_map, <- concat_map_if.
    f_equal. apply map_ext. intros b.
    destruct (includes (id b) "gpio"); [|reflexivity].
    rewrite map_map. unfold for_range.
    transitivity (map (fun _ : nat => Some (num_or (bitSize b) 8))
                      (seq 0 (N.to_nat (num_or (count b) 1)))).
    + apply map_ext. intros i.
      rewrite pin_count_gpio_interface. f_equal. apply num_or_opt_or. now left.
    + now rewrite map_const, length_seq.
Qed.

Lemma gpio_pin_counts_witness :
  (forall b, In b (io cv32e40p_gpio_document) -> includes (id b) "gpio" = true ->
             (num_or (bitSize b) 8 < 2 ^ 53)%N) /\
  map pin_count (instantiations "gpio" (generateDesignPy cv32e40p_gpio_document)) =
    [Some 4%N] /\
  map pin_count (declarations_of "gpio" cv32e40p_gpio_document) = [Some 4%N; Some 4%N].
Proof.
  assert (H : forall b, In b (io cv32e40p_gpio_document) -> includes (id b) "gpio" = true ->
                        (num_or (bitSize b) 8 < 2 ^ 53)%N).
  { intros b [<- | []] _. reflexivity. }
  split; [exact H|].
  exact (gpio_pin_counts cv32e40p_gpio_document H).
Defined.

(** ** When declarations and fragments agree *)

Lemma restarting_ext (kind : string) (P Q : Block -> bool) (blocks : list Block) :
  (forall b, In b blocks -> P b = Q b) ->
  restarting kind P blocks = restarting kind Q blocks.
Proof.
  intros H. unfold restarting. f_equal. apply map_ext_in. intros b Hb.
  now rewrite (H b Hb).
Qed.

(** One block of a kind, declaring one interface, declares the name of its
    one fragment. *)
Lemma restarting_single (kind : string) (P : Block -> bool) (blocks : list Block) :
  List.length (filter P blocks) <= 1 ->
  (forall b, In b blocks -> P b = true -> num_or (count b) 1 = 1%N) ->
  restarting kind P blocks =
  map (instance_name kind) (seq 0 (List.length (filter P blocks))).
Proof.
  intros Hl Hc. unfold restarting. rewrite concat_map_if.
  assert (Hin : forall b, In b (filter P blocks) -> num_or (count b) 1 = 1%N).
  { intros b Hb. apply filter_In in Hb as [Hb HP]. now apply Hc. }
  destruct (filter P blocks) as [|b [|b' rest]]; [reflexivity | | cbn in Hl; lia].
  cbn [map concat List.length]. rewrite app_nil_r. unfold for_range.
  now rewrite (Hin b (or_introl eq_refl)).
Qed.

(** The names that the fragments of the kinds with one fragment for each
    block bind. *)
Lemma indexed_instantiation_names (kind : string) (line_of : nat * Block -> string)
    (blocks : list Block) :
  (forall ib, submodule_name (line_of ib) = instance_name kind (fst ib)) ->
  map submodule_name (map line_of (indexed_from 0 blocks)) =
  map (instance_name kind) (seq 0 (List.length blocks)).
Proof.
  intros H. rewrite map_map, <- map_fst_indexed_from. apply map_ext. intros; apply H.
Qed.

(** X22.  Declarations and fragments agree on documents of one shape: when no
    IO block holds two IO keywords, and the GPIO, the UART and the I2C blocks
    are at most one each, with a [count] that is missing, 0 or 1, the interface
    dictionary declares, for every kind, the very names that the fragments of
    the kind bind and connect. *)
Theorem declarations_match_fragments :
  forall d : DesignData,
    (forall b k1 k2, In b (io d) -> In k1 io_kinds -> In k2 io_kinds ->
       includes (id b) k1 = true -> includes (id b) k2 = true -> k1 = k2) ->
    (forall kind, In kind ["gpio"; "uart"; "i2c"] ->
       List.length (filter (fun b => includes (id b) kind) (io d)) <= 1 /\
       forall b, In b (io d) -> includes (id b) kind = true -> num_or (count b) 1 = 1%N) ->
    filter (of_kind "gpio") (interface_names d) =
      map submodule_name (instantiations "gpio" (generateDesignPy d)) /\
    filter (of_kind "uart") (interface_names d) =
      map submodule_name (instantiations "uart" (generateDesignPy d)) /\
    filter (of_kind "spi") (interface_names d) =
      map submodule_name (instantiations "spi" (generateDesignPy d)) /\
    filter (of_kind "i2c") (interface_names d) =
      map submodule_name (instantiations "i2c" (generateDesignPy d)).
Proof.
  intros d Hone Hsingle.
  assert (Hx : forall b k1 k2, In b (io d) -> In k1 io_kinds -> In k2 io_kinds ->
                 k1 <> k2 -> includes (id b) k1 = true -> includes (id b) k2 = false).
  { intros b k1 k2 Hb H1 H2 N E1. apply not_true_iff_false. intros E2.
    apply N. exact (Hone b k1 k2 Hb H1 H2 E1 E2). }
  assert (Hu : forall b, In b (io d) -> uart_first b = includes (id b) "uart").
  { intros b Hb. unfold uart_first.
    destruct (includes (id b) "uart") eqn:E; [|apply andb_false_r].
    now rewrite (Hx b "uart" "gpio" Hb) by (cbn; tauto || discriminate || assumption). }
  assert (Hs : forall b, In b (io d) -> includes (id b) "spi" = true ->
                 includes (id b) "gpio" = false /\ includes (id b) "uart" = false).
  { intros b Hb E. split;
      [apply (Hx b "spi" "gpio" Hb) | apply (Hx b "spi" "uart" Hb)];
      cbn; tauto || discriminate || assumption. }
  assert (Hi : forall b, In b (io d) -> i2c_first b = includes (id b) "i2c").
  { intros b Hb. unfold i2c_first.
    destruct (includes (id b) "i2c") eqn:E; [|apply andb_false_r].
    now rewrite (Hx b "i2c" "gpio" Hb), (Hx b "i2c" "uart" Hb), (Hx b "i2c" "spi" Hb)
      by (cbn; tauto || discriminate || assumption). }
  destruct (Hsingle "gpio") as [Lg Cg]; [cbn; tauto|].
  destruct (Hsingle "uart") as [Lu Cu]; [cbn; tauto|].
  destruct (Hsingle "i2c") as [Li Ci]; [cbn; tauto|].
  rewrite names_of_gpio, names_of_uart, names_of_spi, names_of_i2c.
  rewrite (restarting_ext "uart" uart_first _ _ Hu), (restarting_ext "i2c" i2c_first _ _ Hi).
  rewrite !restarting_single by assumption.
  rewrite (filter_all_spi_first _ Hs).
  rewrite gpio_instantiations, uart_instantiations, spi_instantiations, i2c_instantiations.
  repeat split; symmetry.
  - apply (indexed_instantiation_names "gpio"). intros; apply submodule_name_gpio.
  - apply (indexed_instantiation_names "uart"). intros; apply submodule_name_uart.
  - rewrite map_map. apply map_ext. intros; apply submodule_name_spi.
  - apply (indexed_instantiation_names "i2c"). intros; apply submodule_name_i2c.
Qed.

Lemma declarations_match_fragments_witness :
  (forall b k1 k2, In b (io uart_gpio_document) -> In k1 io_kinds -> In k2 io_kinds ->
     includes (id b) k1 = true -> includes (id b) k2 = true -> k1 = k2) /\
  (forall kind, In kind ["gpio"; "uart"; "i2c"] ->
     List.length (filter (fun b => includes (id b) kind) (io uart_gpio_document)) <= 1 /\
     forall b, In b (io uart_gpio_document) -> includes (id b) kind = true ->
               num_or (count b) 1 = 1%N) /\
  filter (of_kind "gpio") (interface_names uart_gpio_document) =
    map submodule_name (instantiations "gpio" (generateDesignPy uart_gpio_document)).
Proof.
  assert (H1 : forall b k1 k2, In b (io uart_gpio_document) ->
                 In k1 io_kinds -> In k2 io_kinds ->
                 includes (id b) k1 = true -> includes (id b) k2 = true -> k1 = k2).
  { intros b k1 k2 [<- | [<- | []]]
      [<- | [<- | [<- | [<- | []]]]] [<- | [<- | [<- | [<- | []]]]] E1 E2;
      first [ reflexivity | vm_compute in E1; discriminate E1
            | vm_compute in E2; discriminate E2 ]. }
  assert (H2 : forall kind, In kind ["gpio"; "uart"; "i2c"] ->
                 List.length (filter (fun b => includes (id b) kind)
                                     (io uart_gpio_document)) <= 1 /\
                 forall b, In b (io uart_gpio_document) -> includes (id b) kind = true ->
                           num_or (count b) 1 = 1%N).
  { intros kind [<- | [<- | [<- | []]]]; (split; [vm_compute; lia|]);
      intros b [<- | [<- | []]] _; reflexivity. }
  split; [exact H1|]. split; [exact H2|].
  exact (proj1 (declarations_match_fragments uart_gpio_document H1 H2)).
Defined.

(** ** Appending a block *)

Lemma indexed_from_app {A : Type} (l1 l2 : list A) :
  forall k, indexed_from k (l1 ++ l2) =
            (indexed_from k l1 ++ indexed_from (k + List.length l1) l2)%list.
Proof.
  induction l1 as [|x l1 IH]; intros k; cbn [app indexed_from List.length].
  - now rewrite Nat.add_0_r.
  - rewrite IH. now replace (S k + List.length l1) with (k + S (List.length l1)) by lia.
Qed.

Lemma spi_instances_app (l1 l2 : list Block) :
  spi_instances (l1 ++ l2) = spi_instances l1 + spi_instances l2.
Proof.
  unfold spi_instances. rewrite map_app.
  induction (map (fun b => N.to_nat (num_or (count b) 1)) l1) as [|n ns IH];
    [reflexivity|].
  unfold list_sum in *. cbn [app fold_right]. lia.
Qed.

(** X23.  A block appended to the selected blocks leaves the fragments of the
    blocks before it as they are, names and indices included: what it adds to
    the instantiations of a kind comes after those that were there. *)
Theorem appended_block_keeps_instantiations :
  forall (d d' : DesignData) (b : Block) (kind : string),
    digitalBlocks d' = (digitalBlocks d ++ [b])%list ->
    In kind io_kinds ->
    exists added,
      instantiations kind (generateDesignPy d') =
      (instantiations kind (generateDesignPy d) ++ added)%list.
Proof.
  intros d d' b kind Hd Hk.
  assert (Hio : io d' = (io d ++ filter is_io [b])%list).
  { unfold io. now rewrite Hd, filter_app. }
  destruct Hk as [<- | [<- | [<- | [<- | []]]]].
  - rewrite !gpio_instantiations, Hio, filter_app, indexed_from_app, map_app.
    eexists. reflexivity.
  - rewrite !uart_instantiations, Hio, filter_app, indexed_from_app, map_app.
    eexists. reflexivity.
  - rewrite !spi_instantiations, Hio, filter_app, spi_instances_app, seq_app, map_app.
    eexists. reflexivity.
  - rewrite !i2c_instantiations, Hio, filter_app, indexed_from_app, map_app.
    eexists. reflexivity.
Qed.

Lemma appended_block_keeps_instantiations_witness :
  digitalBlocks two_gpio_document =
    (digitalBlocks (mkDesignData (Some [digital "gpio_a" None None]) None None) ++
     [digital "gpio_b" None None])%list /\
  In "gpio" io_kinds /\
  exists added,
    instantiations "gpio" (generateDesignPy two_gpio_document) =
    (instantiations "gpio"
       (generateDesignPy (mkDesignData (Some [digital "gpio_a" None None]) None None)) ++
     added)%list.
Proof.
  assert (Hk : In "gpio" io_kinds) by (cbn; tauto).
  split; [reflexivity|]. split; [exact Hk|].
  exact (appended_block_keeps_instantiations
           (mkDesignData (Some [digital "gpio_a" None None]) None None)
           two_gpio_document (digital "gpio_b" None None) "gpio" eq_refl Hk).
Defined.

(** ** The interface stage with a running index *)

Lemma fold_add_io_interfaces_declarations_from (blocks : list Block) :
  forall interfaces,
    fold_left add_io_interfaces blocks interfaces =
    (interfaces ++
     declarations_from (List.length (filter is_spi_interface interfaces)) blocks)%list.
Proof.
  induction blocks as [|b blocks IH]; intros interfaces.
  - cbn. now rewrite app_nil_r.
  - cbn [fold_left declarations_from].
    rewrite IH, add_io_interfaces_app, filter_app, length_app, <- app_assoc.
    change (fun iface => includes iface "spi_") with is_spi_interface.
    rewrite filter_spi_block_interfaces.
    destruct (spi_first b).
    + unfold for_range. now rewrite length_map, length_seq.
    + cbn [List.length]. now rewrite Nat.add_0_r.
Qed.

(** X24.  The interface list is the flash interface of a QSPI flash, then the
    JTAG interface of a CV32E40P, then the declarations of the IO blocks in the
    order of the document.  The index that the SPI branch finds by counting the
    SPI declarations made so far is the running total of the [count || 1] of
    the blocks that took the SPI branch before: neither the flash interface nor
    a declaration of another kind is counted. *)
Theorem interfaces_with_running_index :
  forall d : DesignData,
    interfaces d =
    ((if some_id (memory d) "qspi" then [flash_interface] else []) ++
     (if cpu_id_includes (cpu d) "cv32e40p" then [cpu_jtag_interface] else []) ++
     declarations_from 0 (io d))%list.
Proof.
  intros d. unfold interfaces, interfaces_of.
  rewrite fold_add_io_interfaces_declarations_from.
  destruct (some_id (memory d) "qspi"), (cpu_id_includes (cpu d) "cv32e40p"); reflexivity.
Qed.

(** ** What the artifact depends on *)

Lemma some_id_of_readings (l1 l2 : list Block) (kw : string) :
  map reading l1 = map reading l2 -> some_id l1 kw = some_id l2 kw.
Proof.
  intros H. apply normal_of_reading in H.
  now rewrite <- (some_id_normal l1), <- (some_id_normal l2), H.
Qed.

(** X25.  The artifact is a function of the conditions that the generator
    tests of the CPU and of the memory blocks, and of what it reads of the IO
    blocks.  Of the processors only the first is looked at, and only for its
    two keywords; of the memory blocks only whether there is any and which of
    the three keywords occur; of an IO block its identifier, [count || 1] and
    [bitSize || 8]. *)
Theorem artifact_of_conditions :
  forall d1 d2 : DesignData,
    cpu_id_includes (cpu d1) "cv32e40p" = cpu_id_includes (cpu d2) "cv32e40p" ->
    cpu_id_includes (cpu d1) "minerva" = cpu_id_includes (cpu d2) "minerva" ->
    (forall kw, In kw ["sram"; "qspi"; "hyperram"] ->
                some_id (memory d1) kw = some_id (memory d2) kw) ->
    Nat.eqb (List.length (memory d1)) 0 = Nat.eqb (List.length (memory d2)) 0 ->
    map reading (io d1) = map reading (io d2) ->
    generateDesignPy d1 = generateDesignPy d2.
Proof.
  intros d1 d2 Hc Hm Hk Hl Hio.
  pose proof (Hk "sram" ltac:(cbn; tauto)) as Hs.
  pose proof (Hk "qspi" ltac:(cbn; tauto)) as Hq.
  pose proof (Hk "hyperram" ltac:(cbn; tauto)) as Hh.
  pose proof (fun kw => some_id_of_readings _ _ kw Hio) as Hi.
  pose proof (normal_of_reading _ _ Hio) as Hn.
  unfold generateDesignPy, imports, interfaces, memoryMap, cpuCode, memoryCode, ioCode.
  assert (E1 : imports_of (memory d1) (io d1) (cpu d1) =
               imports_of (memory d2) (io d2) (cpu d2)).
  { cbv beta delta [imports_of]. now rewrite Hs, Hq, Hh, Hl, !Hi, Hc, Hm. }
  assert (E2 : interfaces_of (memory d1) (io d1) (cpu d1) =
               interfaces_of (memory d2) (io d2) (cpu d2)).
  { unfold interfaces_of. rewrite Hq, Hc.
    now rewrite <- (fold_add_io_interfaces_normal (io d1)),
      <- (fold_add_io_interfaces_normal (io d2)), Hn. }
  assert (E3 : memoryMap_of (memory d1) (io d1) = memoryMap_of (memory d2) (io d2)).
  { unfold memoryMap_of. now rewrite Hq, !Hi. }
  assert (E4 : cpuCode_of (cpu d1) = cpuCode_of (cpu d2)).
  { unfold cpuCode_of. now rewrite Hc, Hm. }
  assert (E5 : memoryCode_of (memory d1) = memoryCode_of (memory d2)).
  { unfold memoryCode_of. now rewrite Hq. }
  assert (E6 : ioCode_of (io d1) = ioCode_of (io d2)).
  { now rewrite <- (ioCode_of_normal (io d1)), <- (ioCode_of_normal (io d2)), Hn. }
  rewrite E1, E2, E3, E4, E5, E6. unfold designPy_of. now rewrite Hq.
Qed.

Lemma artifact_of_conditions_witness :
  cpu_id_includes (cpu two_cpu_uart_document) "cv32e40p" =
    cpu_id_includes (cpu minerva_uart_document) "cv32e40p" /\
  cpu_id_includes (cpu two_cpu_uart_document) "minerva" =
    cpu_id_includes (cpu minerva_uart_document) "minerva" /\
  (forall kw, In kw ["sram"; "qspi"; "hyperram"] ->
              some_id (memory two_cpu_uart_document) kw =
              some_id (memory minerva_uart_document) kw) /\
  Nat.eqb (List.length (memory two_cpu_uart_document)) 0 =
    Nat.eqb (List.length (memory minerva_uart_document)) 0 /\
  map reading (io two_cpu_uart_document) = map reading (io minerva_uart_document) /\
  generateDesignPy two_cpu_uart_document = generateDesignPy minerva_uart_document.
Proof.
  assert (Hk : forall kw, In kw ["sram"; "qspi"; "hyperram"] ->
                 some_id (memory two_cpu_uart_document) kw =
                 some_id (memory minerva_uart_document) kw).
  { intros kw [<- | [<- | [<- | []]]]; reflexivity. }
  split; [reflexivity|]. split; [reflexivity|]. split; [exact Hk|].
  split; [reflexivity|]. split; [reflexivity|].
  exact (artifact_of_conditions two_cpu_uart_document minerva_uart_document
           eq_refl eq_refl Hk eq_refl eq_refl).
Defined.

(** * The generator in a store: what it leaves behind *)

(** ** Running a sequence *)

Lemma bind_intro {A B : Type} (m : JS A) (k : A -> JS B) (s s1 : Store) (x : A)
    (r : option (B * Store)) :
  m s = Some (x, s1) -> k x s1 = r -> bind m k s = r.
Proof. intros H1 H2. unfold bind. rewrite H1. exact H2. Qed.

(** ** Locations of the caller and locations of the function
    The function's own objects follow the store [t] it was called in. *)

Lemma nth_error_app_base (t L : Store) (l : loc) (o : Obj) :
  nth_error t l = Some o -> nth_error (t ++ L)%list l = Some o.
Proof.
  intros H. rewrite nth_error_app1; [exact H|].
  apply nth_error_Some. congruence.
Qed.

Lemma nth_error_app_local (t L : Store) (k : nat) :
  nth_error (t ++ L)%list (List.length t + k) = nth_error L k.
Proof. rewrite nth_error_app2 by lia. f_equal. lia. Qed.

Lemma update_app_local (t L : Store) (k : nat) (o : Obj) :
  update (List.length t + k) o (t ++ L)%list = (t ++ update k o L)%list.
Proof. induction t as [|x t IH]; cbn; [reflexivity|]. now rewrite IH. Qed.

Lemma nth_error_update (L : Store) (k : nat) (o o' : Obj) :
  nth_error L k = Some o -> nth_error (update k o' L) k = Some o'.
Proof.
  revert k. induction L as [|x L IH]; intros [|k] H; cbn in *; try discriminate.
  - reflexivity.
  - now apply IH.
Qed.

Lemma update_update (L : Store) (k : nat) (o o' : Obj) :
  update k o' (update k o L) = update k o' L.
Proof.
  revert k. induction L as [|x L IH]; intros [|k]; cbn; try reflexivity.
  now rewrite IH.
Qed.

Lemma local_in_store (t L : Store) (k : nat) (o : Obj) :
  nth_error L k = Some o ->
  Nat.ltb (List.length t + k) (List.length (t ++ L)%list) = true.
Proof.
  intros H. apply Nat.ltb_lt. rewrite length_app.
  assert (k < List.length L) by (apply nth_error_Some; congruence). lia.
Qed.

(** ** What the caller holds stays readable *)

Lemma block_at_app (t L : Store) (l : loc) (b : Block) :
  block_at t l = Some b -> block_at (t ++ L)%list l = Some b.
Proof.
  unfold block_at. destruct (nth_error t l) as [o|] eqn:E; [|discriminate].
  rewrite (nth_error_app_base t L l o E). trivial.
Qed.

Lemma blocks_at_app (t L : Store) (arr : list loc) (bs : list Block) :
  blocks_at t arr = Some bs -> blocks_at (t ++ L)%list arr = Some bs.
Proof.
  revert bs. induction arr as [|l arr IH]; intros bs H; cbn in *; [exact H|].
  destruct (block_at t l) as [b|] eqn:Eb; [|discriminate].
  destruct (blocks_at t arr) as [rest|]; [|discriminate].
  rewrite (block_at_app t L l b Eb), (IH rest eq_refl). exact H.
Qed.

Lemma array_at_app (t L : Store) (property : option loc) (a : option (list Block)) :
  array_at t property = Some a -> array_at (t ++ L)%list property = Some a.
Proof.
  destruct property as [l|]; cbn; [|trivial].
  destruct (nth_error t l) as [o|] eqn:E; [|discriminate].
  rewrite (nth_error_app_base t L l o E).
  destruct o as [| elements | | |]; try discriminate.
  destruct (blocks_at t elements) as [bs|] eqn:Ebs; [|discriminate].
  now rewrite (blocks_at_app t L elements bs Ebs).
Qed.

Lemma document_at_app (t L : Store) (l : loc) (d : DesignData) :
  document_at t l = Some d -> document_at (t ++ L)%list l = Some d.
Proof.
  unfold document_at.
  destruct (nth_error t l) as [o|] eqn:E; [|discriminate].
  rewrite (nth_error_app_base t L l o E).
  destruct o as [eb db c| | | |]; try discriminate.
  destruct (array_at t eb) as [e|] eqn:Ee; [|discriminate].
  destruct (array_at t db) as [dd|] eqn:Ed; [|discriminate].
  now rewrite (array_at_app t L _ e Ee), (array_at_app t L _ dd Ed).
Qed.

Lemma blocks_at_length (t : Store) (arr : list loc) (bs : list Block) :
  blocks_at t arr = Some bs -> List.length arr = List.length bs.
Proof.
  revert bs. induction arr as [|l arr IH]; intros bs H; cbn in H.
  - now injection H as <-.
  - destruct (block_at t l); [|discriminate].
    destruct (blocks_at t arr) as [rest|]; [|discriminate].
    injection H as <-. cbn. now rewrite (IH rest eq_refl).
Qed.

Lemma blocks_at_hd (t : Store) (arr : list loc) (bs : list Block) :
  blocks_at t arr = Some bs ->
  match hd_error arr, hd_error bs with
  | Some l, Some b => block_at t l = Some b
  | None, None => True
  | _, _ => False
  end.
Proof.
  destruct arr as [|l arr]; cbn; intros H.
  - now injection H as <-.
  - destruct (block_at t l) as [b|]; [|discriminate].
    destruct (blocks_at t arr); [|discriminate].
    now injection H as <-.
Qed.

(** ** Reads of the caller's blocks *)

Lemma read_block_spec (t : Store) (l : loc) (b : Block) :
  block_at t l = Some b -> read_block l t = Some (b, t).
Proof.
  unfold block_at, read_block, bind, read.
  destruct (nth_error t l) as [[]|]; try discriminate.
  now intros [= ->].
Qed.

Lemma read_elements_spec (t : Store) (l : loc) (elements : list loc) :
  nth_error t l = Some (BlockArray elements) -> read_elements l t = Some (elements, t).
Proof. intros H. unfold read_elements, bind, read. now rewrite H. Qed.

Lemma filter_blocks_spec (P : Block -> bool) (t : Store) (arr : list loc) (bs : list Block) :
  blocks_at t arr = Some bs ->
  exists arr', filter_blocks P arr t = Some (arr', t) /\
               blocks_at t arr' = Some (filter P bs).
Proof.
  revert bs. induction arr as [|l arr IH]; intros bs H; cbn in H.
  - injection H as <-. exists []. split; reflexivity.
  - destruct (block_at t l) as [b|] eqn:Eb; [|discriminate].
    destruct (blocks_at t arr) as [rest|]; [|discriminate].
    injection H as <-.
    destruct (IH rest eq_refl) as [arr' [Hrun Hat]].
    exists (if P b then l :: arr' else arr'). split.
    + cbn [filter_blocks].
      apply (bind_intro _ _ _ _ _ _ (read_block_spec t l b Eb)).
      apply (bind_intro _ _ _ _ _ _ Hrun). reflexivity.
    + cbn [filter]. destruct (P b); [|exact Hat].
      cbn [blocks_at]. now rewrite Eb, Hat.
Qed.

Lemma some_block_spec (kw : string) (t : Store) (arr : list loc) (bs : list Block) :
  blocks_at t arr = Some bs ->
  some_block arr kw t = Some (some_id bs kw, t).
Proof.
  revert bs. induction arr as [|l arr IH]; intros bs H; cbn in H.
  - now injection H as <-.
  - destruct (block_at t l) as [b|] eqn:Eb; [|discriminate].
    destruct (blocks_at t arr) as [rest|]; [|discriminate].
    injection H as <-.
    cbn [some_block]. apply (bind_intro _ _ _ _ _ _ (read_block_spec t l b Eb)).
    unfold some_id. cbn [existsb].
    destruct (includes (id b) kw); [reflexivity|]. exact (IH rest eq_refl).
Qed.

Lemma cpu_includes_spec (kw : string) (t : Store) (arr : list loc) (bs : list Block) :
  blocks_at t arr = Some bs ->
  cpu_includes (hd_error arr) kw t = Some (cpu_id_includes (hd_error bs) kw, t).
Proof.
  intros H. pose proof (blocks_at_hd t arr bs H) as Hhd.
  destruct (hd_error arr) as [l|], (hd_error bs) as [b|]; try contradiction.
  - cbn [cpu_includes cpu_id_includes].
    apply (bind_intro _ _ _ _ _ _ (read_block_spec t l b Hhd)). reflexivity.
  - reflexivity.
Qed.

Lemma forEach_assigning_spec {St : Type} (callback : St -> loc -> nat -> JS St)
    (f : St -> Block -> nat -> St) (t : Store) :
  (forall st l b index, block_at t l = Some b ->
                        callback st l index t = Some (f st b index, t)) ->
  forall (arr : list loc) (bs : list Block) (index : nat) (st : St),
    blocks_at t arr = Some bs ->
    forEach_assigning callback arr index st t = Some (forEach_from f bs index st, t).
Proof.
  intros Hcb. induction arr as [|l arr IH]; intros bs index st H; cbn in H.
  - now injection H as <-.
  - destruct (block_at t l) as [b|] eqn:Eb; [|discriminate].
    destruct (blocks_at t arr) as [rest|]; [|discriminate].
    injection H as <-.
    cbn [forEach_assigning forEach_from].
    apply (bind_intro _ _ _ _ _ _ (Hcb st l b index Eb)).
    exact (IH rest (S index) _ eq_refl).
Qed.

(** ** Writes to the function's own objects *)

Lemma alloc_base (o : Obj) (t : Store) :
  alloc o t = Some (List.length t + 0, (t ++ [o])%list).
Proof. unfold alloc. now rewrite Nat.add_0_r. Qed.

Lemma alloc_local (o : Obj) (t L : Store) :
  alloc o (t ++ L)%list = Some (List.length t + List.length L, (t ++ (L ++ [o]))%list).
Proof. unfold alloc. now rewrite length_app, app_assoc. Qed.

Lemma read_strings_local (t L : Store) (k : nat) (e : list string) :
  nth_error L k = Some (StringArray e) ->
  read_strings (List.length t + k) (t ++ L)%list = Some (e, (t ++ L)%list).
Proof.
  intros H. unfold read_strings, bind, read.
  now rewrite nth_error_app_local, H.
Qed.

Lemma read_set_local (t L : Store) (k : nat) (e : list string) :
  nth_error L k = Some (StringSet e) ->
  read_set (List.length t + k) (t ++ L)%list = Some (e, (t ++ L)%list).
Proof.
  intros H. unfold read_set, bind, read.
  now rewrite nth_error_app_local, H.
Qed.

Lemma push_to_local (t L : Store) (k : nat) (e : list string) (x : string) :
  nth_error L k = Some (StringArray e) ->
  push_to (List.length t + k) x (t ++ L)%list =
    Some (tt, (t ++ update k (StringArray (push e x)) L)%list).
Proof.
  intros H. unfold push_to.
  apply (bind_intro _ _ _ _ _ _ (read_strings_local t L k e H)).
  unfold write. now rewrite (local_in_store t L k _ H), update_app_local.
Qed.

Lemma add_to_local (t L : Store) (k : nat) (e : list string) (x : string) :
  nth_error L k = Some (StringSet e) ->
  add_to (List.length t + k) x (t ++ L)%list =
    Some (tt, (t ++ update k (StringSet (Set_add e x)) L)%list).
Proof.
  intros H. unfold add_to.
  apply (bind_intro _ _ _ _ _ _ (read_set_local t L k e H)).
  unfold write. now rewrite (local_in_store t L k _ H), update_app_local.
Qed.

Lemma update_same (L : Store) (k : nat) (o : Obj) :
  nth_error L k = Some o -> update k o L = L.
Proof.
  revert k. induction L as [|x L IH]; intros [|k] H; cbn in *; try discriminate.
  - now injection H as ->.
  - now rewrite IH.
Qed.

Lemma when_push_to_local (c : bool) (t L : Store) (k : nat) (e : list string) (x : string) :
  nth_error L k = Some (StringArray e) ->
  when c (push_to (List.length t + k) x) (t ++ L)%list =
    Some (tt, (t ++ update k (StringArray (if c then push e x else e)) L)%list).
Proof.
  intros H. destruct c; cbn [when].
  - now apply push_to_local.
  - now rewrite (update_same L k _ H).
Qed.

Lemma when_add_to_local (c : bool) (t L : Store) (k : nat) (e : list string) (x : string) :
  nth_error L k = Some (StringSet e) ->
  when c (add_to (List.length t + k) x) (t ++ L)%list =
    Some (tt, (t ++ update k (StringSet (if c then Set_add e x else e)) L)%list).
Proof.
  intros H. destruct c; cbn [when].
  - now apply add_to_local.
  - now rewrite (update_same L k _ H).
Qed.

Lemma choice_add_to_local (c1 c2 : bool) (m : JS bool) (t L : Store) (k : nat)
    (e : list string) (x1 x2 : string) :
  nth_error L k = Some (StringSet e) ->
  m (t ++ L)%list = Some (c2, (t ++ L)%list) ->
  (if c1 then add_to (List.length t + k) x1
   else c <- m ;; when c (add_to (List.length t + k) x2)) (t ++ L)%list =
    Some (tt, (t ++ update k (StringSet (if c1 then Set_add e x1
                                         else if c2 then Set_add e x2 else e)) L)%list).
Proof.
  intros H Hm. destruct c1.
  - now apply add_to_local.
  - apply (bind_intro _ _ _ _ _ _ Hm). now apply when_add_to_local.
Qed.

Lemma for_each_push_local (f : nat -> string) (t : Store) (k : nat) (range : list nat) :
  forall (L : Store) (e : list string),
    nth_error L k = Some (StringArray e) ->
    for_each (fun i => push_to (List.length t + k) (f i)) range (t ++ L)%list =
      Some (tt, (t ++ update k (StringArray
                   (fold_left (fun interfaces i => push interfaces (f i)) range e)) L)%list).
Proof.
  induction range as [|i range IH]; intros L e H; cbn [for_each fold_left].
  - now rewrite (update_same L k _ H).
  - apply (bind_intro _ _ _ _ _ _ (push_to_local t L k e (f i) H)).
    rewrite (IH _ (push e (f i)) (nth_error_update L k _ _ H)).
    now rewrite update_update.
Qed.

(** ** The stages *)

Ltac run_step H := apply (bind_intro _ _ _ _ _ _ H); cbv beta.

Ltac run_local lemma :=
  eapply bind_intro; [ apply lemma; reflexivity | cbv beta; cbn [update] ].

Section Stages.

Variable t : Store.
Variables procs memory io : list loc.
Variables pbs mbs ibs : list Block.
Hypothesis Hprocs : blocks_at t procs = Some pbs.
Hypothesis Hmemory : blocks_at t memory = Some mbs.
Hypothesis Hio : blocks_at t io = Some ibs.

Lemma run_imports_spec :
  exists ioImports platformImports,
    run_imports memory io (hd_error procs) t =
      Some (List.length t + 0,
            (t ++ [ StringSet (imports_of mbs ibs (hd_error pbs));
                    StringArray ioImports; StringArray platformImports ])%list).
Proof.
  assert (Hm : forall kw L, some_block memory kw (t ++ L)%list = Some (some_id mbs kw, (t ++ L)%list))
    by (intros; apply some_block_spec, blocks_at_app, Hmemory).
  assert (Hi : forall kw L, some_block io kw (t ++ L)%list = Some (some_id ibs kw, (t ++ L)%list))
    by (intros; apply some_block_spec, blocks_at_app, Hio).
  assert (Hc : forall kw L, cpu_includes (hd_error procs) kw (t ++ L)%list =
                            Some (cpu_id_includes (hd_error pbs) kw, (t ++ L)%list))
    by (intros; apply cpu_includes_spec, blocks_at_app, Hprocs).
  do 2 eexists. unfold run_imports.
  run_step (alloc_base (StringSet (new_Set [
    "from pathlib import Path"; EmptyString; "from amaranth import Module";
    "from amaranth.lib import wiring";
    "from amaranth.lib.wiring import Out, flipped, connect"; EmptyString;
    "from amaranth_soc import csr, wishbone";
    "from amaranth_soc.csr.wishbone import WishboneCSRBridge"; EmptyString;
    "from chipflow_digital_ip.base import SoCID" ])) t).
  run_step (Hm "qspi" [StringSet (new_Set [
    "from pathlib import Path"; EmptyString; "from amaranth import Module";
    "from amaranth.lib import wiring";
    "from amaranth.lib.wiring import Out, flipped, connect"; EmptyString;
    "from amaranth_soc import csr, wishbone";
    "from amaranth_soc.csr.wishbone import WishboneCSRBridge"; EmptyString;
    "from chipflow_digital_ip.base import SoCID" ])]).
  run_local when_add_to_local.
  eapply bind_intro; [apply Hm|cbv beta].
  run_local when_add_to_local.
  eapply bind_intro; [apply Hm|cbv beta].
  run_local when_add_to_local.
  eapply bind_intro; [apply alloc_local|cbv beta; cbn [app List.length]].
  eapply bind_intro; [apply Hi|cbv beta].
  run_local when_push_to_local.
  eapply bind_intro; [apply Hi|cbv beta].
  run_local when_push_to_local.
  eapply bind_intro; [apply Hi|cbv beta].
  run_local when_push_to_local.
  eapply bind_intro; [apply Hi|cbv beta].
  run_local when_push_to_local.
  run_local read_strings_local.
  run_local when_add_to_local.
  eapply bind_intro; [apply Hc|cbv beta].
  eapply bind_intro; [apply choice_add_to_local; [reflexivity|apply Hc]|cbv beta; cbn [update]].
  eapply bind_intro; [apply alloc_local|cbv beta; cbn [app List.length]].
  eapply bind_intro; [apply Hi|cbv beta].
  run_local when_push_to_local.
  eapply bind_intro; [apply Hi|cbv beta].
  run_local when_push_to_local.
  eapply bind_intro; [apply Hi|cbv beta].
  run_local when_push_to_local.
  eapply bind_intro; [apply Hi|cbv beta].
  run_local when_push_to_local.
  eapply bind_intro; [apply Hm|cbv beta].
  run_local when_push_to_local.
  eapply bind_intro; [apply Hc|cbv beta].
  run_local when_push_to_local.
  run_local read_strings_local.
  eapply bind_intro; [apply add_to_local; reflexivity|cbv beta; cbn [update]].
  unfold ret. rewrite (blocks_at_length _ _ _ Hmemory).
  cbv beta zeta delta [imports_of].
  reflexivity.
Qed.

Lemma run_add_io_interfaces_local (L : Store) (k : nat) (e : list string)
    (block : loc) (b : Block) :
  block_at t block = Some b ->
  nth_error L k = Some (StringArray e) ->
  run_add_io_interfaces (List.length t + k) block (t ++ L)%list =
    Some (tt, (t ++ update k (StringArray (add_io_interfaces e b)) L)%list).
Proof.
  intros Hb H. unfold run_add_io_interfaces, add_io_interfaces.
  run_step (read_block_spec _ _ _ (block_at_app t L block b Hb)).
  destruct (includes (id b) "gpio"); [now apply for_each_push_local|].
  destruct (includes (id b) "uart"); [now apply for_each_push_local|].
  destruct (includes (id b) "spi").
  { run_step (read_strings_local t L k e H).
    now apply (for_each_push_local (fun i => spi_interface (_ + i))). }
  destruct (includes (id b) "i2c"); [now apply for_each_push_local|].
  unfold ret. now rewrite (update_same L k _ H).
Qed.

Lemma forEach_add_io_interfaces_local (k : nat) (arr : list loc) :
  forall (bs : list Block) (L : Store) (e : list string),
    blocks_at t arr = Some bs ->
    nth_error L k = Some (StringArray e) ->
    forEach_block (run_add_io_interfaces (List.length t + k)) arr (t ++ L)%list =
      Some (tt, (t ++ update k (StringArray (fold_left add_io_interfaces bs e)) L)%list).
Proof.
  induction arr as [|l arr IH]; intros bs L e Hbs H; cbn in Hbs.
  - injection Hbs as <-. cbn. unfold ret. now rewrite (update_same L k _ H).
  - destruct (block_at t l) as [b|] eqn:Eb; [|discriminate].
    destruct (blocks_at t arr) as [rest|]; [|discriminate].
    injection Hbs as <-. cbn [forEach_block fold_left].
    run_step (run_add_io_interfaces_local L k e l b Eb H).
    rewrite (IH rest _ (add_io_interfaces e b) eq_refl (nth_error_update L k _ _ H)).
    now rewrite update_update.
Qed.

Lemma run_interfaces_spec :
  run_interfaces memory io (hd_error procs) t =
    Some (List.length t + 0,
          (t ++ [ StringArray (interfaces_of mbs ibs (hd_error pbs)) ])%list).
Proof.
  unfold run_interfaces.
  run_step (alloc_base (StringArray []) t).
  eapply bind_intro;
    [apply some_block_spec, blocks_at_app, Hmemory|cbv beta].
  run_local when_push_to_local.
  eapply bind_intro;
    [apply cpu_includes_spec, blocks_at_app, Hprocs|cbv beta].
  run_local when_push_to_local.
  eapply bind_intro;
    [apply (forEach_add_io_interfaces_local 0 io ibs); [exact Hio|reflexivity]
    |cbv beta; cbn [update]].
  reflexivity.
Qed.

Lemma run_memoryMap_spec :
  run_memoryMap memory io t = Some (memoryMap_of mbs ibs, t).
Proof.
  unfold run_memoryMap.
  run_step (some_block_spec "qspi" _ _ _ Hmemory).
  run_step (some_block_spec "spi" _ _ _ Hio).
  run_step (some_block_spec "i2c" _ _ _ Hio).
  reflexivity.
Qed.

Lemma run_cpuCode_spec :
  run_cpuCode (hd_error procs) t = Some (cpuCode_of (hd_error pbs), t).
Proof.
  unfold run_cpuCode, cpuCode_of.
  run_step (cpu_includes_spec "cv32e40p" _ _ _ Hprocs).
  destruct (cpu_id_includes (hd_error pbs) "cv32e40p"); [reflexivity|].
  run_step (cpu_includes_spec "minerva" _ _ _ Hprocs).
  destruct (cpu_id_includes (hd_error pbs) "minerva"); reflexivity.
Qed.

Lemma run_memoryCode_spec :
  run_memoryCode memory t = Some (memoryCode_of mbs, t).
Proof.
  unfold run_memoryCode.
  run_step (some_block_spec "qspi" _ _ _ Hmemory).
  reflexivity.
Qed.

Lemma run_ioCode_spec :
  run_ioCode io t = Some (ioCode_of ibs, t).
Proof.
  unfold run_ioCode, ioCode_of, forEach.
  destruct (filter_blocks_spec (fun b => includes (id b) "gpio") t io ibs Hio)
    as [gpioBlocks [Hg Hgb]].
  destruct (filter_blocks_spec (fun b => includes (id b) "uart") t io ibs Hio)
    as [uartBlocks [Hu Hub]].
  destruct (filter_blocks_spec (fun b => includes (id b) "spi") t io ibs Hio)
    as [spiBlocks [Hs Hsb]].
  destruct (filter_blocks_spec (fun b => includes (id b) "i2c") t io ibs Hio)
    as [i2cBlocks [Hi Hib]].
  run_step Hg.
  eapply bind_intro.
  { apply (forEach_assigning_spec _
             (fun ioCode block index =>
                (ioCode ++ gpio_fragment index (num_or (bitSize block) 8))%string)
             t); [|exact Hgb].
    intros st l b index Hb. run_step (read_block_spec t l b Hb). reflexivity. }
  cbv beta. run_step Hu.
  eapply bind_intro.
  { apply (forEach_assigning_spec _
             (fun ioCode (_ : Block) index => (ioCode ++ uart_fragment index)%string)
             t); [|exact Hub].
    intros st l b index Hb. reflexivity. }
  cbv beta. run_step Hs.
  eapply bind_intro.
  { apply (forEach_assigning_spec _ add_spi_block t); [|exact Hsb].
    intros st l b index Hb. run_step (read_block_spec t l b Hb). reflexivity. }
  cbv beta zeta. run_step Hi.
  destruct (forEach_from add_spi_block _ 0 _) as [ioCode spiIndex]. cbn [fst].
  apply (forEach_assigning_spec _
           (fun ioCode (_ : Block) index => (ioCode ++ i2c_fragment index)%string)
           t); [|exact Hib].
  intros st l b index Hb. reflexivity.
Qed.

End Stages.

(** ** The function *)

(** The array that the function takes the blocks from, as the store holds
    it for a document. *)
Lemma allBlocks_at (s : Store) (eb db : option loc) (e dd : option (list Block))
    (c : option string) :
  array_at s eb = Some e ->
  array_at s db = Some dd ->
  exists arr,
    match eb with
    | Some l => read_elements l
    | None => match db with
              | Some l => read_elements l
              | None => ret []
              end
    end s = Some (arr, s) /\
    blocks_at s arr = Some (allBlocks (mkDesignData e dd c)) /\
    (match eb with Some _ => true | None => false end =
     match e with Some _ => true | None => false end).
Proof.
  intros He Hd. unfold allBlocks. cbn [enabledBlocks directDigitalBlocks].
  destruct eb as [l|]; cbn in He.
  - destruct (nth_error s l) as [[| elements | | |]|] eqn:E; try discriminate.
    destruct (blocks_at s elements) as [bs|] eqn:Ebs; [|discriminate].
    injection He as <-. exists elements.
    now rewrite (read_elements_spec s l elements E).
  - injection He as <-. destruct db as [l|]; cbn in Hd.
    + destruct (nth_error s l) as [[| elements | | |]|] eqn:E; try discriminate.
      destruct (blocks_at s elements) as [bs|] eqn:Ebs; [|discriminate].
      injection Hd as <-. exists elements.
      now rewrite (read_elements_spec s l elements E).
    + injection Hd as <-. exists []. repeat split.
Qed.

(** Called on a document of the store, the function returns the text that
    [generateDesignPy] gives for that document, and the store it leaves is the
    store it was called in followed by the objects it created. *)
Lemma run_generateDesignPy_spec (s : Store) (designData : loc) (d : DesignData) :
  document_at s designData = Some d ->
  exists created,
    run_generateDesignPy designData s = Some (generateDesignPy d, (s ++ created)%list).
Proof.
  unfold document_at.
  destruct (nth_error s designData) as [[eb db c| | | |]|] eqn:E; try discriminate.
  destruct (array_at s eb) as [e|] eqn:Ee; [|discriminate].
  destruct (array_at s db) as [dd|] eqn:Ed; [|discriminate].
  intros [= <-].
  destruct (allBlocks_at s eb db e dd c Ee Ed) as [arr [Hall [Harr Hsome]]].
  set (d := mkDesignData e dd c) in *.
  assert (Hdig : exists dig,
            match eb with
            | Some _ => filter_blocks type_is_digital arr
            | None => filter_blocks enabled_truthy arr
            end s = Some (dig, s) /\
            blocks_at s dig = Some (digitalBlocks d)).
  { unfold digitalBlocks. cbn [enabledBlocks d].
    destruct eb, e; try discriminate Hsome; now apply filter_blocks_spec. }
  destruct Hdig as [dig [Hdig Hdb]].
  destruct (filter_blocks_spec is_processor s dig _ Hdb) as [procs [Hp Hpb]].
  destruct (filter_blocks_spec is_memory s dig _ Hdb) as [mem [Hm Hmb]].
  destruct (filter_blocks_spec is_io s dig _ Hdb) as [ios [Hi Hib]].
  fold (processors d) in Hpb. fold (memory d) in Hmb. fold (io d) in Hib.
  destruct (run_imports_spec s procs mem ios _ _ _ Hpb Hmb Hib) as [a [b Himp]].
  fold (cpu d) in Himp. fold (imports d) in Himp.
  eexists. unfold run_generateDesignPy.
  eapply bind_intro.
  { unfold read_document, bind, read. rewrite E. reflexivity. }
  cbv beta iota.
  run_step Hall. run_step Hdig. run_step Hp. run_step Hm. run_step Hi.
  cbv zeta.
  run_step Himp.
  eapply bind_intro.
  { apply (run_interfaces_spec _ procs mem ios _ _ _
             (blocks_at_app s _ _ _ Hpb) (blocks_at_app s _ _ _ Hmb)
             (blocks_at_app s _ _ _ Hib)). }
  cbv beta. fold (cpu d). fold (interfaces d).
  rewrite <- app_assoc, length_app, !Nat.add_0_r. cbn [app List.length].
  set (t := (s ++ _)%list).
  assert (Hpt : blocks_at t procs = Some (processors d)) by now apply blocks_at_app.
  assert (Hmt : blocks_at t mem = Some (memory d)) by now apply blocks_at_app.
  assert (Hit : blocks_at t ios = Some (io d)) by now apply blocks_at_app.
  run_step (run_memoryMap_spec t mem ios _ _ Hmt Hit).
  run_step (run_cpuCode_spec t procs _ Hpt).
  run_step (run_memoryCode_spec t mem _ Hmt).
  run_step (run_ioCode_spec t ios _ Hit).
  subst t.
  eapply bind_intro.
  { rewrite <- (Nat.add_0_r (List.length s)). apply read_set_local. reflexivity. }
  cbv beta.
  eapply bind_intro; [apply read_strings_local; reflexivity|cbv beta].
  eapply bind_intro; [apply some_block_spec, blocks_at_app, Hmb|cbv beta].
  reflexivity.
Qed.

(** Every document is held by some store. *)
Lemma blocks_at_objects (bs : list Block) :
  forall pre post : Store,
    blocks_at (pre ++ map BlockObject bs ++ post)%list
              (seq (List.length pre) (List.length bs)) = Some bs.
Proof.
  induction bs as [|b bs IH]; intros pre post; [reflexivity|].
  cbn [List.length seq map app blocks_at].
  assert (Hb : block_at (pre ++ BlockObject b :: map BlockObject bs ++ post)%list
                        (List.length pre) = Some b).
  { unfold block_at. now rewrite nth_error_app2, Nat.sub_diag by lia. }
  rewrite Hb.
  specialize (IH (pre ++ [BlockObject b])%list post).
  rewrite <- app_assoc, length_app, Nat.add_comm in IH. cbn [app List.length Nat.add] in IH.
  now rewrite IH.
Qed.

Lemma document_at_store_of (d : DesignData) :
  document_at (store_of d) 0 = Some d.
Proof.
  assert (He : forall (E D : list Block) (x y z : Obj),
             blocks_at (x :: y :: z :: map BlockObject E ++ map BlockObject D)%list
                       (seq 3 (List.length E)) = Some E)
    by (intros E D x y z; exact (blocks_at_objects E [x; y; z] (map BlockObject D))).
  assert (Hd : forall (E D : list Block) (x y z : Obj),
             blocks_at (x :: y :: z :: map BlockObject E ++ map BlockObject D)%list
                       (seq (3 + List.length E) (List.length D)) = Some D).
  { intros E D x y z.
    pose proof (blocks_at_objects D ([x; y; z] ++ map BlockObject E)%list []) as H.
    rewrite app_nil_r, length_app, length_map in H. exact H. }
  destruct d as [[e|] [dd|] c]; unfold store_of, document_at;
    cbn [enabledBlocks directDigitalBlocks config app nth_error option_map array_at];
    rewrite ?He, ?Hd; reflexivity.
Qed.

(** C8.  Two invocations on one document return the same text, byte for byte:
    called on a document that the store holds, the function returns, it leaves
    every object that was in the store as it was, whatever else the store
    holds, and what it returns is the text of the document.  So the call
    repeated on the same object, in the store that the first call left, and a
    call on an equal document held elsewhere, in another store, return the
    text that the first call returned. *)
Theorem generateDesignPy_invocations_agree :
  forall (s s' : Store) (designData designData' : loc) (d : DesignData),
    document_at s designData = Some d ->
    document_at s' designData' = Some d ->
    exists (text : string) (created created' again : list Obj),
      run_generateDesignPy designData s = Some (text, (s ++ created)%list) /\
      run_generateDesignPy designData (s ++ created)%list =
        Some (text, ((s ++ created) ++ again)%list) /\
      run_generateDesignPy designData' s' = Some (text, (s' ++ created')%list) /\
      text = generateDesignPy d.
Proof.
  intros s s' designData designData' d H H'.
  destruct (run_generateDesignPy_spec s designData d H) as [created Hrun].
  destruct (run_generateDesignPy_spec s' designData' d H') as [created' Hrun'].
  destruct (run_generateDesignPy_spec (s ++ created)%list designData d
              (document_at_app s created designData d H)) as [again Hagain].
  exists (generateDesignPy d), created, created', again.
  repeat split; assumption.
Qed.

Lemma generateDesignPy_invocations_agree_witness :
  document_at uart_store 0 = Some uart_document /\
  document_at uart_store_reversed 3 = Some uart_document /\
  exists (text : string) (created created' again : list Obj),
    run_generateDesignPy 0 uart_store = Some (text, (uart_store ++ created)%list) /\
    run_generateDesignPy 0 (uart_store ++ created)%list =
      Some (text, ((uart_store ++ created) ++ again)%list) /\
    run_generateDesignPy 3 uart_store_reversed =
      Some (text, (uart_store_reversed ++ created')%list) /\
    text = generateDesignPy uart_document.
Proof.
  split; [reflexivity|]. split; [reflexivity|].
  exact (generateDesignPy_invocations_agree uart_store uart_store_reversed 0 3
           uart_document eq_refl eq_refl).
Defined.
